(** * Micro-Epsilon scanCONTROL to MIL: the data-conversion chain and the
      profile processes

    A shallow embedding of [DataConversion.h], [ProfileProcess.cpp] and
    [Micro-EpsilonToMIL.cpp].  MIL buffers live in a store indexed by
    [MIL_ID]; an [SPData] is three identifiers into that store, so that
    two [SPData] that share an identifier alias the same pixels.  The
    [Convert] methods are state transformers over the store. *)

From Stdlib Require Import ZArith QArith Lia Ascii.
From stdpp Require Import base option list gmap numbers strings.

Set Warnings "-register-all".

#[local] Close Scope Q_scope.
#[local] Open Scope nat_scope.

(** ** Floating-point processing

    [MIL_DOUBLE] is the carrier of every floating-point quantity (a
    [MIL_FLOAT] is the [MIL_DOUBLE] it converts to).  How MIL rounds inside
    [M_FLOAT_PROC] is not visible from the sources, so the operations are the
    fields of an interface; the only laws are that a C [double] holds every
    integer up to 2^53 exactly and that the largest float is a float. *)

Class FloatProc := {
  MIL_DOUBLE : Type;
  MIL_DOUBLE_eq_dec :: EqDecision MIL_DOUBLE;
  (* int -> double and double -> int conversions *)
  D_of_Z : Z → MIL_DOUBLE;
  D_to_Z : MIL_DOUBLE → Z;
  (* double-precision [+] and [*] of C++ *)
  D_add : MIL_DOUBLE → MIL_DOUBLE → MIL_DOUBLE;
  D_mult : MIL_DOUBLE → MIL_DOUBLE → MIL_DOUBLE;
  (* the cast [(MIL_FLOAT)] *)
  F_cast : MIL_DOUBLE → MIL_DOUBLE;
  (* per-pixel results of MimArith in floating point, as stored in a 32-bit
     float buffer *)
  F_mult : MIL_DOUBLE → MIL_DOUBLE → MIL_DOUBLE;
  F_add : MIL_DOUBLE → MIL_DOUBLE → MIL_DOUBLE;
  F_sub : MIL_DOUBLE → MIL_DOUBLE → MIL_DOUBLE;
  (* M_MAX of a 32-bit float buffer *)
  FLT_MAX : MIL_DOUBLE;
  F_cast_FLT_MAX : F_cast FLT_MAX = FLT_MAX;
  D_to_of_Z : ∀ z : Z, (Z.abs z ≤ 2 ^ 53)%Z → D_to_Z (D_of_Z z) = z
}.

(** Exact rational arithmetic is one instance (values kept reduced, so that
    equal numbers are equal terms). *)

#[global] Instance Q_eq_dec : EqDecision Q.
Proof. solve_decision. Defined.

Definition Q_trunc (q : Q) : Z := Z.quot (Qnum q) (Z.pos (Qden q)).

Lemma Q_trunc_inject (z : Z) : Q_trunc (Qred (inject_Z z)) = z.
Proof.
  assert (E : Qred (inject_Z z) = inject_Z z).
  { unfold Qred, inject_Z. simpl.
    pose proof (Z.ggcd_gcd z 1) as G. pose proof (Z.ggcd_correct_divisors z 1) as D.
    destruct (Z.ggcd z 1) as [g [a b]]. simpl in *.
    rewrite Z.gcd_1_r in G. subst g. destruct D as [D1 D2].
    rewrite Z.mul_1_l in D1, D2. subst a b. reflexivity. }
  rewrite E. unfold Q_trunc. simpl. apply Z.quot_1_r.
Qed.

Definition ExactQ : FloatProc := {|
  MIL_DOUBLE := Q;
  D_of_Z := λ z, Qred (inject_Z z);
  D_to_Z := Q_trunc;
  D_add := λ a b, Qred (Qplus a b);
  D_mult := λ a b, Qred (Qmult a b);
  F_cast := λ a, a;
  F_mult := λ a b, Qred (Qmult a b);
  F_add := λ a b, Qred (Qplus a b);
  F_sub := λ a b, Qred (Qminus a b);
  FLT_MAX := inject_Z ((2 ^ 24 - 1) * 2 ^ 104);
  F_cast_FLT_MAX := eq_refl;
  D_to_of_Z := λ z _, Q_trunc_inject z
|}.

(** ** MIL buffers *)

Definition MIL_ID := Z.
Definition M_NULL : MIL_ID := 0%Z.

(** [8 + M_UNSIGNED], [16 + M_UNSIGNED], [32 + M_FLOAT] *)
Inductive BufType := U8 | U16 | F32.

#[global] Instance BufType_eq_dec : EqDecision BufType.
Proof. solve_decision. Defined.

Section Model.
Context `{FP : FloatProc}.

Inductive Pixel :=
| PInt (n : Z)
| PFlt (v : MIL_DOUBLE).

#[global] Instance Pixel_eq_dec : EqDecision Pixel.
Proof. solve_decision. Defined.

(** A buffer is its logical pixels, row by row (a 1-D buffer has one row);
    MIL functions are specified on pixels, whatever the pitch of the host
    memory behind them. *)
Record MilBuf := {
  buf_type : BufType;
  buf_rows : list (list Pixel)
}.

Definition pixel_val (p : Pixel) : MIL_DOUBLE :=
  match p with
  | PInt n => D_of_Z n
  | PFlt v => v
  end.

Definition wrap (t : BufType) (n : Z) : Z :=
  match t with
  | U8 => n mod 256
  | U16 => n mod 65536
  | F32 => n
  end%Z.

(** MbufInquire(.., M_MAX, ..): the largest value the buffer type holds. *)
Definition type_max (t : BufType) : MIL_DOUBLE :=
  match t with
  | U8 => D_of_Z 255
  | U16 => D_of_Z 65535
  | F32 => FLT_MAX
  end.

(** The largest pixel of a buffer of type [t]. *)
Definition max_px (t : BufType) : Pixel :=
  match t with
  | U8 => PInt 255
  | U16 => PInt 65535
  | F32 => PFlt FLT_MAX
  end.

(** Storing a MIL_DOUBLE constant in a buffer of type [t]. *)
Definition store_const (t : BufType) (c : MIL_DOUBLE) : Pixel :=
  match t with
  | F32 => PFlt (F_cast c)
  | _ => PInt (wrap t (D_to_Z c))
  end.

(** Storing the result of a floating-point operation (a 32-bit float
    already) in a buffer of type [t]. *)
Definition store_result (t : BufType) (v : MIL_DOUBLE) : Pixel :=
  match t with
  | F32 => PFlt v
  | _ => PInt (wrap t (D_to_Z v))
  end.

Definition zero_px (t : BufType) : Pixel :=
  match t with
  | F32 => PFlt (D_of_Z 0)
  | _ => PInt 0
  end.

Definition alloc_buf (t : BufType) (SizeX SizeY : nat) : MilBuf :=
  {| buf_type := t; buf_rows := replicate SizeY (replicate SizeX (zero_px t)) |}.

(** Pixel (x, y) of a buffer. *)
Definition pix (b : MilBuf) (x y : nat) : option Pixel :=
  buf_rows b !! y ≫= λ r, r !! x.

(** The type and the row lengths of a buffer: what no MIL processing
    function changes. *)
Definition shape (b : MilBuf) : BufType * list nat :=
  (buf_type b, length <$> buf_rows b).

Definition is_image (b : MilBuf) (t : BufType) (SizeX SizeY : nat) : Prop :=
  shape b = (t, replicate SizeY SizeX).

(** A point of a point cloud, and a point-cloud container: the labelled
    points it holds. *)
Definition Point3 : Type := MIL_DOUBLE * MIL_DOUBLE * MIL_DOUBLE.

Record MilState := {
  bufs : gmap MIL_ID MilBuf;
  clouds : gmap MIL_ID (list (Z * Point3))
}.

Definition set_bufs (f : gmap MIL_ID MilBuf → gmap MIL_ID MilBuf) (s : MilState) : MilState :=
  {| bufs := f (bufs s); clouds := clouds s |}.
Definition set_clouds (f : gmap MIL_ID (list (Z * Point3)) → gmap MIL_ID (list (Z * Point3)))
    (s : MilState) : MilState :=
  {| bufs := bufs s; clouds := f (clouds s) |}.

(** ** The monad of MIL calls

    A call returns [None] where C++ leaves the behaviour undefined (a copy
    through a host pointer past the end of its buffer, a null object
    pointer).  A MIL function given an invalid identifier reports a MIL error
    and does nothing: this is a successful call that leaves the state as it
    was. *)

Definition Mil (A : Type) : Type := MilState → option (A * MilState).

Definition ret {A} (a : A) : Mil A := λ s, Some (a, s).
Definition bindM {A B} (m : Mil A) (k : A → Mil B) : Mil B :=
  λ s, match m s with
       | Some (a, s') => k a s'
       | None => None
       end.
Definition undefined {A} : Mil A := λ _, None.
Definition modify (f : MilState → MilState) : Mil unit := λ s, Some (tt, f s).

Notation "'let*' x ':=' c1 'in' c2" := (bindM c1 (λ x, c2))
  (at level 10, x pattern, c1 at level 100, c2 at level 200).

(** ** MIL primitives

    The MIL library is not part of the repository.  Its functions are given
    the meaning the spec gives to the stages that call them: allocation
    returns an identifier that is not in use, processing functions write
    their destination buffer pixel by pixel over the area it shares with the
    source, and none of them changes the type or the size of a buffer. *)

(** Applies [f] to the pixels [src] and [dst] have in common, and keeps the
    other pixels of [dst]. *)
Fixpoint zip_over {A B} (f : A → B → B) (src : list A) (dst : list B) : list B :=
  match src, dst with
  | a :: src', b :: dst' => f a b :: zip_over f src' dst'
  | _, _ => dst
  end.

Definition fresh_id (s : MilState) : MIL_ID :=
  fresh ({[M_NULL]} ∪ dom (bufs s) ∪ dom (clouds s)).

Definition MbufAlloc2d (MilSystem : MIL_ID) (SizeX SizeY : nat) (Type_ : BufType) : Mil MIL_ID :=
  λ s, let id := fresh_id s in
       Some (id, set_bufs (insert id (alloc_buf Type_ SizeX SizeY)) s).

Definition MbufAlloc1d (MilSystem : MIL_ID) (SizeX : nat) (Type_ : BufType) : Mil MIL_ID :=
  MbufAlloc2d MilSystem SizeX 1 Type_.

Definition MbufFree (id : MIL_ID) : Mil unit :=
  modify (set_bufs (delete id)).

Definition MbufClear (id : MIL_ID) (Color : MIL_DOUBLE) : Mil unit :=
  modify (set_bufs (λ h,
    match h !! id with
    | Some b => <[id := {| buf_type := buf_type b;
                           buf_rows := map (map (λ _, store_const (buf_type b) Color)) (buf_rows b) |}]> h
    | None => h
    end)).

(** MbufChild2d.  The child is modelled with pixels of its own, copied from
    the parent's window: a write to the child is not seen through the parent,
    which this development never reads again. *)
Definition MbufChild2d (Parent : MIL_ID) (OffX OffY SizeX SizeY : nat) : Mil MIL_ID :=
  λ s, match bufs s !! Parent with
       | Some b =>
           let id := fresh_id s in
           let rows := map (λ r, take SizeX (drop OffX r)) (take SizeY (drop OffY (buf_rows b))) in
           Some (id, set_bufs (insert id {| buf_type := buf_type b; buf_rows := rows |}) s)
       | None => Some (M_NULL, s)
       end.

Inductive ArithOp := M_NOT_EQUAL_CONST | M_MULT_CONST | M_ADD_CONST | M_CONST_SUB.
Inductive ProcFlag := M_DEFAULT_PROC | M_FLOAT_PROC.

(** An operand of MimArith: an image buffer or a constant. *)
Inductive Operand :=
| Img (id : MIL_ID)
| Const (c : MIL_DOUBLE).

(** Modelled from the spec: MimArith is a function of the MIL library, of
    which the repository holds no source.  This is one pixel of it, for the
    image pixel [p], the constant [c] and a destination of type [t]: the
    product, the sum, the constant minus the pixel, or the comparison, which
    gives the largest value of the destination where it holds and 0 elsewhere.
    Integer buffers without M_FLOAT_PROC are processed in integers, and the
    result wraps around in the destination. *)
Definition arith_px (op : ArithOp * ProcFlag) (t : BufType) (p : Pixel) (c : MIL_DOUBLE) : Pixel :=
  match op.1 with
  | M_NOT_EQUAL_CONST =>
      if decide (pixel_val p ≠ c) then max_px t else zero_px t
  | M_MULT_CONST =>
      match op.2, t, p with
      | M_DEFAULT_PROC, (U8 | U16), PInt n => PInt (wrap t (n * D_to_Z c))
      | _, _, _ => store_result t (F_mult (pixel_val p) c)
      end
  | M_ADD_CONST =>
      match op.2, t, p with
      | M_DEFAULT_PROC, (U8 | U16), PInt n => PInt (wrap t (n + D_to_Z c))
      | _, _, _ => store_result t (F_add (pixel_val p) c)
      end
  | M_CONST_SUB =>
      match op.2, t, p with
      | M_DEFAULT_PROC, (U8 | U16), PInt n => PInt (wrap t (D_to_Z c - n))
      | _, _, _ => store_result t (F_sub c (pixel_val p))
      end
  end.

(** The image and the constant among the two operands: the constant comes
    first for M_CONST_SUB and second for the other operations. *)
Definition arith_operands (Src1 Src2 : Operand) (op : ArithOp) : option (MIL_ID * MIL_DOUBLE) :=
  match op, Src1, Src2 with
  | M_CONST_SUB, Const c, Img i => Some (i, c)
  | (M_NOT_EQUAL_CONST | M_MULT_CONST | M_ADD_CONST), Img i, Const c => Some (i, c)
  | _, _, _ => None
  end.

Definition arith_buf (op : ArithOp * ProcFlag) (c : MIL_DOUBLE) (src dst : MilBuf) : MilBuf :=
  {| buf_type := buf_type dst;
     buf_rows := zip_over (zip_over (λ p _, arith_px op (buf_type dst) p c))
                          (buf_rows src) (buf_rows dst) |}.

Definition MimArith (Src1 Src2 : Operand) (Dst : MIL_ID) (Operation : ArithOp * ProcFlag) : Mil unit :=
  modify (set_bufs (λ h,
    match arith_operands Src1 Src2 Operation.1 with
    | Some (i, c) =>
        match h !! i, h !! Dst with
        | Some src, Some dst => <[Dst := arith_buf Operation c src dst]> h
        | _, _ => h
        end
    | None => h
    end)).

(** Modelled from the spec: MbufClearCond is a function of the MIL library.
    MbufClearCond(Buf, Value, 0, 0, CondBuf, M_EQUAL, 0) sets to [Value] the
    pixels of [Buf] whose pixel in [CondBuf] equals 0 and leaves the others. *)
Definition clear_cond_buf (Value : MIL_DOUBLE) (cond img : MilBuf) : MilBuf :=
  {| buf_type := buf_type img;
     buf_rows := zip_over (zip_over (λ m p,
                   if decide (pixel_val m = D_of_Z 0) then store_const (buf_type img) Value else p))
                   (buf_rows cond) (buf_rows img) |}.

Definition MbufClearCond_EQUAL_0 (Buf : MIL_ID) (Value : MIL_DOUBLE) (CondBuf : MIL_ID) : Mil unit :=
  modify (set_bufs (λ h,
    match h !! CondBuf, h !! Buf with
    | Some cond, Some img => <[Buf := clear_cond_buf Value cond img]> h
    | _, _ => h
    end)).

(** Modelled from the spec: MbufInquire(Buf, M_MAX, &Value), of the MIL
    library, gives the largest value the pixels of the buffer can hold; the
    variable keeps its (indeterminate, here 0) value when the identifier is
    invalid. *)
Definition MbufInquire_MAX (Buf : MIL_ID) : Mil MIL_DOUBLE :=
  λ s, match bufs s !! Buf with
       | Some b => Some (type_max (buf_type b), s)
       | None => Some (D_of_Z 0, s)
       end.

(** Cuts [l] into rows of the lengths of [rows]. *)
Fixpoint unconcat {A} (rows : list (list A)) (l : list A) : list (list A) :=
  match rows with
  | [] => []
  | r :: rows' => take (length r) l :: unconcat rows' (drop (length r) l)
  end.

(** Modelled from the spec: MbufGet and MbufInquire are functions of the MIL
    library.  MbufGet(Src, (void* )MbufInquire(Dst, M_HOST_ADDRESS, M_NULL))
    writes the pixels of [Src], row after row, at the start of the host memory
    of [Dst].  An invalid [Src] is a MIL error; a [Dst] that is too small,
    absent or of another pixel size is outside C++'s defined behaviour. *)
Definition MbufGet_to_host (Src Dst : MIL_ID) : Mil unit :=
  λ s, match bufs s !! Src with
       | None => Some (tt, s)
       | Some src =>
           match bufs s !! Dst with
           | None => None
           | Some dst =>
               let data := concat (buf_rows src) in
               let mem := concat (buf_rows dst) in
               if decide (buf_type src = buf_type dst ∧ length data ≤ length mem) then
                 let dst' := {| buf_type := buf_type dst;
                                buf_rows := unconcat (buf_rows dst) (data ++ drop (length data) mem) |} in
                 Some (tt, set_bufs (insert Dst dst') s)
               else None
           end
       end.

(** Reading [n] MIL_FLOAT through the host address of a buffer. *)
Definition host_floats (id : MIL_ID) (n : nat) : Mil (list MIL_DOUBLE) :=
  λ s, match bufs s !! id with
       | Some b =>
           let mem := concat (buf_rows b) in
           if decide (buf_type b = F32 ∧ n ≤ length mem)
           then Some (pixel_val <$> take n mem, s)
           else None
       | None => None
       end.

(** The points of three arrays of coordinates. *)
Definition zip3 (X Y Z : list MIL_DOUBLE) : list Point3 :=
  zip (zip X Y) Z.

(** Modelled from the spec: M3dmapPut is a function of the MIL library, of
    which the repository holds no source.  The spec describes the container
    as append-only: M3dmapPut(Container, M_POINT_CLOUD_LABEL(Label),
    M_POSITION, M_FLOAT + 32, NbPoints, X, Y, Z, M_NULL, M_DEFAULT) appends its
    NbPoints samples as one labelled batch, and the points of the frames
    before remain. *)
Definition M3dmapPut (Container : MIL_ID) (Label : Z) (NbPoints : nat)
    (X Y Z : list MIL_DOUBLE) : Mil unit :=
  modify (set_clouds (λ c,
    match c !! Container with
    | Some pts => <[Container := pts ++ ((λ p, (Label, p)) <$> zip3 (take NbPoints X) (take NbPoints Y) (take NbPoints Z))]> c
    | None => c
    end)).

Definition M3dmapAllocResult (MilSystem : MIL_ID) : Mil MIL_ID :=
  λ s, let id := fresh_id s in
       Some (id, set_clouds (insert id []) s).

(** M3dmapExtract(Container, DepthMap, M_NULL, M_CORRECTED_DEPTH_MAP, M_ALL,
    M_DEFAULT).  Which depth a raster cell gets from the points is MIL's
    business: [depth_at] stands for it. *)
Variable depth_at : list (Z * Point3) → nat → nat → Z.

Definition M3dmapExtract (Container DepthMap : MIL_ID) : Mil unit :=
  λ s, match clouds s !! Container, bufs s !! DepthMap with
       | Some pts, Some b =>
           let rows := imap (λ y r, imap (λ x _, PInt (wrap (buf_type b) (depth_at pts x y))) r)
                            (buf_rows b) in
           Some (tt, set_bufs (insert DepthMap {| buf_type := buf_type b; buf_rows := rows |}) s)
       | _, _ => Some (tt, s)
       end.

(** ** DataConversion.h *)

Record SPData := {
  MilX : MIL_ID;
  MilZ : MIL_ID;
  MilValidMask : MIL_ID
}.

Record SPCal := {
  WorldX : MIL_DOUBLE;
  WorldZ : MIL_DOUBLE;
  GrayLevelSX : MIL_DOUBLE;
  GrayLevelSZ : MIL_DOUBLE
}.

Definition with_MilValidMask (d : SPData) (m : MIL_ID) : SPData :=
  {| MilX := MilX d; MilZ := MilZ d; MilValidMask := m |}.

(** The classes derived from CDataConversionOp; ConvertOp is pure virtual in
    the base, so any other operation on the data is a derived class too. *)
Inductive CDataConversionOp :=
| CDataConversionFlipXVal
| CDataConversionFlipZVal
| CDataConversionApplyInvalid
| DerivedOp (ConvertOp : SPData → Mil unit).

(** A conversion object: the members of its class and [m_pPrevConv]. *)
Inductive CDataConversion :=
| CDataConversionAddMask (m_pPrevConv : option CDataConversion)
    (m_MilValidMask : MIL_ID) (m_InvalidValue : MIL_DOUBLE)
| CDataConversionToWorld (m_pPrevConv : option CDataConversion)
    (m_ConvertedData : SPData) (m_PCal : SPCal)
| CDataConversionToFlat (m_pPrevConv : option CDataConversion)
    (m_ConvertedData : SPData)
| CDataConversionOp_ (m_pPrevConv : option CDataConversion) (op : CDataConversionOp).

Definition m_pPrevConv (c : CDataConversion) : option CDataConversion :=
  match c with
  | CDataConversionAddMask p _ _ | CDataConversionToWorld p _ _
  | CDataConversionToFlat p _ | CDataConversionOp_ p _ => p
  end.

(** CDataConversionApplyInvalid::ApplyInvalidMask *)
Definition ApplyInvalidMask (MilImage MilMask : MIL_ID) : Mil unit :=
  let* InvalidValue := MbufInquire_MAX MilImage in
  MbufClearCond_EQUAL_0 MilImage InvalidValue MilMask.

(** The ConvertOp of each class. *)
Definition ConvertOp (op : CDataConversionOp) (Data : SPData) : Mil unit :=
  match op with
  | CDataConversionFlipXVal =>
      MimArith (Const (D_of_Z 65535)) (Img (MilX Data)) (MilX Data) (M_CONST_SUB, M_DEFAULT_PROC)
  | CDataConversionFlipZVal =>
      MimArith (Const (D_of_Z 65535)) (Img (MilZ Data)) (MilZ Data) (M_CONST_SUB, M_DEFAULT_PROC)
  | CDataConversionApplyInvalid =>
      let* _ := ApplyInvalidMask (MilX Data) (MilValidMask Data) in
      ApplyInvalidMask (MilZ Data) (MilValidMask Data)
  | DerivedOp f => f Data
  end.

(** CDataConversion::ConvertPrev, over the Convert it dispatches to. *)
Definition ConvertPrev_
    (Convert : CDataConversion → SPData → Mil (CDataConversion * SPData))
    (m_pPrevConv : option CDataConversion) (Data : SPData)
    : Mil (option CDataConversion * SPData) :=
  match m_pPrevConv with
  | Some prev => let* (prev', d) := Convert prev Data in ret (Some prev', d)
  | None => ret (None, Data)
  end.

(** The Convert of each class.  A call returns the object after the call
    (CDataConversionToWorld assigns a member) with the converted data. *)
Fixpoint Convert (self : CDataConversion) (Data : SPData) : Mil (CDataConversion * SPData) :=
  match self with
  | CDataConversionAddMask prev m_MilValidMask m_InvalidValue =>
      let* (prev', ConvertedData) := ConvertPrev_ Convert prev Data in
      let* _ := MimArith (Img (MilZ ConvertedData)) (Const m_InvalidValue) m_MilValidMask
                         (M_NOT_EQUAL_CONST, M_DEFAULT_PROC) in
      let ConvertedData := with_MilValidMask ConvertedData m_MilValidMask in
      ret (CDataConversionAddMask prev' m_MilValidMask m_InvalidValue, ConvertedData)
  | CDataConversionToWorld prev m_ConvertedData m_PCal =>
      let* (prev', ConvertedData) := ConvertPrev_ Convert prev Data in
      let* _ := MimArith (Img (MilX ConvertedData)) (Const (GrayLevelSX m_PCal))
                         (MilX m_ConvertedData) (M_MULT_CONST, M_FLOAT_PROC) in
      let* _ := MimArith (Img (MilX m_ConvertedData)) (Const (WorldX m_PCal))
                         (MilX m_ConvertedData) (M_ADD_CONST, M_FLOAT_PROC) in
      let* _ := MimArith (Img (MilZ ConvertedData)) (Const (GrayLevelSZ m_PCal))
                         (MilZ m_ConvertedData) (M_MULT_CONST, M_FLOAT_PROC) in
      let* _ := MimArith (Img (MilZ m_ConvertedData)) (Const (WorldZ m_PCal))
                         (MilZ m_ConvertedData) (M_ADD_CONST, M_FLOAT_PROC) in
      let m_ConvertedData := with_MilValidMask m_ConvertedData (MilValidMask ConvertedData) in
      ret (CDataConversionToWorld prev' m_ConvertedData m_PCal, m_ConvertedData)
  | CDataConversionToFlat prev m_ConvertedData =>
      let* (prev', ConvertedData) := ConvertPrev_ Convert prev Data in
      let* _ := MbufGet_to_host (MilX ConvertedData) (MilX m_ConvertedData) in
      let* _ := MbufGet_to_host (MilZ ConvertedData) (MilZ m_ConvertedData) in
      let* _ := MbufGet_to_host (MilValidMask ConvertedData) (MilValidMask m_ConvertedData) in
      ret (CDataConversionToFlat prev' m_ConvertedData, m_ConvertedData)
  | CDataConversionOp_ prev op =>
      let* (prev', ConvertedData) := ConvertPrev_ Convert prev Data in
      let* _ := ConvertOp op ConvertedData in
      ret (CDataConversionOp_ prev' op, ConvertedData)
  end.

Definition ConvertPrev := ConvertPrev_ Convert.

(** The constructors that allocate. *)
Definition new_CDataConversionAddMask (pPrevConv : option CDataConversion) (MilSystem : MIL_ID)
    (ProfileSize NbProfiles : nat) (InvalidValue : MIL_DOUBLE) : Mil CDataConversion :=
  let* m_MilValidMask := MbufAlloc2d MilSystem ProfileSize NbProfiles U8 in
  ret (CDataConversionAddMask pPrevConv m_MilValidMask InvalidValue).

Definition new_CDataConversionToWorld (pPrevConv : option CDataConversion) (MilSystem : MIL_ID)
    (ProfileSize NbProfiles : nat) (PCal : SPCal) : Mil CDataConversion :=
  let* x := MbufAlloc2d MilSystem ProfileSize NbProfiles F32 in
  let* z := MbufAlloc2d MilSystem ProfileSize NbProfiles F32 in
  ret (CDataConversionToWorld pPrevConv {| MilX := x; MilZ := z; MilValidMask := M_NULL |} PCal).

Definition new_CDataConversionToFlat (pPrevConv : option CDataConversion) (MilSystem : MIL_ID)
    (ProfileSize NbProfiles : nat) (Type_ : BufType) : Mil CDataConversion :=
  let* x := MbufAlloc1d MilSystem (ProfileSize * NbProfiles) Type_ in
  let* z := MbufAlloc1d MilSystem (ProfileSize * NbProfiles) Type_ in
  let* m := MbufAlloc1d MilSystem (ProfileSize * NbProfiles) U8 in
  ret (CDataConversionToFlat pPrevConv {| MilX := x; MilZ := z; MilValidMask := m |}).

(** ** ProfileProcess.h, ProfileProcess.cpp *)

Record SPRange := {
  MinX : MIL_DOUBLE;
  MinZ : MIL_DOUBLE;
  MaxX : MIL_DOUBLE;
  MaxZ : MIL_DOUBLE
}.

(** CProfileProcess, the base class. *)
Record CProfileProcess := {
  m_NbPoints : nat;
  m_PCal : SPCal;
  m_pProcessProfileDataConversion : option CDataConversion
}.

Definition new_CProfileProcess (PCal : SPCal) (NbPoints : nat) : CProfileProcess :=
  {| m_NbPoints := NbPoints; m_PCal := PCal; m_pProcessProfileDataConversion := None |}.

(** CProfile3dPointsProcess::CProfile3dPointsProcess *)
Definition new_CProfile3dPointsProcess (MilSystem : MIL_ID) (PCal : SPCal)
    (ProfileSize NbProfiles : nat) : Mil CProfileProcess :=
  let base := new_CProfileProcess PCal (ProfileSize * NbProfiles) in
  let m := m_pProcessProfileDataConversion base in
  let* c := new_CDataConversionToWorld m MilSystem ProfileSize NbProfiles PCal in
  let m := Some c in
  let* c := new_CDataConversionToFlat m MilSystem ProfileSize NbProfiles F32 in
  let m := Some c in
  let m := Some (CDataConversionOp_ m CDataConversionApplyInvalid) in
  ret {| m_NbPoints := m_NbPoints base; m_PCal := m_PCal base;
         m_pProcessProfileDataConversion := m |}.

(** CProfileDepthMapProcess.  The display, its LUT and the Direct3D window
    are left out. *)
Record CProfileDepthMapProcess := {
  base : CProfileProcess;
  m_MilPointCloudContainer : MIL_ID;
  m_MilDepthMap : MIL_ID;
  m_ConvertedY : list MIL_DOUBLE;
  m_NbFramesProcessed : Z
}.

(** The two loops of the constructor that create the Y coordinate data. *)
Definition fill_profile (CurY : MIL_DOUBLE) (y ProfileSize : nat)
    (ConvertedY : list MIL_DOUBLE) : list MIL_DOUBLE :=
  foldl (λ v x, <[x + y * ProfileSize := F_cast CurY]> v) ConvertedY (seq 0 ProfileSize).

Definition create_Y (WorldPosY ConveyorSpeed : MIL_DOUBLE) (ProfileSize NbProfiles : nat)
    (ConvertedY : list MIL_DOUBLE) : list MIL_DOUBLE :=
  foldl (λ v y,
           let CurY := D_add WorldPosY (D_mult (D_of_Z (Z.of_nat y)) ConveyorSpeed) in
           fill_profile CurY y ProfileSize v)
        ConvertedY (seq 0 NbProfiles).

(** CProfileDepthMapProcess::CProfileDepthMapProcess.  The calibration of the
    depth map (McalUniform, McalControl), the extraction box and the display
    are parameters of MIL's extraction and drawing; they are part of
    [depth_at] here. *)
Definition new_CProfileDepthMapProcess (MilSystem : MIL_ID) (ConvPCal : SPCal)
    (DataRange : SPRange) (WorldPosY ConveyorSpeed : MIL_DOUBLE)
    (ProfileSize NbProfiles : nat) : Mil CProfileDepthMapProcess :=
  let* base := new_CProfile3dPointsProcess MilSystem ConvPCal ProfileSize NbProfiles in
  let m_ConvertedY := replicate (m_NbPoints base) (D_of_Z 0) in
  let m_ConvertedY := create_Y WorldPosY ConveyorSpeed ProfileSize NbProfiles m_ConvertedY in
  let* m_MilPointCloudContainer := M3dmapAllocResult MilSystem in
  let* m_MilDepthMap := MbufAlloc2d MilSystem ProfileSize NbProfiles U16 in
  let* _ := MbufClear m_MilDepthMap (D_of_Z 65535) in
  ret {| base := base;
         m_MilPointCloudContainer := m_MilPointCloudContainer;
         m_MilDepthMap := m_MilDepthMap;
         m_ConvertedY := m_ConvertedY;
         m_NbFramesProcessed := 0 |}.

(** CProfileDepthMapProcess::Process *)
Definition Process (self : CProfileDepthMapProcess) (Data : SPData) : Mil CProfileDepthMapProcess :=
  match m_pProcessProfileDataConversion (base self) with
  | None => undefined
  | Some conv =>
      let* (conv', ConvertedData) := Convert conv Data in
      let* pConvertedX := host_floats (MilX ConvertedData) (m_NbPoints (base self)) in
      let* pConvertedZ := host_floats (MilZ ConvertedData) (m_NbPoints (base self)) in
      let* _ := M3dmapPut (m_MilPointCloudContainer self) 1 (m_NbPoints (base self))
                          pConvertedX (m_ConvertedY self) pConvertedZ in
      let* _ := M3dmapExtract (m_MilPointCloudContainer self) (m_MilDepthMap self) in
      ret {| base := {| m_NbPoints := m_NbPoints (base self); m_PCal := m_PCal (base self);
                        m_pProcessProfileDataConversion := Some conv' |};
             m_MilPointCloudContainer := m_MilPointCloudContainer self;
             m_MilDepthMap := m_MilDepthMap self;
             m_ConvertedY := m_ConvertedY self;
             m_NbFramesProcessed := m_NbFramesProcessed self + 1 |}
  end.

(** A sequence of calls to Process, one per frame, in order. *)
Fixpoint ProcessAll (self : CProfileDepthMapProcess) (frames : list SPData)
    : Mil CProfileDepthMapProcess :=
  match frames with
  | [] => ret self
  | Data :: frames' => let* self' := Process self Data in ProcessAll self' frames'
  end.

(** ** Micro-EpsilonToMIL.cpp *)

Definition INVALID_VALUE : MIL_DOUBLE := D_of_Z 0.

Definition ReleaseData (d : SPData) : Mil unit :=
  let* _ := (if decide (MilX d = M_NULL) then ret tt else MbufFree (MilX d)) in
  if decide (MilZ d = M_NULL) then ret tt else MbufFree (MilZ d).

(** CMicroEpsilonToMIL over the class [P] of its profile process. *)
Record CMicroEpsilonToMIL (P : Type) := {
  m_SizeX : nat;
  m_SizeY : nat;
  m_pDataConversion : option CDataConversion;
  m_pProfileProcess : P
}.
Arguments m_SizeX {P}.
Arguments m_SizeY {P}.
Arguments m_pDataConversion {P}.
Arguments m_pProfileProcess {P}.

(** CMicroEpsilonToMIL::BuildDigitizerDataConversion; [FlipPosition] and
    [FlipDistance] are the two features inquired from the digitizer. *)
Definition BuildDigitizerDataConversion (MilSystem : MIL_ID) (SizeX SizeY : nat)
    (FlipPosition FlipDistance : bool) (m_pDataConversion : option CDataConversion)
    : Mil (option CDataConversion) :=
  let* c := new_CDataConversionAddMask m_pDataConversion MilSystem SizeX SizeY INVALID_VALUE in
  let m := Some c in
  let m := if FlipPosition then Some (CDataConversionOp_ m CDataConversionFlipXVal) else m in
  let m := if FlipDistance then Some (CDataConversionOp_ m CDataConversionFlipZVal) else m in
  ret m.

(** The conversion step of MilInterface:
    [m_pDataConversion ? m_pDataConversion->Convert(Data) : Data]. *)
Definition MilInterface_Convert (m_pDataConversion : option CDataConversion) (Data : SPData)
    : Mil (option CDataConversion * SPData) :=
  match m_pDataConversion with
  | Some conv => let* (conv', d) := Convert conv Data in ret (Some conv', d)
  | None => ret (None, Data)
  end.

(** CMicroEpsilonToMIL::MilInterface, for the grab buffer of the hook event
    and the virtual Process of the profile process. *)
Definition MilInterface {P} (Process_ : P → SPData → Mil P) (self : CMicroEpsilonToMIL P)
    (MilGrabBuffer : MIL_ID) : Mil (CMicroEpsilonToMIL P * Z) :=
  let* z := MbufChild2d MilGrabBuffer 0 0 (m_SizeX self) (m_SizeY self) in
  let* x := MbufChild2d MilGrabBuffer (m_SizeX self) 0 (m_SizeX self) (m_SizeY self) in
  let Data := {| MilX := x; MilZ := z; MilValidMask := M_NULL |} in
  let* (conv', ConvertedData) := MilInterface_Convert (m_pDataConversion self) Data in
  let* proc' := Process_ (m_pProfileProcess self) ConvertedData in
  let* _ := ReleaseData Data in
  ret ({| m_SizeX := m_SizeX self; m_SizeY := m_SizeY self;
          m_pDataConversion := conv'; m_pProfileProcess := proc' |}, 0%Z).

(** ** Notions used to state the properties *)


(** The buffer behind an identifier, and one of its pixels. *)
Definition buf_at (s : MilState) (id : MIL_ID) : option MilBuf := bufs s !! id.
Definition pix_at (s : MilState) (id : MIL_ID) (x y : nat) : option Pixel :=
  bufs s !! id ≫= λ b, pix b x y.

(** Type and row lengths of the buffer behind an identifier. *)
Definition sig (s : MilState) (id : MIL_ID) : option (BufType * list nat) :=
  shape <$> bufs s !! id.

Definition same_shapes (s s' : MilState) : Prop :=
  ∀ id, sig s' id = sig s id.

(** A mask pixel is "valid" when it is not 0 (MbufClearCond clears where it
    equals 0). *)
Definition mask_true (m : Pixel) : Prop := pixel_val m ≠ D_of_Z 0.

(** A pixel of the sensor's raw 16-bit encoding. *)
Definition is_u16 (p : Pixel) : Prop :=
  match p with
  | PInt v => (0 ≤ v ≤ 65535)%Z
  | PFlt _ => False
  end.

Definition raw_u16 (b : MilBuf) : Prop :=
  buf_type b = U16 ∧ Forall (Forall is_u16) (buf_rows b).

(** What a flip stage leaves in a buffer [b]. *)
Definition flip_buf (b : MilBuf) : MilBuf :=
  arith_buf (M_CONST_SUB, M_DEFAULT_PROC) (D_of_Z 65535) b b.

(** The validity mask of a frame can be flattened into [n] bytes: it is
    absent, or 8-bit with at most [n] pixels. *)
Definition mask_fits (n : nat) (s : MilState) (Data : SPData) : Prop :=
  match sig s (MilValidMask Data) with
  | None => True
  | Some (t, l) => t = U8 ∧ sum_list l ≤ n
  end.

(** A depth-map process whose conversion chain is the one its constructor
    builds (calibration, then flatten, then invalid masking), over buffers of
    the sizes the constructor allocates, with its container allocated. *)
Definition depth_map_process_ok (ProfileSize NbProfiles : nat) (s : MilState)
    (p : CProfileDepthMapProcess) : Prop :=
  ∃ w f cal,
    m_pProcessProfileDataConversion (base p) =
      Some (CDataConversionOp_
              (Some (CDataConversionToFlat (Some (CDataConversionToWorld None w cal)) f))
              CDataConversionApplyInvalid) ∧
    m_NbPoints (base p) = ProfileSize * NbProfiles ∧
    length (m_ConvertedY p) = ProfileSize * NbProfiles ∧
    sig s (MilX w) = Some (F32, replicate NbProfiles ProfileSize) ∧
    sig s (MilZ w) = Some (F32, replicate NbProfiles ProfileSize) ∧
    sig s (MilX f) = Some (F32, [ProfileSize * NbProfiles]) ∧
    sig s (MilZ f) = Some (F32, [ProfileSize * NbProfiles]) ∧
    sig s (MilValidMask f) = Some (U8, [ProfileSize * NbProfiles]) ∧
    is_Some (clouds s !! m_MilPointCloudContainer p).

(** The world Y of profile [y]. *)
Definition worldY (WorldPosY ConveyorSpeed : MIL_DOUBLE) (y : nat) : MIL_DOUBLE :=
  F_cast (D_add WorldPosY (D_mult (D_of_Z (Z.of_nat y)) ConveyorSpeed)).

End Model.

Arguments m_SizeX {FP P} _.
Arguments m_SizeY {FP P} _.
Arguments m_pDataConversion {FP P} _.
Arguments m_pProfileProcess {FP P} _.

Notation "'let*' x ':=' c1 'in' c2" := (bindM c1 (λ x, c2))
  (at level 10, x pattern, c1 at level 100, c2 at level 200).

(** ** Destructors *)

Section Teardown.
Context `{FP : FloatProc}.

(** SPData::ReleaseMask *)
Definition ReleaseMask (d : SPData) : Mil unit :=
  if decide (MilValidMask d = M_NULL) then ret tt else MbufFree (MilValidMask d).

(** M3dmapFree *)
Definition M3dmapFree (id : MIL_ID) : Mil unit :=
  modify (set_clouds (delete id)).

(** The destructor of each conversion class: the body of the class, then
    that of CDataConversionData where the class derives from it, then
    ~CDataConversion, which deletes the predecessor.  The classes derived from
    CDataConversionOp have no destructor of their own. *)
Fixpoint delete_CDataConversion (self : CDataConversion) : Mil unit :=
  match self with
  | CDataConversionAddMask prev m_MilValidMask _ =>
      let* _ := MbufFree m_MilValidMask in
      match prev with Some p => delete_CDataConversion p | None => ret tt end
  | CDataConversionToWorld prev m_ConvertedData _ =>
      let* _ := ReleaseData m_ConvertedData in
      match prev with Some p => delete_CDataConversion p | None => ret tt end
  | CDataConversionToFlat prev m_ConvertedData =>
      let* _ := ReleaseMask m_ConvertedData in
      let* _ := ReleaseData m_ConvertedData in
      match prev with Some p => delete_CDataConversion p | None => ret tt end
  | CDataConversionOp_ prev _ =>
      match prev with Some p => delete_CDataConversion p | None => ret tt end
  end.

(** CProfileProcess::~CProfileProcess *)
Definition delete_CProfileProcess (self : CProfileProcess) : Mil unit :=
  match m_pProcessProfileDataConversion self with
  | Some conv => delete_CDataConversion conv
  | None => ret tt
  end.

(** CProfileDepthMapProcess::~CProfileDepthMapProcess (the LUT and the
    display are left out, as in the constructor), then the destructor of the
    base class. *)
Definition delete_CProfileDepthMapProcess (self : CProfileDepthMapProcess) : Mil unit :=
  let* _ := MbufFree (m_MilDepthMap self) in
  let* _ := M3dmapFree (m_MilPointCloudContainer self) in
  delete_CProfileProcess (base self).

(** CMicroEpsilonToMIL::~CMicroEpsilonToMIL *)
Definition delete_CMicroEpsilonToMIL {P} (self : CMicroEpsilonToMIL P) : Mil unit :=
  match m_pDataConversion self with
  | Some conv => delete_CDataConversion conv
  | None => ret tt
  end.

(** ** Notions used to state the properties of whole chains *)

(** A chain of the classes of the repository. *)
Definition builtin_op (op : CDataConversionOp) : Prop :=
  match op with
  | DerivedOp _ => False
  | _ => True
  end.

Fixpoint builtin (c : CDataConversion) : Prop :=
  match c with
  | CDataConversionAddMask prev _ _ | CDataConversionToWorld prev _ _
  | CDataConversionToFlat prev _ =>
      match prev with Some p => builtin p | None => True end
  | CDataConversionOp_ prev op =>
      builtin_op op ∧ match prev with Some p => builtin p | None => True end
  end.

(** A chain without a CDataConversionToFlat stage. *)
Fixpoint flat_free (c : CDataConversion) : Prop :=
  match c with
  | CDataConversionAddMask prev _ _ | CDataConversionToWorld prev _ _
  | CDataConversionOp_ prev _ =>
      match prev with Some p => flat_free p | None => True end
  | CDataConversionToFlat _ _ => False
  end.

(** The buffers the stages of a chain allocated, head first. *)
Fixpoint owned (c : CDataConversion) : list MIL_ID :=
  match c with
  | CDataConversionAddMask prev m _ =>
      m :: match prev with Some p => owned p | None => [] end
  | CDataConversionToWorld prev d _ =>
      MilX d :: MilZ d :: match prev with Some p => owned p | None => [] end
  | CDataConversionToFlat prev d =>
      MilX d :: MilZ d :: MilValidMask d :: match prev with Some p => owned p | None => [] end
  | CDataConversionOp_ prev _ =>
      match prev with Some p => owned p | None => [] end
  end.

(** The number of stages of a chain. *)
Fixpoint stages (c : CDataConversion) : nat :=
  match c with
  | CDataConversionAddMask prev _ _ | CDataConversionToWorld prev _ _
  | CDataConversionToFlat prev _ | CDataConversionOp_ prev _ =>
      S (match prev with Some p => stages p | None => 0 end)
  end.

(** The identifiers Convert returns for the frame [Data], read off the
    chain alone. *)
Fixpoint out_data (c : CDataConversion) (Data : SPData) : SPData :=
  match c with
  | CDataConversionAddMask prev m _ =>
      with_MilValidMask (match prev with Some p => out_data p Data | None => Data end) m
  | CDataConversionToWorld prev d _ =>
      with_MilValidMask d
        (MilValidMask (match prev with Some p => out_data p Data | None => Data end))
  | CDataConversionToFlat prev d => d
  | CDataConversionOp_ prev _ =>
      match prev with Some p => out_data p Data | None => Data end
  end.

(** The chain after a call of Convert on [Data]: every
    CDataConversionToWorld has recorded the mask it was given. *)
Fixpoint after_Convert (c : CDataConversion) (Data : SPData) : CDataConversion :=
  match c with
  | CDataConversionAddMask prev m v =>
      CDataConversionAddMask
        (match prev with Some p => Some (after_Convert p Data) | None => None end) m v
  | CDataConversionToWorld prev d cal =>
      CDataConversionToWorld
        (match prev with Some p => Some (after_Convert p Data) | None => None end)
        (with_MilValidMask d
           (MilValidMask (match prev with Some p => out_data p Data | None => Data end)))
        cal
  | CDataConversionToFlat prev d =>
      CDataConversionToFlat
        (match prev with Some p => Some (after_Convert p Data) | None => None end) d
  | CDataConversionOp_ prev op =>
      CDataConversionOp_
        (match prev with Some p => Some (after_Convert p Data) | None => None end) op
  end.

(** The buffers the ConvertOp of a class writes. *)
Definition op_writes (op : CDataConversionOp) (d : SPData) : list MIL_ID :=
  match op with
  | CDataConversionFlipXVal => [MilX d]
  | CDataConversionFlipZVal => [MilZ d]
  | CDataConversionApplyInvalid => [MilX d; MilZ d]
  | DerivedOp _ => []
  end.

(** The buffers a call of Convert on [Data] writes. *)
Fixpoint footprint (c : CDataConversion) (Data : SPData) : list MIL_ID :=
  match c with
  | CDataConversionAddMask prev m _ =>
      m :: match prev with Some p => footprint p Data | None => [] end
  | CDataConversionToWorld prev d _ =>
      MilX d :: MilZ d :: match prev with Some p => footprint p Data | None => [] end
  | CDataConversionToFlat prev d =>
      MilX d :: MilZ d :: MilValidMask d ::
        match prev with Some p => footprint p Data | None => [] end
  | CDataConversionOp_ prev op =>
      op_writes op (match prev with Some p => out_data p Data | None => Data end) ++
        match prev with Some p => footprint p Data | None => [] end
  end.

(** From [s] to [s']: the type and the size of every buffer are kept (none
    is allocated or freed), and only buffers of [W] are written. *)
Definition writes_only (W : list MIL_ID) (s s' : MilState) : Prop :=
  (∀ id, sig s' id = sig s id) ∧
  (∀ id, id ∉ W → bufs s' !! id = bufs s !! id).

(** The chain the constructor of CProfile3dPointsProcess builds. *)
Definition profile_chain (w f : SPData) (cal : SPCal) : CDataConversion :=
  CDataConversionOp_
    (Some (CDataConversionToFlat (Some (CDataConversionToWorld None w cal)) f))
    CDataConversionApplyInvalid.

(** The buffers of a depth-map process: its depth map and those of its
    chain. *)
Definition resources (p : CProfileDepthMapProcess) : list MIL_ID :=
  m_MilDepthMap p ::
    match m_pProcessProfileDataConversion (base p) with
    | Some c => owned c
    | None => []
    end.

(** ApplyInvalidMask on the store: the buffer [img], where it and the mask
    exist, is replaced by its masked version. *)
Definition masked (m o : option MilBuf) : option MilBuf :=
  match o, m with
  | Some b, Some bm => Some (clear_cond_buf (type_max (buf_type b)) bm b)
  | _, _ => o
  end.

Definition mask_in (img mask : MIL_ID) (h : gmap MIL_ID MilBuf) : gmap MIL_ID MilBuf :=
  match h !! mask, h !! img with
  | Some cond, Some b => <[img := clear_cond_buf (type_max (buf_type b)) cond b]> h
  | _, _ => h
  end.

(** A flip on the store: the buffer [id], where it exists, is replaced by
    its flipped version. *)
Definition flip_in (id : MIL_ID) (h : gmap MIL_ID MilBuf) : gmap MIL_ID MilBuf :=
  match h !! id with
  | Some b => <[id := flip_buf b]> h
  | None => h
  end.

End Teardown.

Arguments delete_CMicroEpsilonToMIL {FP P} _.
(** ** The interface object and the acquisition *)

Section Interface.
Context `{FP : FloatProc}.

(** CMicroEpsilonToMIL::CMicroEpsilonToMIL.  The constructor leaves
    m_pProfileProcess without a value: the object carries none until
    BuildInterface. *)
Definition new_CMicroEpsilonToMIL (SizeX SizeY : nat) : CMicroEpsilonToMIL unit :=
  {| m_SizeX := SizeX; m_SizeY := SizeY; m_pDataConversion := None;
     m_pProfileProcess := tt |}.

(** CMicroEpsilonToMIL::BuildInterface; [MilSystem], [FlipPosition] and
    [FlipDistance] are what BuildDigitizerDataConversion inquires from the
    digitizer. *)
Definition BuildInterface {Q P} (self : CMicroEpsilonToMIL Q) (MilSystem : MIL_ID)
    (FlipPosition FlipDistance : bool) (pProfileProcess : P) : Mil (CMicroEpsilonToMIL P) :=
  let m_pProfileProcess := pProfileProcess in
  let* conv := BuildDigitizerDataConversion MilSystem (m_SizeX self) (m_SizeY self)
                 FlipPosition FlipDistance (m_pDataConversion self) in
  ret {| m_SizeX := m_SizeX self; m_SizeY := m_SizeY self;
         m_pDataConversion := conv; m_pProfileProcess := m_pProfileProcess |}.

(** CMicroEpsilonToMIL::MilInterfaceHook, with the grab buffer of the event. *)
Definition MilInterfaceHook {P} (Process_ : P → SPData → Mil P)
    (pUserData : CMicroEpsilonToMIL P) (MilGrabBuffer : MIL_ID)
    : Mil (CMicroEpsilonToMIL P * Z) :=
  MilInterface Process_ pUserData MilGrabBuffer.

(** Modelled from the spec: MdigProcess is a function of the MIL library.
    Between MdigProcess(M_START) and MdigProcess(M_STOP) the hook is called
    once per grabbed buffer, each call run to its end before the next. *)
Fixpoint MdigProcess {P} (Process_ : P → SPData → Mil P) (pUserData : CMicroEpsilonToMIL P)
    (grabbed : list MIL_ID) : Mil (CMicroEpsilonToMIL P) :=
  match grabbed with
  | [] => ret pUserData
  | MilGrabBuffer :: grabbed' =>
      let* (pUserData', _) := MilInterfaceHook Process_ pUserData MilGrabBuffer in
      MdigProcess Process_ pUserData' grabbed'
  end.

(** The chain BuildDigitizerDataConversion builds around the mask [m]. *)
Definition digitizer_chain (m : MIL_ID) (FlipPosition FlipDistance : bool) : CDataConversion :=
  let c := CDataConversionAddMask None m INVALID_VALUE in
  let c := if FlipPosition then CDataConversionOp_ (Some c) CDataConversionFlipXVal else c in
  if FlipDistance then CDataConversionOp_ (Some c) CDataConversionFlipZVal else c.

(** An interface object as BuildInterface leaves it, for a depth-map process
    of ProfileSize * NbProfiles points: the digitizer chain around the mask
    [m], of the size of the object, and the process as its constructor built
    it. *)
Definition interface_ok (ProfileSize NbProfiles : nat) (m : MIL_ID)
    (FlipPosition FlipDistance : bool) (s : MilState)
    (self : CMicroEpsilonToMIL CProfileDepthMapProcess) : Prop :=
  m_pDataConversion self = Some (digitizer_chain m FlipPosition FlipDistance) ∧
  sig s m = Some (U8, replicate (m_SizeY self) (m_SizeX self)) ∧
  m_SizeX self * m_SizeY self ≤ ProfileSize * NbProfiles ∧
  depth_map_process_ok ProfileSize NbProfiles s (m_pProfileProcess self).

End Interface.

Arguments BuildInterface {FP Q P} _ _ _ _ _.
Arguments MilInterfaceHook {FP P} _ _ _.
Arguments MdigProcess {FP P} _ _ _.
(** ** Micro-Epsilon_scanCONTROL_M10PP3.cpp: the checks before the acquisition *)

Definition NB_PROFILES_PER_GRAB : Z := 100.

Definition EXPECTED_DEVICE_VENDOR : string := "MICRO-EPSILON Optronic GmbH".
Definition EXPECTED_DEVICE_MODEL : list string := ["scanCONTROL 26"; "scanCONTROL 29"].
Definition NB_MODELS : nat := 2.

(** The valid ranges, in decreasing order. *)
Definition EXPECTED_RANGE : list string := ["100"; "50"; "25"; "10"].
Definition NB_RANGE : nat := 4.

(** MIL_STRING is std::string (or std::wstring). *)
Module MIL_STRING.

(** find(str): the position of the first occurrence of [str], [None] for
    npos. *)
Definition find (s str : string) : option nat := String.index 0 str s.

(** substr(pos): the end of the string from [pos]; it throws
    std::out_of_range, here [None], when [pos] is past the end. *)
Definition substr (s : string) (pos : nat) : option string :=
  if decide (pos ≤ String.length s)
  then Some (String.substring pos (String.length s - pos) s)
  else None.

Definition length (s : string) : nat := String.length s.

End MIL_STRING.

(** The inner loop of VerifyDeviceCompatibility, from index [m]: the value of
    *pCameraRangeIndex after it, [CameraRangeIndex] being the value before. *)
Fixpoint check_range (RangeName : string) (ranges : list string) (m : Z)
    (CameraRangeIndex : Z) : Z :=
  match ranges with
  | [] => CameraRangeIndex
  | range :: ranges' =>
      match MIL_STRING.find RangeName range with
      | Some _ => m
      | None => check_range RangeName ranges' (m + 1) CameraRangeIndex
      end
  end.

(** The outer loop of VerifyDeviceCompatibility: it stops at the first model
    found in the name. *)
Fixpoint check_model (DeviceModelName : string) (models : list string)
    (CameraRangeIndex : Z) : option Z :=
  match models with
  | [] => Some CameraRangeIndex
  | model :: models' =>
      match MIL_STRING.find DeviceModelName model with
      | Some pos =>
          let MaxRangeName := MIL_STRING.length (default "" (EXPECTED_RANGE !! 0)) in
          if decide (pos + MIL_STRING.length model + MaxRangeName ≤
                     MIL_STRING.length DeviceModelName)
          then
            RangeName ← MIL_STRING.substr DeviceModelName
                          (pos + MIL_STRING.length model + MaxRangeName);
            Some (check_range RangeName EXPECTED_RANGE 0 CameraRangeIndex)
          else Some CameraRangeIndex
      | None => check_model DeviceModelName models' CameraRangeIndex
      end
  end.

(** VerifyDeviceCompatibility, for the two names inquired from the digitizer:
    the result and *pCameraRangeIndex; [None] when an exception is thrown. *)
Definition VerifyDeviceCompatibility (DeviceVendorName DeviceModelName : string)
    : option (bool * Z) :=
  let CameraRangeIndex := (-1)%Z in
  CameraRangeIndex ←
    (if decide (DeviceVendorName = EXPECTED_DEVICE_VENDOR)
     then check_model DeviceModelName EXPECTED_DEVICE_MODEL CameraRangeIndex
     else Some CameraRangeIndex);
  Some (bool_decide (0 ≤ CameraRangeIndex)%Z, CameraRangeIndex).

(** ChooseProfileMode, on the keys MosGetch returns: the number of profiles
    and the keys left; [None] when the keys end before a choice is made (the
    loop waits for the next key). *)
Fixpoint ChooseProfileMode (keys : list ascii) : option (Z * list ascii) :=
  match keys with
  | [] => None
  | key :: keys' =>
      if decide (key = "a"%char ∨ key = "A"%char) then Some (1%Z, keys')
      else if decide (key = "b"%char ∨ key = "B"%char) then Some (NB_PROFILES_PER_GRAB, keys')
      else ChooseProfileMode keys'
  end.

(** ** Concrete data: frames of two profiles of two 16-bit samples, in exact
    arithmetic *)

Module Sample.
#[local] Existing Instance ExactQ.

Definition rawX : MilBuf :=
  {| buf_type := U16; buf_rows := [PInt <$> [0; 65535]%Z; PInt <$> [100; 200]%Z] |}.
Definition rawZ : MilBuf :=
  {| buf_type := U16; buf_rows := [PInt <$> [0; 65535]%Z; PInt <$> [50; 300]%Z] |}.

(** The mask of [rawZ] for the invalid value 0. *)
Definition maskZ : MilBuf :=
  {| buf_type := U8; buf_rows := [PInt <$> [0; 255]%Z; PInt <$> [255; 255]%Z] |}.

(** The two bands of a grabbed frame (buffers 10 and 11), a mask (12), two
    float images (13, 14) and three flat buffers (15, 16, 17). *)
Definition s1 : MilState :=
  {| bufs := <[10%Z := rawX]> (<[11%Z := rawZ]> (<[12%Z := maskZ]>
             (<[13%Z := alloc_buf F32 2 2]> (<[14%Z := alloc_buf F32 2 2]>
             (<[15%Z := alloc_buf F32 4 1]> (<[16%Z := alloc_buf F32 4 1]>
             (<[17%Z := alloc_buf U8 4 1]> ∅)))))));
     clouds := ∅ |}.

Definition frame : SPData := {| MilX := 10%Z; MilZ := 11%Z; MilValidMask := M_NULL |}.
Definition masked_frame : SPData := {| MilX := 10%Z; MilZ := 11%Z; MilValidMask := 12%Z |}.
Definition world_frame : SPData := {| MilX := 13%Z; MilZ := 14%Z; MilValidMask := 12%Z |}.

Definition world : SPData := {| MilX := 13%Z; MilZ := 14%Z; MilValidMask := M_NULL |}.
Definition flat : SPData := {| MilX := 15%Z; MilZ := 16%Z; MilValidMask := 17%Z |}.

(** Scale 0.005 and offsets -163.84 and 86.16. *)
Definition cal : SPCal :=
  {| WorldX := (-4096 # 25)%Q; WorldZ := (2154 # 25)%Q;
     GrayLevelSX := (1 # 200)%Q; GrayLevelSZ := (1 # 200)%Q |}.


Definition range : SPRange :=
  {| MinX := (-30 # 1)%Q; MinZ := (65 # 1)%Q; MaxX := (30 # 1)%Q; MaxZ := (125 # 1)%Q |}.

(** A depth for every cell: the number of points held. *)
Definition depth_count (pts : list (Z * Point3)) (x y : nat) : Z := Z.of_nat (length pts).

(** A stage that leaves its order tag in container 1. *)
Definition marker (tag : Z) : CDataConversionOp :=
  DerivedOp (λ _, M3dmapPut 1%Z tag 1 [0%Q] [0%Q] [0%Q]).

Definition tags (s : MilState) : option (list Z) :=
  (λ pts : list (Z * Point3), fst <$> pts) <$> clouds s !! 1%Z.

(** One profile of four samples, calibrated with scale 1 and offset 0, no
    flip: the digitizer chain, then the chain of a profile process. *)
Definition profile_state : MilState :=
  {| bufs := <[20%Z := {| buf_type := U16; buf_rows := [PInt <$> [0; 65535; 100; 200]%Z] |}]>
             (<[21%Z := {| buf_type := U16; buf_rows := [PInt <$> [0; 65535; 50; 300]%Z] |}]> ∅);
     clouds := ∅ |}.

Definition profile : SPData := {| MilX := 20%Z; MilZ := 21%Z; MilValidMask := M_NULL |}.

Definition identity_cal : SPCal :=
  {| WorldX := 0%Q; WorldZ := 0%Q; GrayLevelSX := 1%Q; GrayLevelSZ := 1%Q |}.

Definition pixels_of (s : MilState) (id : MIL_ID) : list Pixel :=
  from_option (λ b, concat (buf_rows b)) [] (bufs s !! id).

(** The flat X, Z and mask the two chains return, and the X of the
    calibration stage. *)
Definition end_to_end : option (list Pixel * list Pixel * list Pixel * list Pixel) :=
  (let* conv := BuildDigitizerDataConversion 0%Z 4 1 false false None in
   let* proc := new_CProfile3dPointsProcess 0%Z identity_cal 4 1 in
   let* (_, d) := MilInterface_Convert conv profile in
   match m_pProcessProfileDataConversion proc with
   | Some (CDataConversionOp_ (Some (CDataConversionToFlat
             (Some (CDataConversionToWorld _ w _)) _)) _ as chain) =>
       let* (_, out) := Convert chain d in
       λ s, Some ((pixels_of s (MilX out), pixels_of s (MilZ out),
                   pixels_of s (MilValidMask out), pixels_of s (MilX w)), s)
   | _ => undefined
   end) profile_state ≫= λ r, Some r.1.

End Sample.

(** ** Concrete data: a depth-map process and an interface object over the
    buffers of the sample store, and a grabbed frame *)

Module Scene.
#[local] Existing Instance ExactQ.






End Scene.

(** * Properties *)

Section Properties.
Context `{FP : FloatProc}.
Variable depth_at : list (Z * Point3) → nat → nat → Z.

Implicit Types (s : MilState) (Data : SPData) (id : MIL_ID) (b : MilBuf).

(** ** The chain of conversions *)

Lemma ConvertPrev_None Data s : ConvertPrev None Data s = Some ((None, Data), s).
Proof. reflexivity. Qed.

Lemma ConvertPrev_Some prev Data s :
  ConvertPrev (Some prev) Data s =
    (let* (prev', d) := Convert prev Data in ret (Some prev', d)) s.
Proof. reflexivity. Qed.



(** ** Pixels of the buffers MIL writes *)

Lemma length_zip_over {A B} (f : A → B → B) (src : list A) (dst : list B) :
  length (zip_over f src dst) = length dst.
Proof.
  revert dst. induction src as [|a src IH]; intros [|d dst]; simpl; auto.
Qed.

Lemma lookup_zip_over {A B} (f : A → B → B) (src : list A) (dst : list B) (i : nat) :
  zip_over f src dst !! i = (λ d, from_option (λ a, f a d) d (src !! i)) <$> dst !! i.
Proof.
  revert dst i. induction src as [|a src IH]; intros [|d dst] [|i]; simpl; auto.
  all: try (destruct (dst !! i); reflexivity).
Qed.

Lemma zip_over_diag {A} (g : A → A) (l : list A) :
  zip_over (λ a _, g a) l l = g <$> l.
Proof. induction l as [|a l IH]; simpl; [reflexivity|]. by rewrite IH. Qed.

Lemma lengths_zip_over2 {A B} (f : A → B → B) (S : list (list A)) (D : list (list B)) :
  length <$> zip_over (zip_over f) S D = length <$> D.
Proof.
  revert D. induction S as [|r S IH]; intros [|d D]; simpl; auto.
  by rewrite length_zip_over, IH.
Qed.

Lemma pix_zip_over2 {A B} (f : A → B → B) (S : list (list A)) (D : list (list B)) (x y : nat) :
  zip_over (zip_over f) S D !! y ≫= (λ r, r !! x) =
    (λ d, from_option (λ a, f a d) d (S !! y ≫= (λ r, r !! x))) <$> (D !! y ≫= (λ r, r !! x)).
Proof.
  rewrite lookup_zip_over. destruct (D !! y) as [d|]; simpl; [|reflexivity].
  destruct (S !! y) as [r|]; simpl; [apply lookup_zip_over|].
  destruct (d !! x); reflexivity.
Qed.

Lemma pix_arith_buf op c src dst x y :
  pix (arith_buf op c src dst) x y =
    (λ q, from_option (λ p, arith_px op (buf_type dst) p c) q (pix src x y)) <$> pix dst x y.
Proof. unfold pix, arith_buf. simpl. apply pix_zip_over2. Qed.

Lemma shape_arith_buf op c src dst : shape (arith_buf op c src dst) = shape dst.
Proof. unfold shape, arith_buf. simpl. by rewrite lengths_zip_over2. Qed.

Lemma pix_clear_cond_buf v cond img x y :
  pix (clear_cond_buf v cond img) x y =
    (λ p, from_option (λ m, if decide (pixel_val m = D_of_Z 0)
                            then store_const (buf_type img) v else p) p (pix cond x y))
      <$> pix img x y.
Proof. unfold pix, clear_cond_buf. simpl. apply pix_zip_over2. Qed.

Lemma shape_clear_cond_buf v cond img : shape (clear_cond_buf v cond img) = shape img.
Proof. unfold shape, clear_cond_buf. simpl. by rewrite lengths_zip_over2. Qed.

Lemma D_to_of_Z_small (z : Z) : (0 ≤ z ≤ 65535)%Z → D_to_Z (D_of_Z z) = z.
Proof. intros H. apply D_to_of_Z. lia. Qed.

Lemma store_const_type_max t : store_const t (type_max t) = max_px t.
Proof.
  destruct t; simpl.
  - by rewrite D_to_of_Z_small by lia.
  - by rewrite D_to_of_Z_small by lia.
  - by rewrite F_cast_FLT_MAX.
Qed.

(** ** MimArith on buffers that exist *)

Lemma MimArith_Img_Const op i c Dst src dst s :
  op.1 ≠ M_CONST_SUB →
  bufs s !! i = Some src → bufs s !! Dst = Some dst →
  MimArith (Img i) (Const c) Dst op s =
    Some (tt, set_bufs (insert Dst (arith_buf op c src dst)) s).
Proof.
  intros Hop Hi Hd. unfold MimArith, modify, set_bufs.
  destruct op as [[] fl]; simpl in *; try done; by rewrite Hi, Hd.
Qed.

Lemma MimArith_Const_Img fl i c Dst src dst s :
  bufs s !! i = Some src → bufs s !! Dst = Some dst →
  MimArith (Const c) (Img i) Dst (M_CONST_SUB, fl) s =
    Some (tt, set_bufs (insert Dst (arith_buf (M_CONST_SUB, fl) c src dst)) s).
Proof.
  intros Hi Hd. unfold MimArith, modify, set_bufs. simpl. by rewrite Hi, Hd.
Qed.

(** MimArith writes its destination and nothing else, and allocates
    nothing. *)
Lemma MimArith_frame Src1 Src2 Dst op s :
  ∃ s', MimArith Src1 Src2 Dst op s = Some (tt, s') ∧
        clouds s' = clouds s ∧
        (∀ id, id ≠ Dst → bufs s' !! id = bufs s !! id) ∧
        (∀ id, sig s' id = sig s id).
Proof.
  unfold MimArith, modify. eexists; split; [reflexivity|].
  unfold set_bufs, sig; simpl.
  destruct (arith_operands Src1 Src2 op.1) as [[i c]|]; [|done].
  destruct (bufs s !! i) as [src|] eqn:Hi; [|done].
  destruct (bufs s !! Dst) as [dst|] eqn:Hd; [|done].
  split; [done|]. split.
  - intros id Hne. by rewrite lookup_insert_ne.
  - intros id. destruct (decide (id = Dst)) as [->|Hne].
    + rewrite lookup_insert_eq, Hd. simpl. by rewrite shape_arith_buf.
    + by rewrite lookup_insert_ne.
Qed.

Lemma Convert_ToWorld prev own cal Data :
  Convert (CDataConversionToWorld prev own cal) Data =
    (let* (prev', ConvertedData) := ConvertPrev prev Data in
     let* _ := MimArith (Img (MilX ConvertedData)) (Const (GrayLevelSX cal))
                        (MilX own) (M_MULT_CONST, M_FLOAT_PROC) in
     let* _ := MimArith (Img (MilX own)) (Const (WorldX cal))
                        (MilX own) (M_ADD_CONST, M_FLOAT_PROC) in
     let* _ := MimArith (Img (MilZ ConvertedData)) (Const (GrayLevelSZ cal))
                        (MilZ own) (M_MULT_CONST, M_FLOAT_PROC) in
     let* _ := MimArith (Img (MilZ own)) (Const (WorldZ cal))
                        (MilZ own) (M_ADD_CONST, M_FLOAT_PROC) in
     let own' := with_MilValidMask own (MilValidMask ConvertedData) in
     ret (CDataConversionToWorld prev' own' cal, own')).
Proof. reflexivity. Qed.

(** Convert of the calibration stage writes the stage's two buffers only. *)
Lemma ToWorld_frame prev own cal Data s prev' up s1 :
  ConvertPrev prev Data s = Some ((prev', up), s1) →
  ∃ s2, Convert (CDataConversionToWorld prev own cal) Data s =
          Some ((CDataConversionToWorld prev' (with_MilValidMask own (MilValidMask up)) cal,
                 with_MilValidMask own (MilValidMask up)), s2) ∧
        clouds s2 = clouds s1 ∧
        (∀ id, id ≠ MilX own → id ≠ MilZ own → bufs s2 !! id = bufs s1 !! id) ∧
        (∀ id, sig s2 id = sig s1 id).
Proof.
  intros Hprev. rewrite Convert_ToWorld. unfold bindM at 1. rewrite Hprev.
  destruct (MimArith_frame (Img (MilX up)) (Const (GrayLevelSX cal)) (MilX own)
              (M_MULT_CONST, M_FLOAT_PROC) s1) as (sa & Ea & Ca & Fa & Sa).
  destruct (MimArith_frame (Img (MilX own)) (Const (WorldX cal)) (MilX own)
              (M_ADD_CONST, M_FLOAT_PROC) sa) as (sb & Eb & Cb & Fb & Sb).
  destruct (MimArith_frame (Img (MilZ up)) (Const (GrayLevelSZ cal)) (MilZ own)
              (M_MULT_CONST, M_FLOAT_PROC) sb) as (sc & Ec & Cc & Fc & Sc).
  destruct (MimArith_frame (Img (MilZ own)) (Const (WorldZ cal)) (MilZ own)
              (M_ADD_CONST, M_FLOAT_PROC) sc) as (sd & Ed & Cd & Fd & Sd).
  exists sd. unfold bindM. rewrite Ea, Eb, Ec, Ed. split; [reflexivity|].
  split; [congruence|]. split.
  - intros id HX HZ. rewrite Fd, Fc, Fb, Fa by done. done.
  - intros id. by rewrite Sd, Sc, Sb, Sa.
Qed.

(** ** Allocation *)

Lemma fresh_id_spec s :
  fresh_id s ≠ M_NULL ∧ bufs s !! fresh_id s = None ∧ clouds s !! fresh_id s = None.
Proof.
  pose proof (is_fresh ({[M_NULL]} ∪ dom (bufs s) ∪ dom (clouds s))) as Hf.
  fold (fresh_id s) in Hf. repeat split.
  - set_solver.
  - apply not_elem_of_dom. set_solver.
  - apply not_elem_of_dom. set_solver.
Qed.

Lemma MbufAlloc2d_spec sys SizeX SizeY t s :
  ∃ id, MbufAlloc2d sys SizeX SizeY t s =
          Some (id, set_bufs (insert id (alloc_buf t SizeX SizeY)) s) ∧
        id ≠ M_NULL ∧ bufs s !! id = None ∧ clouds s !! id = None.
Proof. exists (fresh_id s). split; [reflexivity|apply fresh_id_spec]. Qed.

Lemma shape_alloc_buf t SizeX SizeY : shape (alloc_buf t SizeX SizeY) = (t, replicate SizeY SizeX).
Proof.
  unfold shape, alloc_buf. simpl. by rewrite fmap_replicate, length_replicate.
Qed.


(** ** The calibration-to-world stage *)




(** C10: Convert of the calibration-to-world stage only reads the X and Z
    buffers it receives from its predecessor: when they are not the stage's
    own output buffers, they are the same before and after the call, as is
    every buffer other than the stage's own two. *)
Theorem to_world_preserves_upstream prev own cal Data s prev' up s1 :
  ConvertPrev prev Data s = Some ((prev', up), s1) →
  MilX up ≠ MilX own → MilX up ≠ MilZ own →
  MilZ up ≠ MilX own → MilZ up ≠ MilZ own →
  ∃ r s2,
    Convert (CDataConversionToWorld prev own cal) Data s = Some (r, s2) ∧
    bufs s2 !! MilX up = bufs s1 !! MilX up ∧
    bufs s2 !! MilZ up = bufs s1 !! MilZ up ∧
    (∀ id, id ≠ MilX own → id ≠ MilZ own → bufs s2 !! id = bufs s1 !! id).
Proof.
  intros Hprev HXX HXZ HZX HZZ.
  destruct (ToWorld_frame prev own cal Data s prev' up s1 Hprev)
    as (s2 & E & _ & Hframe & _).
  eexists _, s2. split; [exact E|]. auto.
Qed.

(** C7: with no predecessor, ConvertPrev returns its input and leaves every
    buffer as it is, so that a stage without predecessor converts the input
    itself; and MilInterface without a conversion chain hands the separated
    bands to Process as they are. *)
Theorem no_predecessor_is_identity :
  (∀ Data s, ConvertPrev None Data s = Some ((None, Data), s)) ∧
  (∀ op Data s,
     Convert (CDataConversionOp_ None op) Data s =
       (let* _ := ConvertOp op Data in ret (CDataConversionOp_ None op, Data)) s) ∧
  (∀ Data s, MilInterface_Convert None Data s = Some ((None, Data), s)) ∧
  (∀ (P : Type) (Process_ : P → SPData → Mil P) (self : CMicroEpsilonToMIL P) grab s,
     m_pDataConversion self = None →
     MilInterface Process_ self grab s =
       (let* z := MbufChild2d grab 0 0 (m_SizeX self) (m_SizeY self) in
        let* x := MbufChild2d grab (m_SizeX self) 0 (m_SizeX self) (m_SizeY self) in
        let Data := {| MilX := x; MilZ := z; MilValidMask := M_NULL |} in
        let* proc' := Process_ (m_pProfileProcess self) Data in
        let* _ := ReleaseData Data in
        ret ({| m_SizeX := m_SizeX self; m_SizeY := m_SizeY self;
                m_pDataConversion := None; m_pProfileProcess := proc' |}, 0%Z)) s).
Proof.
  repeat split; try reflexivity.
  intros P Process_ self grab s Hnone. unfold MilInterface. rewrite Hnone.
  unfold bindM. simpl.
  destruct (MbufChild2d grab 0 0 (m_SizeX self) (m_SizeY self) s) as [[z sz]|]; [|done].
  destruct (MbufChild2d grab (m_SizeX self) 0 (m_SizeX self) (m_SizeY self) sz) as [[x sx]|];
    done.
Qed.

(** ** The mask-derivation stage *)

Lemma Convert_AddMask prev m v Data :
  Convert (CDataConversionAddMask prev m v) Data =
    (let* (prev', ConvertedData) := ConvertPrev prev Data in
     let* _ := MimArith (Img (MilZ ConvertedData)) (Const v) m
                        (M_NOT_EQUAL_CONST, M_DEFAULT_PROC) in
     ret (CDataConversionAddMask prev' m v, with_MilValidMask ConvertedData m)).
Proof. reflexivity. Qed.

Lemma D_of_Z_255_ne_0 : D_of_Z 255 ≠ D_of_Z 0.
Proof.
  intros E. apply (f_equal D_to_Z) in E.
  rewrite !D_to_of_Z_small in E by lia. discriminate.
Qed.

Lemma mask_true_not_equal (p : Pixel) (v : MIL_DOUBLE) :
  mask_true (arith_px (M_NOT_EQUAL_CONST, M_DEFAULT_PROC) U8 p v) ↔ pixel_val p ≠ v.
Proof.
  unfold arith_px, mask_true. simpl. destruct (decide (pixel_val p ≠ v)) as [Hne|He]; simpl.
  - split; [done|]. intros _. apply D_of_Z_255_ne_0.
  - split; [done|]. intros Hne. by destruct He.
Qed.

(** C4: Convert of the mask-derivation stage returns the upstream X and Z
    identifiers with the stage's mask buffer, leaves every buffer but that
    mask as it was (X and Z are passed by reference and keep their pixels),
    and writes a mask pixel that is valid (not 0) exactly where the upstream Z
    pixel differs from the invalid value. *)
Theorem mask_derivation prev m v Data s prev' up s1 bz bm :
  ConvertPrev prev Data s = Some ((prev', up), s1) →
  bufs s1 !! MilZ up = Some bz →
  bufs s1 !! m = Some bm → buf_type bm = U8 →
  m ≠ MilX up → m ≠ MilZ up →
  ∃ out s2,
    Convert (CDataConversionAddMask prev m v) Data s =
      Some ((CDataConversionAddMask prev' m v, out), s2) ∧
    MilX out = MilX up ∧ MilZ out = MilZ up ∧ MilValidMask out = m ∧
    bufs s2 !! MilX up = bufs s1 !! MilX up ∧
    bufs s2 !! MilZ up = bufs s1 !! MilZ up ∧
    (∀ id, id ≠ m → bufs s2 !! id = bufs s1 !! id) ∧
    (∀ x y p q, pix bz x y = Some p → pix bm x y = Some q →
       ∃ k, pix_at s2 m x y = Some k ∧ (mask_true k ↔ pixel_val p ≠ v)).
Proof.
  intros Hprev Hbz Hbm Ht HmX HmZ.
  rewrite Convert_AddMask. unfold bindM at 1. rewrite Hprev. unfold bindM.
  erewrite MimArith_Img_Const by (done || apply Hbz || apply Hbm).
  eexists _, _. split; [reflexivity|]. simpl.
  repeat split.
  - by rewrite lookup_insert_ne.
  - by rewrite lookup_insert_ne.
  - intros id Hne. by rewrite lookup_insert_ne.
  - intros x y p q Hp Hq. unfold pix_at. simpl. rewrite lookup_insert_eq. simpl.
    rewrite pix_arith_buf, Hp, Hq, Ht. simpl.
    eexists. split; [reflexivity|]. apply mask_true_not_equal.
Qed.

(** ** The invalid-masking stage *)

Lemma ApplyInvalidMask_Some img mask b bm s :
  bufs s !! img = Some b → bufs s !! mask = Some bm →
  ApplyInvalidMask img mask s =
    Some (tt, set_bufs (insert img (clear_cond_buf (type_max (buf_type b)) bm b)) s).
Proof.
  intros Hb Hm. unfold ApplyInvalidMask, bindM, MbufInquire_MAX.
  rewrite Hb. unfold MbufClearCond_EQUAL_0, modify, set_bufs. by rewrite Hm, Hb.
Qed.

(** One pixel after the mask is applied once, or once more on the result. *)
Lemma pix_masked bm b x y p m :
  pix b x y = Some p → pix bm x y = Some m →
  pix (clear_cond_buf (type_max (buf_type b)) bm b) x y =
    Some (if decide (pixel_val m = D_of_Z 0) then max_px (buf_type b) else p).
Proof.
  intros Hp Hm. rewrite pix_clear_cond_buf, Hp, Hm. simpl.
  by rewrite store_const_type_max.
Qed.

Lemma pix_masked_twice bm b x y p m :
  pix b x y = Some p → pix bm x y = Some m →
  let b1 := clear_cond_buf (type_max (buf_type b)) bm b in
  pix (clear_cond_buf (type_max (buf_type b)) bm b1) x y =
    Some (if decide (pixel_val m = D_of_Z 0) then max_px (buf_type b) else p).
Proof.
  intros Hp Hm b1.
  change (type_max (buf_type b)) with (type_max (buf_type b1)).
  rewrite (pix_masked bm b1 x y _ m (pix_masked bm b x y p m Hp Hm) Hm).
  unfold b1. simpl. by destruct (decide (pixel_val m = D_of_Z 0)).
Qed.

(** C5: after Convert of the invalid-masking stage, in the X and in the Z
    buffer, a pixel whose mask pixel is not valid (is 0) is the largest value
    of the buffer's type, and a pixel whose mask pixel is valid is the pixel
    the upstream stages left there; no other buffer is written. *)
Theorem invalid_masking prev Data s prev' up s1 bx bz bm :
  ConvertPrev prev Data s = Some ((prev', up), s1) →
  bufs s1 !! MilX up = Some bx → bufs s1 !! MilZ up = Some bz →
  bufs s1 !! MilValidMask up = Some bm →
  MilValidMask up ≠ MilX up → MilValidMask up ≠ MilZ up →
  ∃ s2,
    Convert (CDataConversionOp_ prev CDataConversionApplyInvalid) Data s =
      Some ((CDataConversionOp_ prev' CDataConversionApplyInvalid, up), s2) ∧
    (∀ id, id ≠ MilX up → id ≠ MilZ up → bufs s2 !! id = bufs s1 !! id) ∧
    (∀ x y p m, pix bx x y = Some p → pix bm x y = Some m →
       ∃ p', pix_at s2 (MilX up) x y = Some p' ∧
             (¬ mask_true m → p' = max_px (buf_type bx)) ∧ (mask_true m → p' = p)) ∧
    (∀ x y p m, pix bz x y = Some p → pix bm x y = Some m →
       ∃ p', pix_at s2 (MilZ up) x y = Some p' ∧
             (¬ mask_true m → p' = max_px (buf_type bz)) ∧ (mask_true m → p' = p)).
Proof.
  intros Hprev Hbx Hbz Hbm HmX HmZ.
  assert (Hsel : ∀ (t : BufType) (p : Pixel) (m : Pixel),
            let p' := if decide (pixel_val m = D_of_Z 0) then max_px t else p in
            (¬ mask_true m → p' = max_px t) ∧ (mask_true m → p' = p)).
  { intros t p m. unfold mask_true. simpl.
    destruct (decide (pixel_val m = D_of_Z 0)); split; intros; done. }
  cbn [Convert]. unfold bindM at 1. fold (ConvertPrev prev Data s). rewrite Hprev.
  unfold ConvertOp, bindM.
  erewrite ApplyInvalidMask_Some by (apply Hbx || apply Hbm).
  destruct (decide (MilX up = MilZ up)) as [Exz|Nxz].
  - rewrite <- Exz in *. assert (bz = bx) by congruence. subst bz.
    erewrite ApplyInvalidMask_Some;
      [|simpl; apply lookup_insert_eq|simpl; rewrite lookup_insert_ne by done; apply Hbm].
    eexists. split; [reflexivity|]. simpl. rewrite insert_insert_eq.
    split; [|split].
    + intros id Hne _. by rewrite lookup_insert_ne.
    + intros x y p m Hp Hm. unfold pix_at. simpl. rewrite lookup_insert_eq. simpl.
      rewrite (pix_masked_twice bm bx x y p m Hp Hm). eexists. split; [reflexivity|]. apply Hsel.
    + intros x y p m Hp Hm. unfold pix_at. simpl. rewrite lookup_insert_eq. simpl.
      rewrite (pix_masked_twice bm bx x y p m Hp Hm). eexists. split; [reflexivity|]. apply Hsel.
  - erewrite ApplyInvalidMask_Some;
      [|simpl; rewrite lookup_insert_ne by done; apply Hbz
       |simpl; rewrite lookup_insert_ne by done; apply Hbm].
    eexists. split; [reflexivity|]. simpl.
    split; [|split].
    + intros id HX HZ. by rewrite !lookup_insert_ne.
    + intros x y p m Hp Hm. unfold pix_at. simpl.
      rewrite lookup_insert_ne, lookup_insert_eq by done. simpl.
      rewrite (pix_masked bm bx x y p m Hp Hm). eexists. split; [reflexivity|]. apply Hsel.
    + intros x y p m Hp Hm. unfold pix_at. simpl. rewrite lookup_insert_eq. simpl.
      rewrite (pix_masked bm bz x y p m Hp Hm). eexists. split; [reflexivity|]. apply Hsel.
Qed.

(** ** The flip stages *)

Lemma flip_px (v : Z) :
  (0 ≤ v ≤ 65535)%Z →
  arith_px (M_CONST_SUB, M_DEFAULT_PROC) U16 (PInt v) (D_of_Z 65535) = PInt (65535 - v).
Proof.
  intros Hv. unfold arith_px. simpl. rewrite D_to_of_Z_small by lia.
  f_equal. apply Z.mod_small. lia.
Qed.

Lemma zip_over_diag2 {A} (g : A → A) (R : list (list A)) :
  zip_over (zip_over (λ a _, g a)) R R = (λ r : list A, g <$> r) <$> R.
Proof.
  induction R as [|r R IH]; simpl; [reflexivity|]. by rewrite zip_over_diag, IH.
Qed.

Lemma flip_buf_rows b :
  buf_rows (flip_buf b) =
    (λ r : list Pixel,
       (λ p, arith_px (M_CONST_SUB, M_DEFAULT_PROC) (buf_type b) p (D_of_Z 65535)) <$> r)
      <$> buf_rows b.
Proof. unfold flip_buf, arith_buf. simpl. apply zip_over_diag2. Qed.

Lemma pix_flip_buf b x y v :
  raw_u16 b → pix b x y = Some (PInt v) →
  (0 ≤ v ≤ 65535)%Z ∧ pix (flip_buf b) x y = Some (PInt (65535 - v)).
Proof.
  intros [Ht Hraw] Hp.
  assert (Hv : (0 ≤ v ≤ 65535)%Z).
  { unfold pix in Hp. destruct (buf_rows b !! y) as [r|] eqn:Hr; [|done]. simpl in Hp.
    rewrite Forall_lookup in Hraw. specialize (Hraw _ _ Hr).
    rewrite Forall_lookup in Hraw. apply (Hraw _ _ Hp). }
  split; [done|]. unfold flip_buf. rewrite pix_arith_buf, Hp. simpl. rewrite Ht.
  by rewrite flip_px.
Qed.

Lemma flip_rows_raw (R : list (list Pixel)) :
  Forall (Forall is_u16) R →
  let flip := λ r : list Pixel,
    (λ p, arith_px (M_CONST_SUB, M_DEFAULT_PROC) U16 p (D_of_Z 65535)) <$> r in
  Forall (Forall is_u16) (flip <$> R) ∧ flip <$> (flip <$> R) = R.
Proof.
  intros HR flip. induction HR as [|r R Hr _ [IH1 IH2]]; [by split|].
  assert (Hrow : Forall is_u16
                   ((λ p, arith_px (M_CONST_SUB, M_DEFAULT_PROC) U16 p (D_of_Z 65535)) <$> r) ∧
                 (λ p, arith_px (M_CONST_SUB, M_DEFAULT_PROC) U16 p (D_of_Z 65535)) <$>
                   ((λ p, arith_px (M_CONST_SUB, M_DEFAULT_PROC) U16 p (D_of_Z 65535)) <$> r) = r).
  { clear -Hr. induction Hr as [|p r Hp _ [IH1 IH2]]; [by split|].
    destruct p as [v|]; [|done]. simpl in Hp.
    rewrite !fmap_cons, flip_px by done.
    split.
    - constructor; [simpl; lia|done].
    - rewrite flip_px by lia. rewrite IH2. do 2 f_equal. lia. }
  destruct Hrow as [R1 R2]. rewrite !fmap_cons. split.
  - by constructor.
  - unfold flip at 1 2. by rewrite R2, IH2.
Qed.

Lemma flip_buf_raw b : raw_u16 b → raw_u16 (flip_buf b) ∧ flip_buf (flip_buf b) = b.
Proof.
  intros [Ht Hraw]. destruct (flip_rows_raw _ Hraw) as [H1 H2].
  assert (Hrows : buf_rows (flip_buf b) =
            (λ r : list Pixel,
               (λ p, arith_px (M_CONST_SUB, M_DEFAULT_PROC) U16 p (D_of_Z 65535)) <$> r)
              <$> buf_rows b)
    by (by rewrite flip_buf_rows, Ht).
  split.
  - split; [done|]. by rewrite Hrows.
  - destruct b as [t R]. simpl in *. subst t.
    unfold flip_buf at 1. unfold arith_buf. rewrite zip_over_diag2. simpl.
    f_equal. unfold flip_buf, arith_buf. simpl. rewrite zip_over_diag2. exact H2.
Qed.

(** C6: Convert of a flip stage replaces every raw 16-bit value v of its
    channel (X for the X flip, Z for the Z flip) with 65535 - v, in the buffer
    it received: that buffer is the only one written, it keeps its type and
    size, and no buffer is allocated.  Flipping once more gives back the
    buffers as they were. *)
Theorem flip_stage (op : CDataConversionOp) (channel : SPData → MIL_ID)
    prev Data s prev' up s1 b :
  (op = CDataConversionFlipXVal ∧ channel = MilX) ∨
  (op = CDataConversionFlipZVal ∧ channel = MilZ) →
  ConvertPrev prev Data s = Some ((prev', up), s1) →
  bufs s1 !! channel up = Some b → raw_u16 b →
  ∃ s2,
    Convert (CDataConversionOp_ prev op) Data s = Some ((CDataConversionOp_ prev' op, up), s2) ∧
    bufs s2 = <[channel up := flip_buf b]> (bufs s1) ∧
    clouds s2 = clouds s1 ∧
    dom (bufs s2) = dom (bufs s1) ∧
    shape (flip_buf b) = shape b ∧
    (∀ x y v, pix b x y = Some (PInt v) →
       (0 ≤ v ≤ 65535)%Z ∧ pix_at s2 (channel up) x y = Some (PInt (65535 - v))) ∧
    ConvertOp op up s2 = Some (tt, s1) ∧
    Convert (CDataConversionOp_ (Some (CDataConversionOp_ prev op)) op) Data s =
      Some ((CDataConversionOp_ (Some (CDataConversionOp_ prev' op)) op, up), s1).
Proof.
  intros Hop Hprev Hb Hraw.
  destruct (flip_buf_raw b Hraw) as [Hraw' Hinv].
  assert (Hop1 : ConvertOp op up s1 = Some (tt, set_bufs (insert (channel up) (flip_buf b)) s1)).
  { destruct Hop as [[-> ->]|[-> ->]]; simpl; by erewrite MimArith_Const_Img. }
  assert (Hop2 : ConvertOp op up (set_bufs (insert (channel up) (flip_buf b)) s1) = Some (tt, s1)).
  { assert (E : set_bufs (insert (channel up) (flip_buf (flip_buf b)))
                  (set_bufs (insert (channel up) (flip_buf b)) s1) = s1).
    { destruct s1 as [h c]. unfold set_bufs. simpl in *. f_equal.
      rewrite insert_insert_eq, Hinv. by apply insert_id. }
    rewrite <- E at 2.
    destruct Hop as [[-> ->]|[-> ->]]; simpl;
      erewrite MimArith_Const_Img; try reflexivity; simpl; apply lookup_insert_eq. }
  assert (Hc : Convert (CDataConversionOp_ prev op) Data s =
                 Some ((CDataConversionOp_ prev' op, up),
                       set_bufs (insert (channel up) (flip_buf b)) s1)).
  { cbn [Convert]. unfold bindM at 1. fold (ConvertPrev prev Data s). rewrite Hprev.
    unfold bindM. by rewrite Hop1. }
  exists (set_bufs (insert (channel up) (flip_buf b)) s1).
  split; [exact Hc|]. split; [reflexivity|]. split; [reflexivity|].
  split; [|split; [|split; [|split]]].
  - simpl. rewrite dom_insert_L. apply elem_of_dom_2 in Hb.
    apply subseteq_union_1_L. by apply singleton_subseteq_l.
  - apply shape_arith_buf.
  - intros x y v Hp. destruct (pix_flip_buf b x y v Hraw Hp) as [Hv Hp'].
    split; [exact Hv|]. unfold pix_at. simpl. by rewrite lookup_insert_eq.
  - exact Hop2.
  - assert (Hcp : ConvertPrev (Some (CDataConversionOp_ prev op)) Data s =
                    Some ((Some (CDataConversionOp_ prev' op), up),
                          set_bufs (insert (channel up) (flip_buf b)) s1)).
    { rewrite ConvertPrev_Some. unfold bindM. by rewrite Hc. }
    cbn [Convert]. unfold bindM at 1.
    fold (ConvertPrev (Some (CDataConversionOp_ prev op)) Data s). rewrite Hcp.
    unfold bindM. by rewrite Hop2.
Qed.

(** ** The flatten stage *)

Lemma length_concat_rows {A} (R : list (list A)) :
  length (concat R) = sum_list (length <$> R).
Proof.
  induction R as [|r R IH]; simpl; [reflexivity|]. by rewrite length_app, IH.
Qed.

Lemma is_image_rows b t w h :
  is_image b t w h →
  buf_type b = t ∧ length (buf_rows b) = h ∧ Forall (λ r, length r = w) (buf_rows b) ∧
  length (concat (buf_rows b)) = h * w.
Proof.
  unfold is_image, shape. intros [= Ht Hl]. split; [done|].
  assert (Hh : length (buf_rows b) = h).
  { apply (f_equal length) in Hl. by rewrite length_fmap, length_replicate in Hl. }
  split; [done|]. split.
  - apply Forall_lookup. intros i r Hr.
    assert (Hi : (length <$> buf_rows b) !! i = Some (length r))
      by (by rewrite list_lookup_fmap, Hr).
    rewrite Hl in Hi. apply lookup_replicate in Hi. by destruct Hi.
  - by rewrite length_concat_rows, Hl, sum_list_replicate.
Qed.

Lemma is_image_1d b t n :
  is_image b t n 1 → buf_type b = t ∧ ∃ r, buf_rows b = [r] ∧ length r = n.
Proof.
  unfold is_image, shape. intros [= Ht Hl]. split; [done|].
  destruct (buf_rows b) as [|r [|r' R]]; try done.
  exists r. split; [done|]. simpl in Hl. congruence.
Qed.

(** In rows of width [w], pixel (x, y) is element x + y * w of the rows put
    end to end. *)
Lemma lookup_concat_rect {A} (R : list (list A)) (w x y : nat) :
  Forall (λ r, length r = w) R → x < w →
  concat R !! (x + y * w) = R !! y ≫= (λ r, r !! x).
Proof.
  intros HR Hx. revert y. induction HR as [|r R Hr _ IH]; intros y.
  - simpl. by rewrite lookup_nil.
  - destruct y as [|y]; simpl.
    + rewrite Nat.add_0_r. apply lookup_app_l. lia.
    + rewrite lookup_app_r by lia.
      replace (x + (w + y * w) - length r) with (x + y * w) by lia. apply IH.
Qed.

(** Copying [src] into a 1-D buffer of as many pixels. *)
Lemma MbufGet_to_host_flat Src Dst src dst t w h s :
  bufs s !! Src = Some src → is_image src t w h →
  bufs s !! Dst = Some dst → is_image dst t (w * h) 1 →
  MbufGet_to_host Src Dst s =
    Some (tt, set_bufs (insert Dst {| buf_type := t; buf_rows := [concat (buf_rows src)] |}) s).
Proof.
  intros Hs Is Hd Id. unfold MbufGet_to_host. rewrite Hs, Hd.
  destruct (is_image_rows _ _ _ _ Is) as (Ts & _ & _ & Ls).
  destruct (is_image_1d _ _ _ Id) as (Td & r & Er & Lr).
  rewrite Er. simpl. rewrite app_nil_r.
  assert (Hlen : length (concat (buf_rows src)) = length r) by lia.
  rewrite decide_True by (split; [congruence|lia]).
  rewrite Hlen, drop_all, app_nil_r, <- Hlen, firstn_all. by rewrite Td.
Qed.

Lemma MbufGet_to_host_absent Src Dst s :
  bufs s !! Src = None → MbufGet_to_host Src Dst s = Some (tt, s).
Proof. intros Hs. unfold MbufGet_to_host. by rewrite Hs. Qed.

Lemma Convert_ToFlat prev own Data :
  Convert (CDataConversionToFlat prev own) Data =
    (let* (prev', ConvertedData) := ConvertPrev prev Data in
     let* _ := MbufGet_to_host (MilX ConvertedData) (MilX own) in
     let* _ := MbufGet_to_host (MilZ ConvertedData) (MilZ own) in
     let* _ := MbufGet_to_host (MilValidMask ConvertedData) (MilValidMask own) in
     ret (CDataConversionToFlat prev' own, own)).
Proof. reflexivity. Qed.

Lemma new_CDataConversionToFlat_spec prev sys ProfileSize NbProfiles t s :
  ∃ x z m s',
    new_CDataConversionToFlat prev sys ProfileSize NbProfiles t s =
      Some (CDataConversionToFlat prev {| MilX := x; MilZ := z; MilValidMask := m |}, s') ∧
    x ≠ z ∧ x ≠ m ∧ z ≠ m ∧
    bufs s !! x = None ∧ bufs s !! z = None ∧ bufs s !! m = None ∧
    bufs s' = <[m := alloc_buf U8 (ProfileSize * NbProfiles) 1]>
                (<[z := alloc_buf t (ProfileSize * NbProfiles) 1]>
                   (<[x := alloc_buf t (ProfileSize * NbProfiles) 1]> (bufs s))) ∧
    clouds s' = clouds s.
Proof.
  unfold new_CDataConversionToFlat, MbufAlloc1d, bindM.
  destruct (MbufAlloc2d_spec sys (ProfileSize * NbProfiles) 1 t s) as (x & Ex & _ & Hx & _).
  rewrite Ex.
  destruct (MbufAlloc2d_spec sys (ProfileSize * NbProfiles) 1 t
              (set_bufs (insert x (alloc_buf t (ProfileSize * NbProfiles) 1)) s))
    as (z & Ez & _ & Hz & _).
  rewrite Ez.
  destruct (MbufAlloc2d_spec sys (ProfileSize * NbProfiles) 1 U8
              (set_bufs (insert z (alloc_buf t (ProfileSize * NbProfiles) 1))
                 (set_bufs (insert x (alloc_buf t (ProfileSize * NbProfiles) 1)) s)))
    as (m & Em & _ & Hm & _).
  rewrite Em. exists x, z, m. eexists. split; [reflexivity|]. simpl in *.
  assert (x ≠ z) by (intros ->; by rewrite lookup_insert_eq in Hz).
  assert (z ≠ m) by (intros ->; by rewrite lookup_insert_eq in Hm).
  rewrite lookup_insert_ne in Hm by done.
  assert (x ≠ m) by (intros ->; by rewrite lookup_insert_eq in Hm).
  rewrite lookup_insert_ne in Hz, Hm by done. done.
Qed.

(** C9: the flatten stage allocates three 1-D buffers of ProfileSize *
    NbProfiles pixels when it is constructed, distinct from every buffer that
    exists then.  Its Convert copies the pixels of the upstream X and Z
    images, row after row, into its X and Z buffers, which keep their single
    row of ProfileSize * NbProfiles pixels: pixel (x, y) upstream is pixel
    x + y * ProfileSize of the flat buffer.  It copies the validity mask the
    same way when the upstream data has one, leaves its mask buffer as it was
    otherwise, writes no other buffer and returns its own three buffers. *)
Theorem flatten_stage :
  (∀ prev sys ProfileSize NbProfiles t s,
     ∃ x z m s',
       new_CDataConversionToFlat prev sys ProfileSize NbProfiles t s =
         Some (CDataConversionToFlat prev {| MilX := x; MilZ := z; MilValidMask := m |}, s') ∧
       x ≠ z ∧ x ≠ m ∧ z ≠ m ∧
       bufs s !! x = None ∧ bufs s !! z = None ∧ bufs s !! m = None ∧
       bufs s' !! x = Some (alloc_buf t (ProfileSize * NbProfiles) 1) ∧
       bufs s' !! z = Some (alloc_buf t (ProfileSize * NbProfiles) 1) ∧
       bufs s' !! m = Some (alloc_buf U8 (ProfileSize * NbProfiles) 1)) ∧
  (∀ prev own Data s prev' up s1 t ProfileSize NbProfiles ux uz fx fz fm,
     ConvertPrev prev Data s = Some ((prev', up), s1) →
     bufs s1 !! MilX up = Some ux → is_image ux t ProfileSize NbProfiles →
     bufs s1 !! MilZ up = Some uz → is_image uz t ProfileSize NbProfiles →
     (∀ um, bufs s1 !! MilValidMask up = Some um → is_image um U8 ProfileSize NbProfiles) →
     bufs s1 !! MilX own = Some fx → is_image fx t (ProfileSize * NbProfiles) 1 →
     bufs s1 !! MilZ own = Some fz → is_image fz t (ProfileSize * NbProfiles) 1 →
     bufs s1 !! MilValidMask own = Some fm → is_image fm U8 (ProfileSize * NbProfiles) 1 →
     MilX own ≠ MilZ own → MilX own ≠ MilValidMask own → MilZ own ≠ MilValidMask own →
     MilZ up ≠ MilX own → MilValidMask up ≠ MilX own → MilValidMask up ≠ MilZ own →
     ∃ s2,
       Convert (CDataConversionToFlat prev own) Data s =
         Some ((CDataConversionToFlat prev' own, own), s2) ∧
       bufs s2 !! MilX own = Some {| buf_type := t; buf_rows := [concat (buf_rows ux)] |} ∧
       bufs s2 !! MilZ own = Some {| buf_type := t; buf_rows := [concat (buf_rows uz)] |} ∧
       (∀ um, bufs s1 !! MilValidMask up = Some um →
          bufs s2 !! MilValidMask own =
            Some {| buf_type := U8; buf_rows := [concat (buf_rows um)] |}) ∧
       (bufs s1 !! MilValidMask up = None → bufs s2 !! MilValidMask own = Some fm) ∧
       (∀ id, id ≠ MilX own → id ≠ MilZ own → id ≠ MilValidMask own →
          bufs s2 !! id = bufs s1 !! id) ∧
       (∀ id, sig s2 id = sig s1 id) ∧
       (∀ x y, x < ProfileSize →
          pix_at s2 (MilX own) (x + y * ProfileSize) 0 = pix ux x y ∧
          pix_at s2 (MilZ own) (x + y * ProfileSize) 0 = pix uz x y ∧
          ∀ um, bufs s1 !! MilValidMask up = Some um →
                pix_at s2 (MilValidMask own) (x + y * ProfileSize) 0 = pix um x y)).
Proof.
  split.
  - intros prev sys ProfileSize NbProfiles t s.
    destruct (new_CDataConversionToFlat_spec prev sys ProfileSize NbProfiles t s)
      as (x & z & m & s' & E & Hxz & Hxm & Hzm & Hx & Hz & Hm & Hb & _).
    exists x, z, m, s'. rewrite Hb.
    split; [done|]. do 6 (split; [done|]). split; [|split].
    + rewrite !lookup_insert_ne by done. apply lookup_insert_eq.
    + rewrite lookup_insert_ne by done. apply lookup_insert_eq.
    + apply lookup_insert_eq.
  - intros prev own Data s prev' up s1 t ProfileSize NbProfiles ux uz fx fz fm
      Hprev Hux Iux Huz Iuz Hum Hfx Ifx Hfz Ifz Hfm Ifm Hxz Hxm Hzm HuzX HumX HumZ.
    rewrite Convert_ToFlat. unfold bindM at 1. rewrite Hprev. unfold bindM.
    rewrite (MbufGet_to_host_flat _ _ ux fx t ProfileSize NbProfiles) by done.
    rewrite (MbufGet_to_host_flat _ _ uz fz t ProfileSize NbProfiles);
      [|simpl; rewrite lookup_insert_ne by done; done|done
       |simpl; rewrite lookup_insert_ne by done; done|done].
    assert (Hpix : ∀ (b : MilBuf) (u : BufType) (x y : nat),
              is_image b u ProfileSize NbProfiles → x < ProfileSize →
              pix {| buf_type := u; buf_rows := [concat (buf_rows b)] |} (x + y * ProfileSize) 0
                = pix b x y).
    { intros b u x y Ib Hx. destruct (is_image_rows _ _ _ _ Ib) as (_ & _ & Hrect & _).
      unfold pix. simpl. by apply lookup_concat_rect. }
    destruct (bufs s1 !! MilValidMask up) as [um|] eqn:Hm.
    + specialize (Hum um eq_refl).
      rewrite (MbufGet_to_host_flat _ _ um fm U8 ProfileSize NbProfiles);
        [|simpl; rewrite !lookup_insert_ne by done; done|done
         |simpl; rewrite !lookup_insert_ne by done; done|done].
      eexists. split; [reflexivity|]. simpl.
      assert (HX : (<[MilValidMask own := {| buf_type := U8; buf_rows := [concat (buf_rows um)] |}]>
                     (<[MilZ own := {| buf_type := t; buf_rows := [concat (buf_rows uz)] |}]>
                        (<[MilX own := {| buf_type := t; buf_rows := [concat (buf_rows ux)] |}]>
                           (bufs s1)))) !! MilX own
                   = Some {| buf_type := t; buf_rows := [concat (buf_rows ux)] |}).
      { rewrite !lookup_insert_ne by done. apply lookup_insert_eq. }
      assert (HZ : (<[MilValidMask own := {| buf_type := U8; buf_rows := [concat (buf_rows um)] |}]>
                     (<[MilZ own := {| buf_type := t; buf_rows := [concat (buf_rows uz)] |}]>
                        (<[MilX own := {| buf_type := t; buf_rows := [concat (buf_rows ux)] |}]>
                           (bufs s1)))) !! MilZ own
                   = Some {| buf_type := t; buf_rows := [concat (buf_rows uz)] |}).
      { rewrite lookup_insert_ne by done. apply lookup_insert_eq. }
      split; [exact HX|]. split; [exact HZ|]. split; [|split; [done|split; [|split]]].
      * intros um' [= <-]. apply lookup_insert_eq.
      * intros id H1 H2 H3. by rewrite !lookup_insert_ne.
      * intros id. unfold sig. simpl.
        destruct (decide (id = MilValidMask own)) as [->|N3].
        { rewrite lookup_insert_eq, Hfm. simpl. f_equal. unfold shape. simpl.
          destruct (is_image_rows _ _ _ _ Hum) as (_ & _ & _ & Lum).
          unfold is_image, shape in Ifm. rewrite Ifm. simpl. do 3 f_equal. lia. }
        rewrite lookup_insert_ne by done.
        destruct (decide (id = MilZ own)) as [->|N2].
        { rewrite lookup_insert_eq, Hfz. simpl. f_equal. unfold shape. simpl.
          destruct (is_image_rows _ _ _ _ Iuz) as (_ & _ & _ & Luz).
          unfold is_image, shape in Ifz. rewrite Ifz. simpl. do 3 f_equal. lia. }
        rewrite lookup_insert_ne by done.
        destruct (decide (id = MilX own)) as [->|N1].
        { rewrite lookup_insert_eq, Hfx. simpl. f_equal. unfold shape. simpl.
          destruct (is_image_rows _ _ _ _ Iux) as (_ & _ & _ & Lux).
          unfold is_image, shape in Ifx. rewrite Ifx. simpl. do 3 f_equal. lia. }
        by rewrite lookup_insert_ne.
      * intros x y Hx. unfold pix_at. cbn [bufs set_bufs]. rewrite HX, HZ. simpl.
        split; [by apply Hpix|]. split; [by apply Hpix|].
        intros um' [= <-]. rewrite lookup_insert_eq. simpl. by apply Hpix.
    + rewrite MbufGet_to_host_absent
        by (simpl; rewrite !lookup_insert_ne by done; done).
      eexists. split; [reflexivity|]. simpl.
      assert (HX : (<[MilZ own := {| buf_type := t; buf_rows := [concat (buf_rows uz)] |}]>
                      (<[MilX own := {| buf_type := t; buf_rows := [concat (buf_rows ux)] |}]>
                         (bufs s1))) !! MilX own
                   = Some {| buf_type := t; buf_rows := [concat (buf_rows ux)] |}).
      { rewrite !lookup_insert_ne by done. apply lookup_insert_eq. }
      assert (HZ : (<[MilZ own := {| buf_type := t; buf_rows := [concat (buf_rows uz)] |}]>
                      (<[MilX own := {| buf_type := t; buf_rows := [concat (buf_rows ux)] |}]>
                         (bufs s1))) !! MilZ own
                   = Some {| buf_type := t; buf_rows := [concat (buf_rows uz)] |}).
      { apply lookup_insert_eq. }
      split; [exact HX|]. split; [exact HZ|]. split; [done|split; [|split; [|split]]].
      * intros _. by rewrite !lookup_insert_ne.
      * intros id H1 H2 H3. by rewrite !lookup_insert_ne.
      * intros id. unfold sig. simpl.
        destruct (decide (id = MilZ own)) as [->|N2].
        { rewrite lookup_insert_eq, Hfz. simpl. f_equal. unfold shape. simpl.
          destruct (is_image_rows _ _ _ _ Iuz) as (_ & _ & _ & Luz).
          unfold is_image, shape in Ifz. rewrite Ifz. simpl. do 3 f_equal. lia. }
        rewrite lookup_insert_ne by done.
        destruct (decide (id = MilX own)) as [->|N1].
        { rewrite lookup_insert_eq, Hfx. simpl. f_equal. unfold shape. simpl.
          destruct (is_image_rows _ _ _ _ Iux) as (_ & _ & _ & Lux).
          unfold is_image, shape in Ifx. rewrite Ifx. simpl. do 3 f_equal. lia. }
        by rewrite lookup_insert_ne.
      * intros x y Hx. unfold pix_at. cbn [bufs set_bufs]. rewrite HX, HZ. simpl.
        split; [by apply Hpix|]. split; [by apply Hpix|]. done.
Qed.

(** ** The Y coordinates of the depth-map process *)

Lemma fill_profile_S c y w k (v : list MIL_DOUBLE) :
  foldl (λ v x, <[x + y * w := F_cast c]> v) v (seq 0 (S k)) =
    <[k + y * w := F_cast c]> (foldl (λ v x, <[x + y * w := F_cast c]> v) v (seq 0 k)).
Proof. by rewrite seq_S, foldl_app. Qed.

Lemma fill_profile_prefix c y w k (v : list MIL_DOUBLE) i :
  let v' := foldl (λ v x, <[x + y * w := F_cast c]> v) v (seq 0 k) in
  length v' = length v ∧
  v' !! i = if decide (y * w ≤ i < y * w + k ∧ i < length v) then Some (F_cast c) else v !! i.
Proof.
  induction k as [|k [IHl IHv]].
  - simpl. split; [done|]. rewrite decide_False by lia. done.
  - cbv zeta in *. rewrite fill_profile_S. split; [by rewrite length_insert|].
    rewrite list_lookup_insert, IHl, IHv.
    repeat case_decide; (done || (exfalso; lia)).
Qed.

Lemma fill_profile_lookup c y w v i :
  length (fill_profile c y w v) = length v ∧
  fill_profile c y w v !! i =
    if decide (y * w ≤ i < y * w + w ∧ i < length v) then Some (F_cast c) else v !! i.
Proof. apply fill_profile_prefix. Qed.

Lemma create_Y_S y0 speed w n v :
  create_Y y0 speed w (S n) v =
    fill_profile (D_add y0 (D_mult (D_of_Z (Z.of_nat n)) speed)) n w (create_Y y0 speed w n v).
Proof. unfold create_Y. by rewrite seq_S, foldl_app. Qed.

Lemma create_Y_lookup y0 speed w n v :
  length (create_Y y0 speed w n v) = length v ∧
  ∀ x y, x < w → y < n → x + y * w < length v →
         create_Y y0 speed w n v !! (x + y * w) = Some (worldY y0 speed y).
Proof.
  induction n as [|n [IHl IHv]].
  - split; [done|]. intros x y _ Hy. lia.
  - rewrite create_Y_S.
    destruct (fill_profile_lookup (D_add y0 (D_mult (D_of_Z (Z.of_nat n)) speed)) n w
                (create_Y y0 speed w n v) 0) as [Hl _].
    split; [congruence|]. intros x y Hx Hy Hlen.
    destruct (fill_profile_lookup (D_add y0 (D_mult (D_of_Z (Z.of_nat n)) speed)) n w
                (create_Y y0 speed w n v) (x + y * w)) as [_ Hv].
    rewrite Hv, IHl. destruct (decide (y = n)) as [->|Hne].
    + rewrite decide_True by lia. done.
    + rewrite decide_False by nia. apply IHv; lia.
Qed.

(** ** Construction of the depth-map process *)

Lemma MbufAlloc2d_sig sys SizeX SizeY t s :
  ∃ id s',
    MbufAlloc2d sys SizeX SizeY t s = Some (id, s') ∧
    clouds s' = clouds s ∧
    sig s' id = Some (t, replicate SizeY SizeX) ∧
    (∀ j x, sig s j = Some x → sig s' j = Some x).
Proof.
  destruct (MbufAlloc2d_spec sys SizeX SizeY t s) as (id & E & _ & Hid & _).
  exists id. eexists. split; [exact E|]. split; [done|]. unfold sig. simpl. split.
  - rewrite lookup_insert_eq. simpl. by rewrite shape_alloc_buf.
  - intros j x Hj. destruct (decide (j = id)) as [->|Hne].
    + by rewrite Hid in Hj.
    + by rewrite lookup_insert_ne.
Qed.

Lemma MbufClear_sig id c s :
  ∃ s', MbufClear id c s = Some (tt, s') ∧ clouds s' = clouds s ∧ ∀ j, sig s' j = sig s j.
Proof.
  unfold MbufClear, modify. eexists. split; [reflexivity|]. split; [done|].
  intros j. unfold sig. simpl. destruct (bufs s !! id) as [b|] eqn:Hb; [|done].
  destruct (decide (j = id)) as [->|Hne].
  - rewrite lookup_insert_eq, Hb. simpl. unfold shape. simpl. f_equal. f_equal.
    rewrite <- list_fmap_compose. apply list_fmap_ext. intros _ r _. simpl.
    apply length_fmap.
  - by rewrite lookup_insert_ne.
Qed.

Lemma new_CProfileDepthMapProcess_spec sys cal range y0 speed ProfileSize NbProfiles s :
  ∃ w f c d s',
    new_CProfileDepthMapProcess sys cal range y0 speed ProfileSize NbProfiles s =
      Some ({| base :=
                 {| m_NbPoints := ProfileSize * NbProfiles; m_PCal := cal;
                    m_pProcessProfileDataConversion :=
                      Some (CDataConversionOp_
                              (Some (CDataConversionToFlat
                                       (Some (CDataConversionToWorld None w cal)) f))
                              CDataConversionApplyInvalid) |};
               m_MilPointCloudContainer := c;
               m_MilDepthMap := d;
               m_ConvertedY := create_Y y0 speed ProfileSize NbProfiles
                                 (replicate (ProfileSize * NbProfiles) (D_of_Z 0));
               m_NbFramesProcessed := 0 |}, s') ∧
    sig s' (MilX w) = Some (F32, replicate NbProfiles ProfileSize) ∧
    sig s' (MilZ w) = Some (F32, replicate NbProfiles ProfileSize) ∧
    sig s' (MilX f) = Some (F32, [ProfileSize * NbProfiles]) ∧
    sig s' (MilZ f) = Some (F32, [ProfileSize * NbProfiles]) ∧
    sig s' (MilValidMask f) = Some (U8, [ProfileSize * NbProfiles]) ∧
    clouds s !! c = None ∧ clouds s' !! c = Some [] ∧
    (∀ j x, sig s j = Some x → sig s' j = Some x).
Proof.
  unfold new_CProfileDepthMapProcess, new_CProfile3dPointsProcess,
    new_CDataConversionToWorld, new_CDataConversionToFlat, MbufAlloc1d, bindM, ret.
  cbv beta iota zeta. cbn [m_pProcessProfileDataConversion new_CProfileProcess m_NbPoints m_PCal].
  destruct (MbufAlloc2d_sig sys ProfileSize NbProfiles F32 s)
    as (wx & s1 & E1 & C1 & X1 & K1). rewrite E1.
  destruct (MbufAlloc2d_sig sys ProfileSize NbProfiles F32 s1)
    as (wz & s2 & E2 & C2 & X2 & K2). rewrite E2.
  destruct (MbufAlloc2d_sig sys (ProfileSize * NbProfiles) 1 F32 s2)
    as (fx & s3 & E3 & C3 & X3 & K3). rewrite E3.
  destruct (MbufAlloc2d_sig sys (ProfileSize * NbProfiles) 1 F32 s3)
    as (fz & s4 & E4 & C4 & X4 & K4). rewrite E4.
  destruct (MbufAlloc2d_sig sys (ProfileSize * NbProfiles) 1 U8 s4)
    as (fm & s5 & E5 & C5 & X5 & K5). rewrite E5.
  unfold M3dmapAllocResult.
  destruct (fresh_id_spec s5) as (_ & _ & Hc).
  set (c := fresh_id s5) in *.
  destruct (MbufAlloc2d_sig sys ProfileSize NbProfiles U16 (set_clouds (insert c []) s5))
    as (d & s6 & E6 & C6 & X6 & K6). rewrite E6.
  destruct (MbufClear_sig d (D_of_Z 65535) s6) as (s7 & E7 & C7 & K7). rewrite E7.
  exists {| MilX := wx; MilZ := wz; MilValidMask := M_NULL |},
         {| MilX := fx; MilZ := fz; MilValidMask := fm |}, c, d, s7.
  split; [reflexivity|]. simpl.
  assert (K56 : ∀ j x, sig s5 j = Some x → sig s6 j = Some x) by (intros j x; apply K6).
  rewrite !K7. repeat split.
  - auto 10.
  - auto 10.
  - auto 10.
  - auto 10.
  - auto 10.
  - congruence.
  - rewrite C7, C6. simpl. apply lookup_insert_eq.
  - intros j x Hj. rewrite K7. auto 10.
Qed.


(** ** Process of the depth-map process

    Whether a call is defined depends on the types and sizes of the buffers
    only, and no call changes them. *)

Lemma bindM_Some {A B} (m : Mil A) (k : A → Mil B) s a s' :
  m s = Some (a, s') → bindM m k s = k a s'.
Proof. intros E. unfold bindM. by rewrite E. Qed.

Lemma unconcat_lengths {A} (R : list (list A)) (l : list A) :
  length l = sum_list (length <$> R) → length <$> unconcat R l = length <$> R.
Proof.
  revert l. induction R as [|r R IH]; intros l Hl; [reflexivity|].
  cbn [unconcat]. rewrite !fmap_cons in *.
  change (length l = length r + sum_list (length <$> R)) in Hl.
  rewrite length_take, IH by (rewrite length_drop; lia). f_equal. lia.
Qed.

Lemma MbufGet_to_host_sig Src Dst s :
  match sig s Src with
  | None => True
  | Some (t, l) => ∃ ld, sig s Dst = Some (t, ld) ∧ sum_list l ≤ sum_list ld
  end →
  ∃ s', MbufGet_to_host Src Dst s = Some (tt, s') ∧
        clouds s' = clouds s ∧ ∀ id, sig s' id = sig s id.
Proof.
  unfold MbufGet_to_host, sig.
  destruct (bufs s !! Src) as [src|] eqn:Hs; simpl; [|by eexists].
  intros (ld & Hd & Hle).
  destruct (bufs s !! Dst) as [dst|] eqn:Hdst; [|done]. simpl in Hd.
  injection Hd as Ht Hld. rewrite <- Hld in Hle. rewrite <- !length_concat_rows in Hle.
  rewrite decide_True by done.
  eexists. split; [reflexivity|]. split; [done|]. simpl.
  intros id. destruct (decide (id = Dst)) as [->|Hne].
  - rewrite lookup_insert_eq, Hdst. simpl. unfold shape. simpl. do 2 f_equal.
    apply unconcat_lengths.
    rewrite length_app, length_drop, <- length_concat_rows. lia.
  - by rewrite lookup_insert_ne.
Qed.

Lemma ApplyInvalidMask_sig img mask s :
  ∃ s', ApplyInvalidMask img mask s = Some (tt, s') ∧
        clouds s' = clouds s ∧ ∀ id, sig s' id = sig s id.
Proof.
  unfold ApplyInvalidMask, bindM, MbufInquire_MAX, MbufClearCond_EQUAL_0, modify, sig.
  destruct (bufs s !! img) as [b|] eqn:Hb.
  - eexists. split; [reflexivity|]. split; [done|]. simpl.
    destruct (bufs s !! mask) as [bm|]; [|done]. rewrite Hb.
    intros id. destruct (decide (id = img)) as [->|Hne].
    + rewrite lookup_insert_eq, Hb. simpl. by rewrite shape_clear_cond_buf.
    + by rewrite lookup_insert_ne.
  - eexists. split; [reflexivity|]. split; [done|]. simpl.
    destruct (bufs s !! mask) as [bm|]; [|done]. by rewrite Hb.
Qed.

Lemma host_floats_sig id n l s :
  sig s id = Some (F32, l) → n ≤ sum_list l →
  ∃ X, host_floats id n s = Some (X, s) ∧ length X = n.
Proof.
  unfold host_floats, sig. destruct (bufs s !! id) as [b|]; [|done]. simpl.
  intros [= Ht Hl] Hn. rewrite <- Hl, <- length_concat_rows in Hn.
  rewrite decide_True by done. eexists. split; [reflexivity|].
  rewrite length_fmap, length_take. lia.
Qed.

Lemma M3dmapExtract_sig c d s :
  ∃ s', M3dmapExtract depth_at c d s = Some (tt, s') ∧
        clouds s' = clouds s ∧ ∀ id, sig s' id = sig s id.
Proof.
  unfold M3dmapExtract, sig.
  destruct (clouds s !! c) as [pts|]; [|by eexists].
  destruct (bufs s !! d) as [b|] eqn:Hb; [|by eexists].
  eexists. split; [reflexivity|]. split; [done|]. simpl.
  intros id. destruct (decide (id = d)) as [->|Hne].
  - rewrite lookup_insert_eq, Hb. simpl. unfold shape. simpl. do 2 f_equal.
    apply list_eq. intros i. rewrite !list_lookup_fmap, list_lookup_imap.
    destruct (buf_rows b !! i); simpl; [|done]. by rewrite length_imap.
  - by rewrite lookup_insert_ne.
Qed.

(** Convert of the chain of the process: defined on every frame whose mask
    fits, and shape-preserving. *)
Lemma process_chain_convert ProfileSize NbProfiles w f cal Data s :
  sig s (MilX w) = Some (F32, replicate NbProfiles ProfileSize) →
  sig s (MilZ w) = Some (F32, replicate NbProfiles ProfileSize) →
  sig s (MilX f) = Some (F32, [ProfileSize * NbProfiles]) →
  sig s (MilZ f) = Some (F32, [ProfileSize * NbProfiles]) →
  sig s (MilValidMask f) = Some (U8, [ProfileSize * NbProfiles]) →
  mask_fits (ProfileSize * NbProfiles) s Data →
  ∃ w' s',
    Convert (CDataConversionOp_
               (Some (CDataConversionToFlat (Some (CDataConversionToWorld None w cal)) f))
               CDataConversionApplyInvalid) Data s =
      Some ((CDataConversionOp_
               (Some (CDataConversionToFlat (Some (CDataConversionToWorld None w' cal)) f))
               CDataConversionApplyInvalid, f), s') ∧
    MilX w' = MilX w ∧ MilZ w' = MilZ w ∧
    clouds s' = clouds s ∧ ∀ id, sig s' id = sig s id.
Proof.
  intros Swx Swz Sfx Sfz Sfm Hmask.
  destruct (ToWorld_frame None w cal Data s None Data s (ConvertPrev_None _ _))
    as (s2 & E2 & C2 & _ & S2).
  set (up := with_MilValidMask w (MilValidMask Data)) in *.
  destruct (MbufGet_to_host_sig (MilX up) (MilX f) s2) as (s3 & E3 & C3 & S3).
  { simpl. rewrite !S2, Swx, Sfx. eexists. split; [reflexivity|].
    rewrite sum_list_replicate. simpl. lia. }
  destruct (MbufGet_to_host_sig (MilZ up) (MilZ f) s3) as (s4 & E4 & C4 & S4).
  { simpl. rewrite !S3, !S2, Swz, Sfz. eexists. split; [reflexivity|].
    rewrite sum_list_replicate. simpl. lia. }
  destruct (MbufGet_to_host_sig (MilValidMask up) (MilValidMask f) s4) as (s5 & E5 & C5 & S5).
  { simpl. rewrite !S4, !S3, !S2, Sfm. unfold mask_fits in Hmask.
    destruct (sig s (MilValidMask Data)) as [[t l]|]; [|done].
    destruct Hmask as [-> Hl]. eexists. split; [reflexivity|]. simpl. lia. }
  assert (EF : Convert (CDataConversionToFlat (Some (CDataConversionToWorld None w cal)) f) Data s
               = Some ((CDataConversionToFlat (Some (CDataConversionToWorld None up cal)) f, f), s5)).
  { rewrite Convert_ToFlat.
    rewrite (bindM_Some _ _ s (Some (CDataConversionToWorld None up cal), up) s2)
      by (rewrite ConvertPrev_Some, (bindM_Some _ _ _ _ _ E2); reflexivity).
    cbv beta iota.
    rewrite (bindM_Some _ _ _ _ _ E3), (bindM_Some _ _ _ _ _ E4), (bindM_Some _ _ _ _ _ E5).
    reflexivity. }
  destruct (ApplyInvalidMask_sig (MilX f) (MilValidMask f) s5) as (s6 & E6 & C6 & S6).
  destruct (ApplyInvalidMask_sig (MilZ f) (MilValidMask f) s6) as (s7 & E7 & C7 & S7).
  exists up, s7. split; [|split; [done|split; [done|split]]].
  - cbn [Convert].
    fold (ConvertPrev (Some (CDataConversionToFlat (Some (CDataConversionToWorld None w cal)) f)) Data).
    rewrite (bindM_Some _ _ s
               (Some (CDataConversionToFlat (Some (CDataConversionToWorld None up cal)) f), f) s5)
      by (rewrite ConvertPrev_Some, (bindM_Some _ _ _ _ _ EF); reflexivity).
    cbv beta iota. unfold ConvertOp.
    rewrite (bindM_Some _ _ s5 tt s7)
      by (rewrite (bindM_Some _ _ _ _ _ E6); exact E7).
    reflexivity.
  - congruence.
  - intros id. by rewrite S7, S6, S5, S4, S3, S2.
Qed.

(** One call to Process appends one batch of ProfileSize * NbProfiles points. *)
Lemma Process_appends ProfileSize NbProfiles p Data s pts :
  depth_map_process_ok ProfileSize NbProfiles s p →
  mask_fits (ProfileSize * NbProfiles) s Data →
  clouds s !! m_MilPointCloudContainer p = Some pts →
  ∃ p' s' batch,
    Process depth_at p Data s = Some (p', s') ∧
    depth_map_process_ok ProfileSize NbProfiles s' p' ∧
    (∀ id, sig s' id = sig s id) ∧
    m_MilPointCloudContainer p' = m_MilPointCloudContainer p ∧
    clouds s' !! m_MilPointCloudContainer p = Some (pts ++ batch) ∧
    length batch = ProfileSize * NbProfiles ∧
    m_NbFramesProcessed p' = (m_NbFramesProcessed p + 1)%Z.
Proof.
  intros (w & f & cal & Hconv & Hn & HY & Swx & Swz & Sfx & Sfz & Sfm & Hc) Hmask Hpts.
  destruct (process_chain_convert ProfileSize NbProfiles w f cal Data s
              Swx Swz Sfx Sfz Sfm Hmask) as (w' & s1 & E1 & Hwx & Hwz & C1 & S1).
  destruct (host_floats_sig (MilX f) (m_NbPoints (base p)) [ProfileSize * NbProfiles] s1)
    as (X & EX & LX); [by rewrite S1|simpl; lia|].
  destruct (host_floats_sig (MilZ f) (m_NbPoints (base p)) [ProfileSize * NbProfiles] s1)
    as (Z_ & EZ & LZ); [by rewrite S1|simpl; lia|].
  set (batch := (λ q, (1%Z, q)) <$>
                  zip3 (take (m_NbPoints (base p)) X)
                       (take (m_NbPoints (base p)) (m_ConvertedY p))
                       (take (m_NbPoints (base p)) Z_)).
  set (s2 := set_clouds (insert (m_MilPointCloudContainer p) (pts ++ batch)) s1).
  assert (EP : M3dmapPut (m_MilPointCloudContainer p) 1 (m_NbPoints (base p))
                 X (m_ConvertedY p) Z_ s1 = Some (tt, s2)).
  { unfold s2, batch, M3dmapPut, modify, set_clouds. by rewrite C1, Hpts. }
  destruct (M3dmapExtract_sig (m_MilPointCloudContainer p) (m_MilDepthMap p) s2)
    as (s3 & E3 & C3 & S3).
  eexists _, s3, batch. split.
  { unfold Process. rewrite Hconv.
    rewrite (bindM_Some _ _ _ _ _ E1). cbv beta iota.
    rewrite (bindM_Some _ _ _ _ _ EX), (bindM_Some _ _ _ _ _ EZ),
      (bindM_Some _ _ _ _ _ EP), (bindM_Some _ _ _ _ _ E3).
    reflexivity. }
  assert (Sall : ∀ id, sig s3 id = sig s id).
  { intros id. rewrite S3. change (sig s2 id) with (sig s1 id). apply S1. }
  assert (Cc : clouds s3 !! m_MilPointCloudContainer p = Some (pts ++ batch)).
  { rewrite C3. unfold s2. simpl. apply lookup_insert_eq. }
  split; [|split; [done|split; [done|split; [done|split; [|done]]]]].
  - exists w', f, cal. simpl. rewrite !Sall, Hwx, Hwz, Cc. by eauto 10.
  - unfold batch, zip3. rewrite length_fmap, !length_zip_with, !length_take. lia.
Qed.

Lemma ProcessAll_app p frames1 frames2 s :
  ProcessAll depth_at p (frames1 ++ frames2) s =
    (let* p' := ProcessAll depth_at p frames1 in ProcessAll depth_at p' frames2) s.
Proof.
  revert p s. induction frames1 as [|Data frames1 IH]; intros p s; simpl; [reflexivity|].
  unfold bindM. destruct (Process depth_at p Data s) as [[p1 s1]|]; [|reflexivity].
  rewrite IH. reflexivity.
Qed.

Lemma ProcessAll_appends ProfileSize NbProfiles frames p s pts :
  depth_map_process_ok ProfileSize NbProfiles s p →
  (∀ Data, Data ∈ frames → mask_fits (ProfileSize * NbProfiles) s Data) →
  clouds s !! m_MilPointCloudContainer p = Some pts →
  ∃ p' s' added,
    ProcessAll depth_at p frames s = Some (p', s') ∧
    depth_map_process_ok ProfileSize NbProfiles s' p' ∧
    (∀ id, sig s' id = sig s id) ∧
    m_MilPointCloudContainer p' = m_MilPointCloudContainer p ∧
    clouds s' !! m_MilPointCloudContainer p = Some (pts ++ added) ∧
    length added = length frames * (ProfileSize * NbProfiles) ∧
    m_NbFramesProcessed p' = (m_NbFramesProcessed p + Z.of_nat (length frames))%Z.
Proof.
  revert p s pts. induction frames as [|Data frames IH]; intros p s pts Hok Hfits Hpts.
  - exists p, s, []. simpl. rewrite app_nil_r. repeat split; try done. lia.
  - destruct (Process_appends ProfileSize NbProfiles p Data s pts Hok)
      as (p1 & s1 & batch & E1 & Hok1 & S1 & Hc1 & Hpts1 & Lb & Hn1);
      [apply Hfits; constructor|done|].
    destruct (IH p1 s1 (pts ++ batch) Hok1) as (p2 & s2 & added & E2 & Hok2 & S2 & Hc2 & Hpts2 & La & Hn2).
    { intros D HD. unfold mask_fits. rewrite S1. apply Hfits. by constructor. }
    { by rewrite Hc1. }
    exists p2, s2, (batch ++ added). simpl. rewrite (bindM_Some _ _ _ _ _ E1). split; [exact E2|].
    split; [done|]. split; [intros id; by rewrite S2, S1|]. split; [congruence|].
    split; [rewrite Hc1 in Hpts2; by rewrite app_assoc|].
    split; [rewrite length_app; lia|]. lia.
Qed.

(** C3: on a depth-map process as its constructor builds it, N calls to
    Process, on frames whose validity mask is absent or an 8-bit buffer of at
    most P = ProfileSize * NbProfiles pixels, all return, and leave exactly
    N * P points in the point-cloud container, which was empty; after the first
    k calls the container holds the first k * P of them, so that every call
    only appends.  (M3dmapPut is modelled from the spec.) *)
Theorem depth_map_accumulation sys cal range WorldPosY ConveyorSpeed
    ProfileSize NbProfiles s0 (frames : list SPData) :
  ∃ proc s1,
    new_CProfileDepthMapProcess sys cal range WorldPosY ConveyorSpeed
      ProfileSize NbProfiles s0 = Some (proc, s1) ∧
    clouds s1 !! m_MilPointCloudContainer proc = Some [] ∧
    ((∀ Data, Data ∈ frames → mask_fits (ProfileSize * NbProfiles) s1 Data) →
     ∃ proc' s' pts,
       ProcessAll depth_at proc frames s1 = Some (proc', s') ∧
       clouds s' !! m_MilPointCloudContainer proc = Some pts ∧
       length pts = length frames * (ProfileSize * NbProfiles) ∧
       m_NbFramesProcessed proc' = Z.of_nat (length frames) ∧
       ∀ k, k ≤ length frames →
         ∃ pk sk,
           ProcessAll depth_at proc (take k frames) s1 = Some (pk, sk) ∧
           clouds sk !! m_MilPointCloudContainer proc =
             Some (take (k * (ProfileSize * NbProfiles)) pts)).
Proof.
  destruct (new_CProfileDepthMapProcess_spec sys cal range WorldPosY ConveyorSpeed
              ProfileSize NbProfiles s0)
    as (w & f & c & d & s1 & E & Swx & Swz & Sfx & Sfz & Sfm & _ & Hc & _).
  match type of E with _ = Some (?p, _) => set (proc := p) in * end.
  assert (Hc' : clouds s1 !! m_MilPointCloudContainer proc = Some []) by exact Hc.
  clear Hc. rename Hc' into Hc.
  exists proc, s1. split; [exact E|]. split; [exact Hc|]. intros Hfits.
  assert (Hok : depth_map_process_ok ProfileSize NbProfiles s1 proc).
  { exists w, f, cal. unfold proc. simpl.
    destruct (create_Y_lookup WorldPosY ConveyorSpeed ProfileSize
      NbProfiles (replicate (ProfileSize * NbProfiles) (D_of_Z 0))) as [Hl _].
    rewrite length_replicate in Hl. unfold proc in Hc. simpl in Hc. rewrite Hc. by eauto 10. }
  destruct (ProcessAll_appends ProfileSize NbProfiles frames proc s1 [] Hok Hfits Hc)
    as (p' & s' & pts & EA & _ & _ & _ & Hpts & Lpts & Hn).
  exists p', s', pts. split; [exact EA|]. split; [exact Hpts|]. split; [exact Lpts|].
  split; [unfold proc in Hn; simpl in Hn; lia|].
  intros k Hk.
  destruct (ProcessAll_appends ProfileSize NbProfiles (take k frames) proc s1 [] Hok)
    as (pk & sk & ptsk & Ek & Hokk & Sk & Hck & Hptsk & Lk & _); [|exact Hc|].
  { intros D HD. apply Hfits. by apply (subseteq_take k frames). }
  exists pk, sk. split; [exact Ek|]. rewrite Hptsk. f_equal.
  rewrite length_take_le in Lk by done.
  destruct (ProcessAll_appends ProfileSize NbProfiles (drop k frames) pk sk ([] ++ ptsk) Hokk)
    as (p2 & s2 & rest & E2 & _ & _ & _ & Hpts2 & _ & _).
  { intros D HD. unfold mask_fits. rewrite Sk. apply Hfits. by apply (subseteq_drop k frames). }
  { by rewrite Hck. }
  assert (Eall : ProcessAll depth_at proc frames s1 = Some (p2, s2)).
  { rewrite <- (take_drop k frames) at 1. rewrite ProcessAll_app.
    by rewrite (bindM_Some _ _ _ _ _ Ek). }
  rewrite EA in Eall. injection Eall as Ep Es. subst p2 s2.
  rewrite Hck, Hpts in Hpts2. injection Hpts2 as Hsame.
  rewrite !app_nil_l in *. subst pts. by rewrite <- Lk, take_app_length.
Qed.

End Properties.

(** * Further properties: whole chains, lifecycle, the interface *)

Section MoreProperties.
Context `{FP : FloatProc}.
Variable depth_at : list (Z * Point3) → nat → nat → Z.
Implicit Types (s : MilState) (Data : SPData) (id : MIL_ID) (b : MilBuf).

Ltac list_incl :=
  let x := fresh "x" in let H := fresh "H" in
  intros x H;
  repeat (rewrite elem_of_app in H || rewrite elem_of_cons in H || rewrite elem_of_nil in H);
  repeat (rewrite elem_of_app || rewrite elem_of_cons || rewrite elem_of_nil); tauto.

Lemma writes_only_refl W s : writes_only W s s.
Proof. by split. Qed.

Lemma writes_only_trans W1 W2 W s1 s2 s3 :
  writes_only W1 s1 s2 → writes_only W2 s2 s3 →
  W1 ⊆ W → W2 ⊆ W → writes_only W s1 s3.
Proof.
  intros (S1 & F1) (S2 & F2) H1 H2. split.
  - intros id. by rewrite S2.
  - intros id Hid. rewrite F2, F1; [done| |]; intros Hin; apply Hid; auto.
Qed.

Lemma writes_only_mono W W' s s' : writes_only W s s' → W ⊆ W' → writes_only W' s s'.
Proof.
  intros H HW. eapply (writes_only_trans W [] W'); [exact H|apply writes_only_refl|done|].
  intros x Hx. by apply elem_of_nil in Hx.
Qed.


(** Induction along a chain, from its first stage. *)
Lemma chain_ind (P : CDataConversion → Prop) :
  (∀ c, (∀ p, m_pPrevConv c = Some p → P p) → P c) → ∀ c, P c.
Proof.
  intros H c. remember (stages c) as n eqn:E. revert c E.
  induction n as [n IH] using lt_wf_ind. intros c E. apply H. intros p Hp.
  apply (IH (stages p)); [|done]. subst n. destruct c; simpl in *; subst; simpl; lia.
Qed.

Lemma MimArith_writes Src1 Src2 Dst op s :
  ∃ s', MimArith Src1 Src2 Dst op s = Some (tt, s') ∧
        clouds s' = clouds s ∧ writes_only [Dst] s s'.
Proof.
  destruct (MimArith_frame Src1 Src2 Dst op s) as (s' & E & C & F & S).
  exists s'. split; [done|]. split; [done|]. split; [done|].
  intros id Hid. apply F. intros ->. apply Hid. by left.
Qed.

Lemma MimArith_writes_inv Src1 Src2 Dst op s r s' :
  MimArith Src1 Src2 Dst op s = Some (r, s') →
  clouds s' = clouds s ∧ writes_only [Dst] s s'.
Proof.
  destruct (MimArith_writes Src1 Src2 Dst op s) as (s2 & -> & C & W). by intros [= _ <-].
Qed.

Lemma ApplyInvalidMask_writes img mask s :
  ∃ s', ApplyInvalidMask img mask s = Some (tt, s') ∧
        clouds s' = clouds s ∧ writes_only [img] s s'.
Proof.
  destruct (ApplyInvalidMask_sig img mask s) as (s' & E & C & S).
  exists s'. split; [done|]. split; [done|]. split; [done|].
  intros id Hid. assert (id ≠ img) as Hne by (intros ->; apply Hid; by left).
  revert E. unfold ApplyInvalidMask, bindM, MbufInquire_MAX, MbufClearCond_EQUAL_0, modify.
  destruct (bufs s !! img) as [b|] eqn:Eb.
  - intros [= <-]. simpl. rewrite Eb. destruct (bufs s !! mask); [|done].
    by rewrite lookup_insert_ne.
  - intros [= <-]. simpl. rewrite Eb. by destruct (bufs s !! mask).
Qed.

Lemma MbufGet_to_host_writes Src Dst s r s' :
  MbufGet_to_host Src Dst s = Some (r, s') →
  clouds s' = clouds s ∧ writes_only [Dst] s s'.
Proof.
  unfold MbufGet_to_host. destruct (bufs s !! Src) as [src|] eqn:Es.
  2:{ intros [= _ <-]. split; [done|]. apply writes_only_refl. }
  destruct (bufs s !! Dst) as [dst|] eqn:Ed; [|done].
  case_decide as Hd; [|done]. destruct Hd as [Ht Hl]. intros [= _ <-].
  split; [done|]. split.
  - intros id. unfold sig. simpl. destruct (decide (id = Dst)) as [->|Hne].
    + rewrite lookup_insert_eq, Ed. simpl. f_equal. unfold shape. simpl. f_equal.
      apply unconcat_lengths. rewrite length_app, length_drop, <- length_concat_rows. lia.
    + by rewrite lookup_insert_ne.
  - intros id Hid. simpl. rewrite lookup_insert_ne; [done|]. intros ->. apply Hid. by left.
Qed.

Lemma bindM_inv {A B} (m : Mil A) (k : A → Mil B) s r s' :
  bindM m k s = Some (r, s') → ∃ a s1, m s = Some (a, s1) ∧ k a s1 = Some (r, s').
Proof. unfold bindM. destruct (m s) as [[a s1]|]; [|done]. intros H. by exists a, s1. Qed.

Lemma Convert_Op prev op Data :
  Convert (CDataConversionOp_ prev op) Data =
    (let* (prev', ConvertedData) := ConvertPrev prev Data in
     let* _ := ConvertOp op ConvertedData in
     ret (CDataConversionOp_ prev' op, ConvertedData)).
Proof. reflexivity. Qed.

(** What ConvertPrev returns, from what Convert of the predecessor returns. *)
Lemma ConvertPrev_inv (Q : CDataConversion → SPData → MilState → MilState → Prop)
    prev Data s r s1 :
  (∀ p, prev = Some p → ∀ r s', Convert p Data s = Some (r, s') →
        r = (after_Convert p Data, out_data p Data) ∧ Q p Data s s') →
  ConvertPrev prev Data s = Some (r, s1) →
  r = (match prev with Some p => Some (after_Convert p Data) | None => None end,
       match prev with Some p => out_data p Data | None => Data end) ∧
  match prev with Some p => Q p Data s s1 | None => s1 = s end.
Proof.
  intros IH. destruct prev as [p|].
  - rewrite ConvertPrev_Some. intros H. apply bindM_inv in H as ([p' d] & s2 & E & H).
    injection H as <- <-. destruct (IH p eq_refl _ _ E) as [[= -> ->] HQ]. done.
  - rewrite ConvertPrev_None. by intros [= <- <-].
Qed.

(** The object and the identifiers Convert returns do not depend on the
    store. *)
Lemma Convert_result c : ∀ Data s r s',
  Convert c Data s = Some (r, s') → r = (after_Convert c Data, out_data c Data).
Proof.
  induction c as [c IH] using chain_ind. intros Data s r s' H.
  assert (IHp : ∀ p, m_pPrevConv c = Some p → ∀ r s', Convert p Data s = Some (r, s') →
            r = (after_Convert p Data, out_data p Data) ∧ True).
  { intros p Hp r0 s0 E. split; [|done]. by eapply IH. }
  destruct c as [prev m v|prev d cal|prev d|prev op]; simpl in IHp.
  - rewrite Convert_AddMask in H. apply bindM_inv in H as ([p' u] & s1 & E & H).
    apply (ConvertPrev_inv (λ _ _ _ _, True)) in E as [[= -> ->] _]; [|done].
    apply bindM_inv in H as ([] & s2 & _ & H). by injection H as <- <-.
  - rewrite Convert_ToWorld in H. apply bindM_inv in H as ([p' u] & s1 & E & H).
    apply (ConvertPrev_inv (λ _ _ _ _, True)) in E as [[= -> ->] _]; [|done].
    apply bindM_inv in H as ([] & s2 & _ & H). apply bindM_inv in H as ([] & s3 & _ & H).
    apply bindM_inv in H as ([] & s4 & _ & H). apply bindM_inv in H as ([] & s5 & _ & H).
    by injection H as <- <-.
  - rewrite Convert_ToFlat in H. apply bindM_inv in H as ([p' u] & s1 & E & H).
    apply (ConvertPrev_inv (λ _ _ _ _, True)) in E as [[= -> ->] _]; [|done].
    apply bindM_inv in H as ([] & s2 & _ & H). apply bindM_inv in H as ([] & s3 & _ & H).
    apply bindM_inv in H as ([] & s4 & _ & H). by injection H as <- <-.
  - rewrite Convert_Op in H. apply bindM_inv in H as ([p' u] & s1 & E & H).
    apply (ConvertPrev_inv (λ _ _ _ _, True)) in E as [[= -> ->] _]; [|done].
    apply bindM_inv in H as ([] & s2 & _ & H). by injection H as <- <-.
Qed.

Lemma ConvertOp_writes op d s :
  builtin_op op →
  ∃ s', ConvertOp op d s = Some (tt, s') ∧
        clouds s' = clouds s ∧ writes_only (op_writes op d) s s'.
Proof.
  destruct op as [| | |f]; simpl; [..|done]; intros _.
  - apply MimArith_writes.
  - apply MimArith_writes.
  - destruct (ApplyInvalidMask_writes (MilX d) (MilValidMask d) s) as (s1 & E1 & C1 & W1).
    destruct (ApplyInvalidMask_writes (MilZ d) (MilValidMask d) s1) as (s2 & E2 & C2 & W2).
    exists s2. unfold bindM. rewrite E1. split; [done|]. split; [congruence|].
    eapply writes_only_trans; [exact W1|exact W2|..]; list_incl.
Qed.

Lemma ConvertOp_writes_inv op d s r s' :
  builtin_op op → ConvertOp op d s = Some (r, s') →
  clouds s' = clouds s ∧ writes_only (op_writes op d) s s'.
Proof.
  intros Hop. destruct (ConvertOp_writes op d s Hop) as (s2 & -> & C & W). by intros [= _ <-].
Qed.

Lemma builtin_prev c p : builtin c → m_pPrevConv c = Some p → builtin p.
Proof. destruct c; simpl; intros H ->; tauto. Qed.

Lemma flat_free_prev c p : flat_free c → m_pPrevConv c = Some p → flat_free p.
Proof. destruct c; simpl; intros H E; try done; by subst. Qed.

(** A call of Convert on a chain of the repository's classes keeps the
    containers, and writes the buffers of its footprint only. *)
Lemma Convert_footprint c : builtin c → ∀ Data s r s',
  Convert c Data s = Some (r, s') →
  clouds s' = clouds s ∧ writes_only (footprint c Data) s s'.
Proof.
  induction c as [c IH] using chain_ind. intros Hb Data s r s' H.
  set (Q := λ (p : CDataConversion) (Data : SPData) (s s' : MilState),
              clouds s' = clouds s ∧ writes_only (footprint p Data) s s').
  assert (IHp : ∀ p, m_pPrevConv c = Some p → ∀ r s', Convert p Data s = Some (r, s') →
            r = (after_Convert p Data, out_data p Data) ∧ Q p Data s s').
  { intros p Hp r0 s0 E. split; [by eapply Convert_result|].
    eapply IH; [done| |done]. by eapply builtin_prev. }
  assert (Hprev : ∀ prev s1, m_pPrevConv c = prev →
            match prev with Some p => Q p Data s s1 | None => s1 = s end →
            clouds s1 = clouds s ∧
            writes_only (match prev with Some p => footprint p Data | None => [] end) s s1).
  { intros [p|] s1 _; [done|]. intros ->. split; [done|]. apply writes_only_refl. }
  destruct c as [prev m v|prev d cal|prev d|prev op]; simpl in IHp, Hprev.
  - rewrite Convert_AddMask in H. apply bindM_inv in H as ([p' u] & s1 & E & H).
    apply (ConvertPrev_inv Q) in E as [[= -> ->] HQ]; [|done].
    apply Hprev in HQ as [C1 W1]; [|done].
    apply bindM_inv in H as ([] & s2 & E2 & H). injection H as _ <-.
    apply MimArith_writes_inv in E2 as [C2 W2].
    split; [congruence|]. simpl.
    eapply writes_only_trans; [exact W1|exact W2|..]; list_incl.
  - rewrite Convert_ToWorld in H. apply bindM_inv in H as ([p' u] & s1 & E & H).
    apply (ConvertPrev_inv Q) in E as [[= -> ->] HQ]; [|done].
    apply Hprev in HQ as [C1 W1]; [|done].
    apply bindM_inv in H as ([] & s2 & E2 & H). apply bindM_inv in H as ([] & s3 & E3 & H).
    apply bindM_inv in H as ([] & s4 & E4 & H). apply bindM_inv in H as ([] & s5 & E5 & H).
    injection H as _ <-.
    apply MimArith_writes_inv in E2 as [C2 W2]. apply MimArith_writes_inv in E3 as [C3 W3].
    apply MimArith_writes_inv in E4 as [C4 W4]. apply MimArith_writes_inv in E5 as [C5 W5].
    split; [congruence|]. simpl.
    eapply writes_only_trans; [exact W1| |list_incl|reflexivity].
    eapply writes_only_trans; [exact W2| |list_incl|reflexivity].
    eapply writes_only_trans; [exact W3| |list_incl|reflexivity].
    eapply writes_only_trans; [exact W4|exact W5|..]; list_incl.
  - rewrite Convert_ToFlat in H. apply bindM_inv in H as ([p' u] & s1 & E & H).
    apply (ConvertPrev_inv Q) in E as [[= -> ->] HQ]; [|done].
    apply Hprev in HQ as [C1 W1]; [|done].
    apply bindM_inv in H as ([] & s2 & E2 & H). apply bindM_inv in H as ([] & s3 & E3 & H).
    apply bindM_inv in H as ([] & s4 & E4 & H). injection H as _ <-.
    apply MbufGet_to_host_writes in E2 as [C2 W2].
    apply MbufGet_to_host_writes in E3 as [C3 W3].
    apply MbufGet_to_host_writes in E4 as [C4 W4].
    split; [congruence|]. simpl.
    eapply writes_only_trans; [exact W1| |list_incl|reflexivity].
    eapply writes_only_trans; [exact W2| |list_incl|reflexivity].
    eapply writes_only_trans; [exact W3|exact W4|..]; list_incl.
  - rewrite Convert_Op in H. apply bindM_inv in H as ([p' u] & s1 & E & H).
    apply (ConvertPrev_inv Q) in E as [[= -> ->] HQ]; [|done].
    apply Hprev in HQ as [C1 W1]; [|done].
    apply bindM_inv in H as ([] & s2 & E2 & H). injection H as _ <-.
    destruct Hb as [Hop _].
    apply ConvertOp_writes_inv in E2 as [C2 W2]; [|done].
    split; [congruence|]. simpl.
    eapply writes_only_trans; [exact W1|exact W2|..]; list_incl.
Qed.

(** Without a CDataConversionToFlat stage every call of Convert returns. *)
Lemma Convert_total c : builtin c → flat_free c → ∀ Data s, is_Some (Convert c Data s).
Proof.
  induction c as [c IH] using chain_ind. intros Hb Hf Data s.
  assert (Hprev : ∀ prev, m_pPrevConv c = prev → is_Some (ConvertPrev prev Data s)).
  { intros [p|] Hp; [|done]. rewrite ConvertPrev_Some.
    destruct (IH p Hp (builtin_prev _ _ Hb Hp) (flat_free_prev _ _ Hf Hp) Data s)
      as [[[p' d] s1] E].
    unfold bindM. by rewrite E. }
  destruct c as [prev m v|prev d cal|prev d|prev op]; simpl in Hprev.
  - rewrite Convert_AddMask. destruct (Hprev prev eq_refl) as [[[p' u] s1] E].
    unfold bindM at 1. rewrite E.
    destruct (MimArith_writes (Img (MilZ u)) (Const v) m (M_NOT_EQUAL_CONST, M_DEFAULT_PROC) s1)
      as (s2 & E2 & _). unfold bindM. by rewrite E2.
  - destruct (Hprev prev eq_refl) as [[[p' u] s1] E].
    destruct (ToWorld_frame prev d cal Data s p' u s1 E) as (s2 & -> & _). done.
  - done.
  - rewrite Convert_Op. destruct (Hprev prev eq_refl) as [[[p' u] s1] E].
    unfold bindM at 1. rewrite E. destruct Hb as [Hop _].
    destruct (ConvertOp_writes op u s1 Hop) as (s2 & E2 & _). unfold bindM. by rewrite E2.
Qed.


Lemma builtin_after_Convert c : ∀ Data, builtin c → builtin (after_Convert c Data).
Proof.
  induction c as [c IH] using chain_ind. intros Data.
  destruct c as [[p|] m v|[p|] d cal|[p|] d|[p|] op]; simpl; try done;
    try (apply (IH p eq_refl)).
  intros [? ?]. split; [done|]. by apply (IH p eq_refl).
Qed.




(** ** Destructors *)

Ltac mem_cases :=
  repeat case_decide; try done; exfalso;
  repeat match goal with H : context [_ ∈ _ :: _] |- _ => rewrite elem_of_cons in H end;
  tauto.

Lemma lookup_set_delete id j s :
  bufs (set_bufs (delete j) s) !! id = if decide (id = j) then None else bufs s !! id.
Proof.
  simpl. case_decide as H; [subst; apply lookup_delete_eq|by apply lookup_delete_ne].
Qed.

Lemma ReleaseData_spec d s :
  MilX d ≠ M_NULL → MilZ d ≠ M_NULL →
  ReleaseData d s = Some (tt, set_bufs (delete (MilZ d)) (set_bufs (delete (MilX d)) s)).
Proof.
  intros HX HZ. unfold ReleaseData, bindM. rewrite decide_False by done.
  unfold MbufFree, modify. by rewrite decide_False by done.
Qed.

Lemma ReleaseMask_spec d s :
  MilValidMask d ≠ M_NULL → ReleaseMask d s = Some (tt, set_bufs (delete (MilValidMask d)) s).
Proof. intros H. unfold ReleaseMask. by rewrite decide_False by done. Qed.

(** Deleting a chain frees the buffers its stages allocated and nothing
    else. *)
Lemma delete_CDataConversion_spec c : ∀ s,
  M_NULL ∉ owned c →
  ∃ s', delete_CDataConversion c s = Some (tt, s') ∧
        clouds s' = clouds s ∧
        ∀ id, bufs s' !! id = if decide (id ∈ owned c) then None else bufs s !! id.
Proof.
  induction c as [c IH] using chain_ind. intros s Hnull.
  assert (Hprev : ∀ prev, m_pPrevConv c = prev → ∀ s,
            M_NULL ∉ match prev with Some p => owned p | None => [] end →
            ∃ s', match prev with Some p => delete_CDataConversion p | None => ret tt end s =
                    Some (tt, s') ∧
                  clouds s' = clouds s ∧
                  ∀ id, bufs s' !! id =
                    if decide (id ∈ match prev with Some p => owned p | None => [] end)
                    then None else bufs s !! id).
  { intros [p|] Hp s0 H0; [by apply IH|]. exists s0. split; [done|]. split; [done|].
    intros id. rewrite decide_False; [done|]. apply not_elem_of_nil. }
  destruct c as [prev m v|prev d cal|prev d|prev op]; simpl in Hprev, Hnull;
    specialize (Hprev prev eq_refl); simpl.
  - apply not_elem_of_cons in Hnull as [Hm Hnull].
    destruct (Hprev (set_bufs (delete m) s) Hnull) as (s' & E & C & L).
    exists s'. unfold bindM, MbufFree, modify. split; [exact E|]. split; [done|].
    intros id. rewrite L, lookup_set_delete.
    mem_cases.
  - apply not_elem_of_cons in Hnull as [HX Hnull].
    apply not_elem_of_cons in Hnull as [HZ Hnull].
    destruct (Hprev (set_bufs (delete (MilZ d)) (set_bufs (delete (MilX d)) s)) Hnull)
      as (s' & E & C & L).
    exists s'. unfold bindM. rewrite ReleaseData_spec by done.
    split; [exact E|]. split; [done|].
    intros id. rewrite L, !lookup_set_delete.
    mem_cases.
  - apply not_elem_of_cons in Hnull as [HX Hnull].
    apply not_elem_of_cons in Hnull as [HZ Hnull].
    apply not_elem_of_cons in Hnull as [HM Hnull].
    destruct (Hprev (set_bufs (delete (MilZ d)) (set_bufs (delete (MilX d))
                (set_bufs (delete (MilValidMask d)) s))) Hnull) as (s' & E & C & L).
    exists s'. unfold bindM. rewrite ReleaseMask_spec by done.
    rewrite ReleaseData_spec by done.
    split; [exact E|]. split; [done|].
    intros id. rewrite L, !lookup_set_delete.
    mem_cases.
  - by apply Hprev.
Qed.


(** ** The depth-map process: what it writes *)

Lemma host_floats_state id n s r s' : host_floats id n s = Some (r, s') → s' = s.
Proof.
  unfold host_floats. destruct (bufs s !! id); [|done]. case_decide; [|done].
  by intros [= _ <-].
Qed.

Lemma M3dmapPut_frame c l n X Y Z s r s' :
  M3dmapPut c l n X Y Z s = Some (r, s') →
  bufs s' = bufs s ∧ (∀ k, k ≠ c → clouds s' !! k = clouds s !! k).
Proof.
  intros [= _ <-]. split; [done|]. intros k Hk. simpl.
  destruct (clouds s !! c); [|done]. by rewrite lookup_insert_ne.
Qed.

Lemma M3dmapExtract_writes c d s r s' :
  M3dmapExtract depth_at c d s = Some (r, s') →
  clouds s' = clouds s ∧ writes_only [d] s s'.
Proof.
  intros H. destruct (M3dmapExtract_sig depth_at c d s) as (s2 & E & C & S).
  rewrite E in H. injection H as _ <-. split; [done|]. split; [done|].
  intros id Hid. assert (id ≠ d) as Hne by (intros ->; apply Hid; by left).
  revert E. unfold M3dmapExtract. destruct (clouds s !! c); [|by intros [= <-]].
  destruct (bufs s !! d); [|by intros [= <-]].
  intros [= <-]. simpl. by rewrite lookup_insert_ne.
Qed.

(** Process writes the depth map and what its chain writes, and changes no
    container but its own. *)
Lemma Process_footprint p conv Data s p' s' :
  m_pProcessProfileDataConversion (base p) = Some conv → builtin conv →
  Process depth_at p Data s = Some (p', s') →
  m_pProcessProfileDataConversion (base p') = Some (after_Convert conv Data) ∧
  m_MilDepthMap p' = m_MilDepthMap p ∧
  m_MilPointCloudContainer p' = m_MilPointCloudContainer p ∧
  writes_only (m_MilDepthMap p :: footprint conv Data) s s' ∧
  (∀ k, k ≠ m_MilPointCloudContainer p → clouds s' !! k = clouds s !! k).
Proof.
  intros Hc Hb. unfold Process. rewrite Hc. intros H.
  apply bindM_inv in H as ([conv' d] & s1 & E1 & H).
  pose proof (Convert_result _ _ _ _ _ E1) as [= -> ->].
  apply Convert_footprint in E1 as [C1 W1]; [|done].
  apply bindM_inv in H as (X & s2 & E2 & H). apply host_floats_state in E2 as ->.
  apply bindM_inv in H as (Z & s3 & E3 & H). apply host_floats_state in E3 as ->.
  apply bindM_inv in H as ([] & s4 & E4 & H). apply M3dmapPut_frame in E4 as [B4 C4].
  apply bindM_inv in H as ([] & s5 & E5 & H). apply M3dmapExtract_writes in E5 as [C5 W5].
  injection H as <- <-. simpl. split; [done|]. split; [done|]. split; [done|]. split.
  - eapply (writes_only_trans _ [m_MilDepthMap p]); [exact W1| |list_incl|list_incl].
    destruct W5 as [S5 F5]. unfold writes_only, sig in *. split.
    + intros id. rewrite S5. by rewrite B4.
    + intros id Hid. rewrite F5 by done. by rewrite B4.
  - intros k Hk. rewrite C5, C4 by done. by rewrite C1.
Qed.

Lemma ProcessAll_footprint frames : ∀ p w f cal s p' s',
  m_pProcessProfileDataConversion (base p) = Some (profile_chain w f cal) →
  ProcessAll depth_at p frames s = Some (p', s') →
  (∃ w', m_pProcessProfileDataConversion (base p') = Some (profile_chain w' f cal) ∧
         MilX w' = MilX w ∧ MilZ w' = MilZ w) ∧
  m_MilDepthMap p' = m_MilDepthMap p ∧
  m_MilPointCloudContainer p' = m_MilPointCloudContainer p ∧
  writes_only (resources p) s s' ∧
  (∀ k, k ≠ m_MilPointCloudContainer p → clouds s' !! k = clouds s !! k).
Proof.
  induction frames as [|Data frames IH]; intros p w f cal s p' s' Hc H.
  - injection H as <- <-. split; [by exists w|]. split; [done|]. split; [done|].
    split; [apply writes_only_refl|done].
  - simpl in H. apply bindM_inv in H as (p1 & s1 & E1 & H).
    destruct (Process_footprint p _ Data s p1 s1 Hc) as (Hc1 & Hd1 & Hk1 & W1 & C1);
      [simpl; tauto|done|].
    destruct (IH p1 _ f cal s1 p' s' Hc1 H) as ((w' & Hc' & HX & HZ) & Hd & Hk & W & C).
    split; [by exists w'|]. split; [congruence|]. split; [congruence|]. split.
    + eapply writes_only_trans; [exact W1|exact W|..].
      * unfold resources. rewrite Hc. simpl. list_incl.
      * unfold resources. rewrite Hc1, Hc, Hd1. simpl. list_incl.
    + intros k Hne. rewrite C, C1; [done..|]. by rewrite Hk1.
Qed.

(** ** Construction and lifecycle of the depth-map process *)

Lemma map_replicate {A B} (g : A → B) n (x : A) : map g (replicate n x) = replicate n (g x).
Proof. induction n as [|n IH]; simpl; [done|by rewrite IH]. Qed.

Lemma store_const_65535 : store_const U16 (D_of_Z 65535) = PInt 65535.
Proof. simpl. rewrite D_to_of_Z_small by lia. reflexivity. Qed.

(** The constructor of the depth-map process allocates six buffers and one
    container that were not in use, all different, clears the depth map to
    65535, and leaves the rest of the store as it was. *)
Lemma new_CProfileDepthMapProcess_fresh sys cal range y0 speed ProfileSize NbProfiles s proc s' :
  new_CProfileDepthMapProcess sys cal range y0 speed ProfileSize NbProfiles s =
    Some (proc, s') →
  (∃ w f, m_pProcessProfileDataConversion (base proc) = Some (profile_chain w f cal)) ∧
  NoDup (resources proc) ∧
  (∀ id, id ∈ resources proc → id ≠ M_NULL ∧ bufs s !! id = None) ∧
  (∀ id, id ∈ resources proc → is_Some (bufs s' !! id)) ∧
  (∀ id, id ∉ resources proc → bufs s' !! id = bufs s !! id) ∧
  (m_MilPointCloudContainer proc ∉ resources proc) ∧
  clouds s !! m_MilPointCloudContainer proc = None ∧
  clouds s' = <[m_MilPointCloudContainer proc := []]> (clouds s) ∧
  bufs s' !! m_MilDepthMap proc =
    Some {| buf_type := U16;
            buf_rows := replicate NbProfiles (replicate ProfileSize (PInt 65535)) |}.
Proof.
  unfold new_CProfileDepthMapProcess, new_CProfile3dPointsProcess,
    new_CDataConversionToWorld, new_CDataConversionToFlat, MbufAlloc1d, bindM, ret.
  cbv beta iota zeta. cbn [m_pProcessProfileDataConversion new_CProfileProcess m_NbPoints m_PCal].
  destruct (MbufAlloc2d_spec sys ProfileSize NbProfiles F32 s)
    as (wx & E1 & Z1 & N1 & _). rewrite E1.
  destruct (MbufAlloc2d_spec sys ProfileSize NbProfiles F32
              (set_bufs (insert wx (alloc_buf F32 ProfileSize NbProfiles)) s))
    as (wz & E2 & Z2 & N2 & _). rewrite E2.
  match type of E2 with _ = Some (_, ?t) => set (s2 := t) in * end.
  destruct (MbufAlloc2d_spec sys (ProfileSize * NbProfiles) 1 F32 s2)
    as (fx & E3 & Z3 & N3 & _). rewrite E3.
  match type of E3 with _ = Some (_, ?t) => set (s3 := t) in * end.
  destruct (MbufAlloc2d_spec sys (ProfileSize * NbProfiles) 1 F32 s3)
    as (fz & E4 & Z4 & N4 & _). rewrite E4.
  match type of E4 with _ = Some (_, ?t) => set (s4 := t) in * end.
  destruct (MbufAlloc2d_spec sys (ProfileSize * NbProfiles) 1 U8 s4)
    as (fm & E5 & Z5 & N5 & _). rewrite E5.
  match type of E5 with _ = Some (_, ?t) => set (s5 := t) in * end.
  unfold M3dmapAllocResult.
  destruct (fresh_id_spec s5) as (_ & Nc & Hc).
  set (c := fresh_id s5) in *.
  destruct (MbufAlloc2d_spec sys ProfileSize NbProfiles U16 (set_clouds (insert c []) s5))
    as (d & E6 & Z6 & N6 & K6). rewrite E6.
  unfold MbufClear, modify. intros [= <- <-].
  subst s5 s4 s3 s2. simpl in *.
  repeat rewrite lookup_insert_None in N2. repeat rewrite lookup_insert_None in N3.
  repeat rewrite lookup_insert_None in N4. repeat rewrite lookup_insert_None in N5.
  repeat rewrite lookup_insert_None in N6. repeat rewrite lookup_insert_None in Nc.
  rewrite lookup_insert_None in K6.
  rewrite lookup_insert_eq.
  clear E1 E2 E3 E4 E5 E6. destruct_and!.
  split; [by eexists _, _|]. unfold resources. simpl.
  split; [|split; [|split; [|split; [|split; [|split; [|split]]]]]].
  - repeat (apply NoDup_cons_2;
              [repeat rewrite not_elem_of_cons; repeat split;
               (congruence || apply not_elem_of_nil)|]).
    apply NoDup_nil_2.
  - intros id Hid. repeat rewrite elem_of_cons in Hid. rewrite elem_of_nil in Hid.
    repeat destruct Hid as [->|Hid]; done.
  - intros id Hid. repeat rewrite elem_of_cons in Hid. rewrite elem_of_nil in Hid.
    repeat destruct Hid as [->|Hid]; [..|done];
      repeat (rewrite lookup_insert_eq || rewrite lookup_insert_ne by congruence); done.
  - intros id Hid. repeat rewrite not_elem_of_cons in Hid. destruct_and!.
    by rewrite !lookup_insert_ne by congruence.
  - repeat rewrite not_elem_of_cons. repeat split; (congruence || apply not_elem_of_nil).
  - done.
  - done.
  - rewrite lookup_insert_eq. f_equal. unfold alloc_buf. simpl. f_equal.
    rewrite map_replicate, map_replicate. by rewrite D_to_of_Z_small by lia.
Qed.

Lemma delete_CProfileDepthMapProcess_spec p w f cal s :
  m_pProcessProfileDataConversion (base p) = Some (profile_chain w f cal) →
  M_NULL ∉ resources p →
  ∃ s', delete_CProfileDepthMapProcess p s = Some (tt, s') ∧
        clouds s' = delete (m_MilPointCloudContainer p) (clouds s) ∧
        ∀ id, bufs s' !! id = if decide (id ∈ resources p) then None else bufs s !! id.
Proof.
  intros Hc Hnull. unfold resources in *. rewrite Hc in *.
  apply not_elem_of_cons in Hnull as [Hd Hnull].
  unfold delete_CProfileDepthMapProcess, delete_CProfileProcess, bindM, MbufFree, M3dmapFree,
    modify. rewrite Hc.
  destruct (delete_CDataConversion_spec (profile_chain w f cal)
              (set_clouds (delete (m_MilPointCloudContainer p))
                 (set_bufs (delete (m_MilDepthMap p)) s)) Hnull) as (s' & E & C & L).
  exists s'. split; [exact E|]. split; [by rewrite C|].
  intros id. rewrite L.
  change (bufs (set_clouds _ ?t) !! id) with (bufs t !! id).
  rewrite lookup_set_delete. mem_cases.
Qed.

(** X3: the depth-map process gives back what it takes.  Its constructor,
    any number of frames processed, then its destructor leave every buffer and
    every container of the store exactly as before the constructor: the six
    buffers and the container of the process are freed, no buffer of a frame
    is written or freed, and no other object is touched. *)
Theorem depth_map_process_lifecycle sys cal range WorldPosY ConveyorSpeed
    ProfileSize NbProfiles s0 (frames : list SPData) :
  ∃ proc s1,
    new_CProfileDepthMapProcess sys cal range WorldPosY ConveyorSpeed
      ProfileSize NbProfiles s0 = Some (proc, s1) ∧
    ((∀ Data, Data ∈ frames → mask_fits (ProfileSize * NbProfiles) s1 Data) →
     ∃ proc' s2 s3,
       ProcessAll depth_at proc frames s1 = Some (proc', s2) ∧
       (∀ id, id ∉ resources proc → bufs s2 !! id = bufs s0 !! id) ∧
       delete_CProfileDepthMapProcess proc' s2 = Some (tt, s3) ∧
       bufs s3 = bufs s0 ∧ clouds s3 = clouds s0).
Proof.
  destruct (new_CProfileDepthMapProcess_spec sys cal range WorldPosY ConveyorSpeed
              ProfileSize NbProfiles s0)
    as (w & f & c & d & s1 & E & Swx & Swz & Sfx & Sfz & Sfm & _ & Hc & _).
  match type of E with _ = Some (?p, _) => set (proc := p) in * end.
  assert (Hc' : clouds s1 !! m_MilPointCloudContainer proc = Some []) by exact Hc.
  clear Hc. rename Hc' into Hc.
  exists proc, s1. split; [exact E|]. intros Hfits.
  assert (Hok : depth_map_process_ok ProfileSize NbProfiles s1 proc).
  { exists w, f, cal. unfold proc. simpl.
    destruct (create_Y_lookup WorldPosY ConveyorSpeed ProfileSize
      NbProfiles (replicate (ProfileSize * NbProfiles) (D_of_Z 0))) as [Hl _].
    rewrite length_replicate in Hl. unfold proc in Hc. simpl in Hc. rewrite Hc. by eauto 10. }
  destruct (ProcessAll_appends depth_at ProfileSize NbProfiles frames proc s1 [] Hok Hfits Hc)
    as (p' & s2 & pts & EA & _).
  destruct (new_CProfileDepthMapProcess_fresh _ _ _ _ _ _ _ _ _ _ E)
    as (_ & Hnd & Hfresh & _ & Hkeep & Hcr & Hc0 & Hc1 & _).
  assert (Hch : m_pProcessProfileDataConversion (base proc) = Some (profile_chain w f cal))
    by reflexivity.
  destruct (ProcessAll_footprint frames proc w f cal s1 p' s2 Hch EA)
    as ((w' & Hch' & HX & HZ) & Hd' & Hk' & [_ W] & C).
  assert (Hres : resources p' = resources proc).
  { unfold resources. rewrite Hch', Hch, Hd'. simpl. by rewrite HX, HZ. }
  destruct (delete_CProfileDepthMapProcess_spec p' w' f cal s2 Hch') as (s3 & ED & CD & LD).
  { rewrite Hres. intros Hin. by destruct (Hfresh _ Hin). }
  exists p', s2, s3. split; [exact EA|]. split; [|split; [exact ED|split]].
  - intros id Hid. rewrite W by done. by apply Hkeep.
  - apply map_eq. intros id. rewrite LD, Hres. case_decide as Hin.
    + symmetry. by apply Hfresh.
    + rewrite W by done. by apply Hkeep.
  - apply map_eq. intros k. rewrite CD, Hk'.
    destruct (decide (k = m_MilPointCloudContainer proc)) as [->|Hne].
    + by rewrite lookup_delete_eq.
    + rewrite lookup_delete_ne, C, Hc1 by done. by rewrite lookup_insert_ne.
Qed.

(** X8: the constructor of the depth-map process always returns, with a
    process ready for its first frame: its chain is calibration, flatten,
    invalid masking over five new buffers of the sizes of a frame; its depth
    map is a new buffer of ProfileSize x NbProfiles pixels, all 65535; its
    container is new and empty; the seven objects are different from each
    other and from M_NULL, none was in the store, and the buffers and
    containers that were in the store are as they were. *)
Theorem depth_map_process_construction sys cal range WorldPosY ConveyorSpeed
    ProfileSize NbProfiles s :
  ∃ proc s' w f,
    new_CProfileDepthMapProcess sys cal range WorldPosY ConveyorSpeed
      ProfileSize NbProfiles s = Some (proc, s') ∧
    m_pProcessProfileDataConversion (base proc) = Some (profile_chain w f cal) ∧
    m_NbFramesProcessed proc = 0%Z ∧
    depth_map_process_ok ProfileSize NbProfiles s' proc ∧
    NoDup (m_MilPointCloudContainer proc :: resources proc) ∧
    (∀ id, id ∈ resources proc → id ≠ M_NULL ∧ bufs s !! id = None) ∧
    clouds s !! m_MilPointCloudContainer proc = None ∧
    (∀ id, id ∉ resources proc → bufs s' !! id = bufs s !! id) ∧
    clouds s' = <[m_MilPointCloudContainer proc := []]> (clouds s) ∧
    sig s' (m_MilDepthMap proc) = Some (U16, replicate NbProfiles ProfileSize) ∧
    (∀ x y, x < ProfileSize → y < NbProfiles →
       pix_at s' (m_MilDepthMap proc) x y = Some (PInt 65535)).
Proof.
  destruct (new_CProfileDepthMapProcess_spec sys cal range WorldPosY ConveyorSpeed
              ProfileSize NbProfiles s)
    as (w & f & c & d & s' & E & Swx & Swz & Sfx & Sfz & Sfm & _ & Hc & _).
  match type of E with _ = Some (?p, _) => set (proc := p) in * end.
  destruct (new_CProfileDepthMapProcess_fresh _ _ _ _ _ _ _ _ _ _ E)
    as (_ & Hnd & Hfresh & _ & Hkeep & Hcr & Hc0 & Hc1 & Hd).
  exists proc, s', w, f. split; [exact E|]. split; [reflexivity|]. split; [reflexivity|].
  split; [|split; [|split; [exact Hfresh|split; [exact Hc0|split; [exact Hkeep|split;
    [exact Hc1|split]]]]]].
  - exists w, f, cal. unfold proc. simpl.
    destruct (create_Y_lookup WorldPosY ConveyorSpeed ProfileSize
      NbProfiles (replicate (ProfileSize * NbProfiles) (D_of_Z 0))) as [Hl _].
    rewrite length_replicate in Hl. rewrite Hc. by eauto 10.
  - by apply NoDup_cons_2.
  - unfold sig. rewrite Hd. simpl. unfold shape. simpl.
    by rewrite fmap_replicate, length_replicate.
  - intros x y Hx Hy. unfold pix_at. rewrite Hd. simpl. unfold pix. simpl.
    rewrite lookup_replicate_2 by done. simpl. by rewrite lookup_replicate_2.
Qed.

(** ** The interface object *)

Lemma BuildDigitizerDataConversion_spec sys SizeX SizeY fp fd s :
  ∃ m, BuildDigitizerDataConversion sys SizeX SizeY fp fd None s =
         Some (Some (digitizer_chain m fp fd),
               set_bufs (insert m (alloc_buf U8 SizeX SizeY)) s) ∧
       m ≠ M_NULL ∧ bufs s !! m = None ∧ clouds s !! m = None.
Proof.
  unfold BuildDigitizerDataConversion, new_CDataConversionAddMask, bindM.
  destruct (MbufAlloc2d_spec sys SizeX SizeY U8 s) as (m & E & Hm). rewrite E.
  exists m. split; [|exact Hm]. unfold digitizer_chain. by destruct fp, fd.
Qed.

Lemma digitizer_chain_facts m fp fd Data :
  builtin (digitizer_chain m fp fd) ∧ flat_free (digitizer_chain m fp fd) ∧
  owned (digitizer_chain m fp fd) = [m] ∧
  after_Convert (digitizer_chain m fp fd) Data = digitizer_chain m fp fd ∧
  out_data (digitizer_chain m fp fd) Data = with_MilValidMask Data m ∧
  footprint (digitizer_chain m fp fd) Data ⊆ [m; MilX Data; MilZ Data].
Proof.
  destruct fp, fd; simpl; repeat split; try done; list_incl.
Qed.

Lemma MbufChild2d_spec g ox oy sx sy s :
  ∃ z s1, MbufChild2d g ox oy sx sy s = Some (z, s1) ∧
          clouds s1 = clouds s ∧
          (∀ id, id ≠ z → bufs s1 !! id = bufs s !! id) ∧
          (z ≠ M_NULL → bufs s !! z = None) ∧
          (z = M_NULL → s1 = s).
Proof.
  unfold MbufChild2d. destruct (bufs s !! g) as [b|].
  - destruct (fresh_id_spec s) as (Hz & Hb & _).
    eexists _, _. split; [reflexivity|]. split; [done|]. split; [|split; [done|done]].
    intros id Hid. simpl. by rewrite lookup_insert_ne.
  - exists M_NULL, s. by repeat split.
Qed.

Lemma ReleaseData_lookup d s :
  ∃ s', ReleaseData d s = Some (tt, s') ∧ clouds s' = clouds s ∧
        ∀ id, bufs s' !! id =
              if decide ((id = MilX d ∧ MilX d ≠ M_NULL) ∨ (id = MilZ d ∧ MilZ d ≠ M_NULL))
              then None else bufs s !! id.
Proof.
  unfold ReleaseData, bindM, MbufFree, modify, ret.
  destruct (decide (MilX d = M_NULL)) as [HX|HX];
    destruct (decide (MilZ d = M_NULL)) as [HZ|HZ];
    eexists; (split; [reflexivity|]); (split; [done|]); intros id;
    rewrite ?lookup_set_delete; repeat case_decide; try done; exfalso; tauto.
Qed.

Lemma MbufChild2d_sig g ox oy sx sy s z s1 :
  MbufChild2d g ox oy sx sy s = Some (z, s1) →
  clouds s1 = clouds s ∧
  (∀ id, id ≠ z → bufs s1 !! id = bufs s !! id) ∧
  (z ≠ M_NULL → bufs s !! z = None) ∧
  (z = M_NULL → s1 = s) ∧
  (∀ id x, sig s id = Some x → sig s1 id = Some x).
Proof.
  intros H. destruct (MbufChild2d_spec g ox oy sx sy s) as (z' & s1' & E & C & K & N & Z).
  rewrite E in H. injection H as -> ->. split; [done|]. split; [done|]. split; [done|].
  split; [done|]. intros id x Hid. destruct (decide (z = M_NULL)) as [Hz|Hz].
  - by rewrite (Z Hz).
  - unfold sig in *. rewrite K; [done|]. intros ->. by rewrite (N Hz) in Hid.
Qed.

Lemma depth_map_process_ok_mono ProfileSize NbProfiles s s' p :
  depth_map_process_ok ProfileSize NbProfiles s p →
  (∀ id x, sig s id = Some x → sig s' id = Some x) →
  clouds s' = clouds s →
  depth_map_process_ok ProfileSize NbProfiles s' p.
Proof.
  intros (w & f & cal & Hc & Hn & Hl & S1 & S2 & S3 & S4 & S5 & Hk) Hs Hcl.
  exists w, f, cal. rewrite Hcl. split_and!; auto.
Qed.

(** One call of the hook on an interface object that is well formed. *)
Lemma MilInterface_step ProfileSize NbProfiles m fp fd self g s pts :
  interface_ok ProfileSize NbProfiles m fp fd s self →
  clouds s !! m_MilPointCloudContainer (m_pProfileProcess self) = Some pts →
  ∃ self' s' batch,
    MilInterface (Process depth_at) self g s = Some ((self', 0%Z), s') ∧
    interface_ok ProfileSize NbProfiles m fp fd s' self' ∧
    resources (m_pProfileProcess self') = resources (m_pProfileProcess self) ∧
    m_MilPointCloudContainer (m_pProfileProcess self') =
      m_MilPointCloudContainer (m_pProfileProcess self) ∧
    (∀ id, sig s' id = sig s id) ∧
    (∀ id, id ∉ M_NULL :: m :: resources (m_pProfileProcess self) →
           bufs s' !! id = bufs s !! id) ∧
    clouds s' !! m_MilPointCloudContainer (m_pProfileProcess self) = Some (pts ++ batch) ∧
    length batch = ProfileSize * NbProfiles ∧
    (∀ k, k ≠ m_MilPointCloudContainer (m_pProfileProcess self) →
          clouds s' !! k = clouds s !! k).
Proof.
  intros (Hdc & Sm & Hsize & Hok) Hpts.
  set (proc := m_pProfileProcess self) in *.
  unfold MilInterface.
  destruct (MbufChild2d_spec g 0 0 (m_SizeX self) (m_SizeY self) s) as (z & s1 & Ez & _).
  destruct (MbufChild2d_spec g (m_SizeX self) 0 (m_SizeX self) (m_SizeY self) s1)
    as (x & s2 & Ex & _).
  rewrite (bindM_Some _ _ _ _ _ Ez), (bindM_Some _ _ _ _ _ Ex). fold proc.
  apply MbufChild2d_sig in Ez as (Cz & Kz & Nz & Zz & Mz).
  apply MbufChild2d_sig in Ex as (Cx & Kx & Nx & Zx & Mx).
  set (Data := {| MilX := x; MilZ := z; MilValidMask := M_NULL |}).
  (* the children are not buffers of [s]; the other buffers are those of [s] *)
  assert (Hfr : ∀ id, (id = x ∧ x ≠ M_NULL) ∨ (id = z ∧ z ≠ M_NULL) → bufs s !! id = None).
  { intros id [[-> Hx]|[-> Hz]]; [|by apply Nz].
    destruct (decide (x = z)) as [->|Hne]; [by apply Nz|].
    rewrite <- Kz by done. by apply Nx. }
  assert (Hkeep : ∀ id, ¬ ((id = x ∧ x ≠ M_NULL) ∨ (id = z ∧ z ≠ M_NULL)) →
                        bufs s2 !! id = bufs s !! id).
  { intros id Hid.
    assert (bufs s2 !! id = bufs s1 !! id) as ->.
    { destruct (decide (x = M_NULL)) as [Hx|Hx]; [by rewrite (Zx Hx)|].
      apply Kx. intros ->. tauto. }
    destruct (decide (z = M_NULL)) as [Hz|Hz]; [by rewrite (Zz Hz)|].
    apply Kz. intros ->. tauto. }
  (* the digitizer chain *)
  destruct (digitizer_chain_facts m fp fd Data) as (Hb & Hff & Hown & Haft & Hout & Hfp).
  destruct (Convert_total _ Hb Hff Data s2) as [[r s3] E3].
  pose proof (Convert_result _ _ _ _ _ E3) as Hr. rewrite Haft, Hout in Hr. subst r.
  destruct (Convert_footprint _ Hb _ _ _ _ E3) as (C3 & S3 & F3).
  assert (EC : MilInterface_Convert (m_pDataConversion self) Data s2 =
                 Some ((Some (digitizer_chain m fp fd), with_MilValidMask Data m), s3)).
  { rewrite Hdc. unfold MilInterface_Convert. by rewrite (bindM_Some _ _ _ _ _ E3). }
  rewrite (bindM_Some _ _ _ _ _ EC).
  (* the profile process *)
  assert (Hok3 : depth_map_process_ok ProfileSize NbProfiles s3 proc).
  { apply (depth_map_process_ok_mono _ _ s); [done| |congruence].
    intros id v Hv. rewrite S3. auto. }
  assert (Hfit : mask_fits (ProfileSize * NbProfiles) s3 (with_MilValidMask Data m)).
  { unfold mask_fits. simpl. rewrite S3, (Mx _ _ (Mz _ _ Sm)). split; [done|].
    rewrite sum_list_replicate. lia. }
  assert (Hpts3 : clouds s3 !! m_MilPointCloudContainer proc = Some pts) by congruence.
  destruct (Process_appends depth_at _ _ proc _ s3 pts Hok3 Hfit Hpts3)
    as (p' & s4 & batch & E4 & Hok4 & S4 & Hk4 & Hpts4 & Hlen & _).
  rewrite (bindM_Some _ _ _ _ _ E4).
  destruct Hok as (w & f & cal & Hch & Hrest).
  destruct (Process_footprint proc _ (with_MilValidMask Data m) s3 p' s4 Hch) as (Hch4 & Hd4 & _ & [_ W4] & C4);
    [simpl; tauto|exact E4|].
  (* the children are released *)
  destruct (ReleaseData_lookup Data s4) as (s5 & E5 & C5 & L5).
  rewrite (bindM_Some _ _ _ _ _ E5). unfold ret. clear E5 EC E3 E4. simpl in L5.
  eexists _, s5, batch. split; [reflexivity|]. simpl.
  assert (Hsig : ∀ id, sig s5 id = sig s id).
  { intros id. unfold sig. rewrite L5.
    destruct (decide (id = x ∧ x ≠ M_NULL ∨ id = z ∧ z ≠ M_NULL)) as [Hid|Hid].
    - by rewrite (Hfr id Hid).
    - rewrite <- (Hkeep id Hid). apply (eq_trans (S4 id)), S3. }
  assert (Hres : resources p' = resources proc).
  { unfold resources. by rewrite Hch4, Hch, Hd4. }
  split; [|split; [exact Hres|split; [exact Hk4|split; [exact Hsig|split; [|split;
    [by rewrite C5|split; [exact Hlen|]]]]]]].
  - split; [done|]. split; [by rewrite Hsig|]. split; [done|]. simpl.
    destruct Hok4 as (w4 & f4 & cal4 & Hch4' & Hn4 & Hl4 & _).
    destruct Hrest as (_ & _ & S1 & S2 & S3' & S4' & S5' & _).
    rewrite Hch4 in Hch4'. injection Hch4' as <- <- <-.
    exists (with_MilValidMask w m), f, cal. rewrite !Hsig, C5, Hk4, Hpts4.
    split_and!; (done || by eexists).
  - intros id Hid. repeat rewrite not_elem_of_cons in Hid.
    destruct Hid as (Hnull & Hm & Hres').
    rewrite L5.
    destruct (decide (id = x ∧ x ≠ M_NULL ∨ id = z ∧ z ≠ M_NULL)) as [Hrel|Hrel];
      [by rewrite (Hfr id Hrel)|].
    rewrite W4.
    2:{ intros Hin. apply Hres'. unfold resources. rewrite Hch. revert Hin. simpl.
        repeat rewrite elem_of_cons. tauto. }
    rewrite F3; [by apply Hkeep|].
    intros Hin. apply Hfp in Hin. simpl in Hin.
    repeat rewrite elem_of_cons in Hin. rewrite elem_of_nil in Hin.
    destruct Hin as [->|[->|[->|[]]]]; [done| |].
    + apply Hrel. left. split; [done|]. congruence.
    + apply Hrel. right. split; [done|]. congruence.
  - intros k Hk. rewrite C5, C4 by done. congruence.
Qed.

Lemma MdigProcess_steps ProfileSize NbProfiles m fp fd grabbed : ∀ self s pts,
  interface_ok ProfileSize NbProfiles m fp fd s self →
  clouds s !! m_MilPointCloudContainer (m_pProfileProcess self) = Some pts →
  ∃ self' s' added,
    MdigProcess (Process depth_at) self grabbed s = Some (self', s') ∧
    interface_ok ProfileSize NbProfiles m fp fd s' self' ∧
    resources (m_pProfileProcess self') = resources (m_pProfileProcess self) ∧
    m_MilPointCloudContainer (m_pProfileProcess self') =
      m_MilPointCloudContainer (m_pProfileProcess self) ∧
    (∀ id, sig s' id = sig s id) ∧
    (∀ id, id ∉ M_NULL :: m :: resources (m_pProfileProcess self) →
           bufs s' !! id = bufs s !! id) ∧
    clouds s' !! m_MilPointCloudContainer (m_pProfileProcess self) = Some (pts ++ added) ∧
    length added = length grabbed * (ProfileSize * NbProfiles) ∧
    (∀ k, k ≠ m_MilPointCloudContainer (m_pProfileProcess self) →
          clouds s' !! k = clouds s !! k).
Proof.
  induction grabbed as [|g grabbed IH]; intros self s pts Hok Hpts.
  - exists self, s, []. rewrite app_nil_r. by split_and!.
  - destruct (MilInterface_step _ _ _ _ _ _ g _ _ Hok Hpts)
      as (self1 & s1 & batch & E1 & Hok1 & R1 & K1 & S1 & F1 & P1 & L1 & C1).
    rewrite <- K1 in P1.
    destruct (IH self1 s1 (pts ++ batch) Hok1 P1)
      as (self2 & s2 & added & E2 & Hok2 & R2 & K2 & S2 & F2 & P2 & L2 & C2).
    exists self2, s2, (batch ++ added). simpl. unfold MilInterfaceHook.
    rewrite (bindM_Some _ _ _ _ _ E1).
    split; [exact E2|]. split; [exact Hok2|]. split; [congruence|]. split; [congruence|].
    split; [intros id; by rewrite S2|]. split; [|split; [|split]].
    + intros id Hid. rewrite F2, F1; [done..|]. by rewrite R1.
    + rewrite K1 in P2. by rewrite app_assoc.
    + rewrite length_app. lia.
    + intros k Hk. rewrite C2, C1; [done..|]. by rewrite K1.
Qed.

(** X4: a whole acquisition in multiple-profile mode, as MosMain runs it: the
    depth-map process is constructed, the interface is built, the hook runs
    once per grabbed buffer, then the process and the interface are deleted.
    Every step returns, whatever the grab buffers are; the container holds
    ProfileSize * NbProfiles points per hook call before it is freed; and at
    the end no buffer or container is left over or missing: each hook call
    freed its two child buffers, the destructors freed the seven buffers and
    the container the constructors allocated, and every other buffer but the
    grab buffers has the pixels it had. *)
Theorem acquisition_session sys cal range WorldPosY ConveyorSpeed ProfileSize NbProfiles
    (FlipPosition FlipDistance : bool) s0 (grabbed : list MIL_ID) :
  ∃ proc s1 iface s2 iface' s3 pts s4 s5,
    new_CProfileDepthMapProcess sys cal range WorldPosY ConveyorSpeed
      ProfileSize NbProfiles s0 = Some (proc, s1) ∧
    BuildInterface (new_CMicroEpsilonToMIL ProfileSize NbProfiles) sys
      FlipPosition FlipDistance proc s1 = Some (iface, s2) ∧
    MdigProcess (Process depth_at) iface grabbed s2 = Some (iface', s3) ∧
    clouds s3 !! m_MilPointCloudContainer proc = Some pts ∧
    length pts = length grabbed * (ProfileSize * NbProfiles) ∧
    delete_CProfileDepthMapProcess (m_pProfileProcess iface') s3 = Some (tt, s4) ∧
    delete_CMicroEpsilonToMIL iface' s4 = Some (tt, s5) ∧
    clouds s5 = clouds s0 ∧
    (∀ id, sig s5 id = sig s0 id) ∧
    (∀ id, id ∉ M_NULL :: grabbed → bufs s5 !! id = bufs s0 !! id).
Proof.
  destruct (new_CProfileDepthMapProcess_spec sys cal range WorldPosY ConveyorSpeed
              ProfileSize NbProfiles s0)
    as (w & f & c & d & s1 & E & Swx & Swz & Sfx & Sfz & Sfm & _ & Hc & _).
  match type of E with _ = Some (?p, _) => set (proc := p) in * end.
  assert (Hc' : clouds s1 !! m_MilPointCloudContainer proc = Some []) by exact Hc.
  clear Hc. rename Hc' into Hc.
  assert (Hok : depth_map_process_ok ProfileSize NbProfiles s1 proc).
  { exists w, f, cal. unfold proc. simpl.
    destruct (create_Y_lookup WorldPosY ConveyorSpeed ProfileSize
      NbProfiles (replicate (ProfileSize * NbProfiles) (D_of_Z 0))) as [Hl _].
    rewrite length_replicate in Hl. unfold proc in Hc. simpl in Hc. rewrite Hc. by eauto 10. }
  destruct (new_CProfileDepthMapProcess_fresh _ _ _ _ _ _ _ _ _ _ E)
    as (_ & Hnd & Hfresh & Hex & Hkeep & Hcr & Hc0 & Hc1 & _).
  (* the interface *)
  destruct (BuildDigitizerDataConversion_spec sys ProfileSize NbProfiles
              FlipPosition FlipDistance s1) as (m & EB & Hm0 & Hm1 & _).
  set (s2 := set_bufs (insert m (alloc_buf U8 ProfileSize NbProfiles)) s1) in *.
  set (iface := {| m_SizeX := ProfileSize; m_SizeY := NbProfiles;
                   m_pDataConversion := Some (digitizer_chain m FlipPosition FlipDistance);
                   m_pProfileProcess := proc |}).
  assert (EI : BuildInterface (new_CMicroEpsilonToMIL ProfileSize NbProfiles) sys
                 FlipPosition FlipDistance proc s1 = Some (iface, s2)).
  { unfold BuildInterface. simpl. by rewrite (bindM_Some _ _ _ _ _ EB). }
  assert (Hmr : m ∉ resources proc).
  { intros Hin. apply Hex in Hin as [b Hb]. congruence. }
  assert (Hs12 : ∀ id v, sig s1 id = Some v → sig s2 id = Some v).
  { intros id v Hv. unfold sig, s2 in *. simpl. rewrite lookup_insert_ne; [done|].
    intros <-. by rewrite Hm1 in Hv. }
  assert (Hiok : interface_ok ProfileSize NbProfiles m FlipPosition FlipDistance s2 iface).
  { split; [done|]. split; [|split; [simpl; lia|]].
    - unfold sig, s2. simpl. rewrite lookup_insert_eq. simpl. by rewrite shape_alloc_buf.
    - simpl. by apply (depth_map_process_ok_mono _ _ s1). }
  destruct (MdigProcess_steps _ _ _ _ _ grabbed iface s2 [] Hiok Hc)
    as (iface' & s3 & pts & E3 & Hiok3 & R3 & K3 & S3 & F3 & P3 & L3 & C3).
  simpl in R3, K3, F3, P3, C3.
  (* the destructors *)
  destruct Hiok3 as (Hdc3 & _ & _ & (w3 & f3 & cal3 & Hch3 & _)).
  destruct (delete_CProfileDepthMapProcess_spec (m_pProfileProcess iface') w3 f3 cal3 s3 Hch3)
    as (s4 & E4 & C4 & L4).
  { rewrite R3. intros Hin. by destruct (Hfresh _ Hin). }
  destruct (digitizer_chain_facts m FlipPosition FlipDistance
              {| MilX := M_NULL; MilZ := M_NULL; MilValidMask := M_NULL |})
    as (_ & _ & Hown & _).
  destruct (delete_CDataConversion_spec (digitizer_chain m FlipPosition FlipDistance) s4)
    as (s5 & E5 & C5 & L5).
  { rewrite Hown. intros Hin. apply elem_of_cons in Hin as [Hin|Hin]; [done|].
    by apply elem_of_nil in Hin. }
  rewrite Hown in L5. rewrite R3 in L4. rewrite K3 in C4.
  assert (ED : delete_CMicroEpsilonToMIL iface' s4 = Some (tt, s5)).
  { unfold delete_CMicroEpsilonToMIL. by rewrite Hdc3. }
  assert (Hbufs : ∀ id, bufs s5 !! id =
            if decide (id = m ∨ id ∈ resources proc) then None else bufs s3 !! id).
  { intros id. rewrite L5, L4.
    repeat case_decide; try done; exfalso;
      repeat match goal with H : context [_ ∈ [_]] |- _ =>
        rewrite elem_of_cons, elem_of_nil in H end; tauto. }
  assert (Hm00 : bufs s0 !! m = None) by (by rewrite <- Hkeep).
  exists proc, s1, iface, s2, iface', s3, pts, s4, s5.
  split; [exact E|]. split; [exact EI|]. split; [exact E3|]. split; [exact P3|].
  split; [exact L3|]. split; [exact E4|]. split; [exact ED|]. split; [|split].
  - apply map_eq. intros k. rewrite C5, C4.
    destruct (decide (k = m_MilPointCloudContainer proc)) as [->|Hne].
    + by rewrite lookup_delete_eq.
    + rewrite lookup_delete_ne, C3 by done. unfold s2. simpl. rewrite Hc1.
      by rewrite lookup_insert_ne.
  - intros id. unfold sig. rewrite Hbufs. case_decide as Hid.
    + destruct Hid as [->|Hid]; [by rewrite Hm00|]. by rewrite (proj2 (Hfresh _ Hid)).
    + fold (sig s3 id). rewrite S3. unfold sig, s2. simpl.
      rewrite lookup_insert_ne by (intros <-; apply Hid; by left).
      rewrite Hkeep by (intros ?; apply Hid; by right). done.
  - intros id Hid. apply not_elem_of_cons in Hid as [Hnull _].
    rewrite Hbufs. case_decide as Hid.
    + destruct Hid as [->|Hid]; [by rewrite Hm00|]. by rewrite (proj2 (Hfresh _ Hid)).
    + rewrite F3.
      * unfold s2. simpl. rewrite lookup_insert_ne by (intros <-; apply Hid; by left).
        apply Hkeep. intros ?. apply Hid. by right.
      * intros Hin. apply elem_of_cons in Hin as [Hin|Hin]; [by apply Hnull|].
        apply elem_of_cons in Hin as [Hin|Hin]; apply Hid; [by left|by right].
Qed.

(** ** Images *)





(** ** The bands of a grabbed frame *)

Lemma pix_child b ox oy sx sy i j :
  i < sx → j < sy →
  pix {| buf_type := buf_type b;
         buf_rows := map (λ r, take sx (drop ox r)) (take sy (drop oy (buf_rows b))) |} i j =
    pix b (ox + i) (oy + j).
Proof.
  intros Hi Hj. unfold pix. simpl.
  change (map ?g ?l) with (g <$> l).
  rewrite list_lookup_fmap, lookup_take_lt, lookup_drop by done.
  destruct (buf_rows b !! (oy + j)) as [r|]; [|done]. simpl.
  by rewrite lookup_take_lt, lookup_drop by done.
Qed.

(** X5: the hook cuts the grabbed frame in two bands of m_SizeX columns and
    m_SizeY rows: the left one is the Z of the profile data, the right one its
    X, and the data has no mask.  The two children have new identifiers, and
    the rest of the hook (conversion, process, release of the children) runs
    on them. *)
Theorem hook_bands {P} (Process_ : P → SPData → Mil P) (self : CMicroEpsilonToMIL P) g s b :
  bufs s !! g = Some b →
  ∃ z x s1,
    z ≠ M_NULL ∧ x ≠ M_NULL ∧ z ≠ x ∧ bufs s !! z = None ∧ bufs s !! x = None ∧
    clouds s1 = clouds s ∧
    (∀ id, id ≠ z → id ≠ x → bufs s1 !! id = bufs s !! id) ∧
    (∀ i j, i < m_SizeX self → j < m_SizeY self →
       pix_at s1 z i j = pix b i j ∧
       pix_at s1 x i j = pix b (m_SizeX self + i) j) ∧
    MilInterface Process_ self g s =
      (let Data := {| MilX := x; MilZ := z; MilValidMask := M_NULL |} in
       let* (conv', ConvertedData) := MilInterface_Convert (m_pDataConversion self) Data in
       let* proc' := Process_ (m_pProfileProcess self) ConvertedData in
       let* _ := ReleaseData Data in
       ret ({| m_SizeX := m_SizeX self; m_SizeY := m_SizeY self;
               m_pDataConversion := conv'; m_pProfileProcess := proc' |}, 0%Z)) s1.
Proof.
  intros Hg. unfold MilInterface.
  set (SX := m_SizeX self). set (SY := m_SizeY self).
  destruct (fresh_id_spec s) as (Hz0 & Hzb & Hzc).
  set (z := fresh_id s) in *.
  set (bz := {| buf_type := buf_type b;
                buf_rows := map (λ r, take SX (drop 0 r)) (take SY (drop 0 (buf_rows b))) |}).
  set (s1 := set_bufs (insert z bz) s).
  assert (Ez : MbufChild2d g 0 0 SX SY s = Some (z, s1)).
  { unfold MbufChild2d. by rewrite Hg. }
  assert (Hgz : g ≠ z) by (intros ->; congruence).
  assert (Hg1 : bufs s1 !! g = Some b) by (unfold s1; simpl; by rewrite lookup_insert_ne).
  destruct (fresh_id_spec s1) as (Hx0 & Hxb & Hxc).
  set (x := fresh_id s1) in *.
  set (bx := {| buf_type := buf_type b;
                buf_rows := map (λ r, take SX (drop SX r)) (take SY (drop 0 (buf_rows b))) |}).
  set (s2 := set_bufs (insert x bx) s1).
  assert (Ex : MbufChild2d g SX 0 SX SY s1 = Some (x, s2)).
  { unfold MbufChild2d. by rewrite Hg1. }
  assert (Hzx : z ≠ x).
  { intros Heq. rewrite <- Heq in Hxb. unfold s1 in Hxb. simpl in Hxb.
    by rewrite lookup_insert_eq in Hxb. }
  rewrite (bindM_Some _ _ _ _ _ Ez), (bindM_Some _ _ _ _ _ Ex).
  exists z, x, s2. split; [done|]. split; [done|]. split; [done|]. split; [done|].
  split; [|split; [done|split; [|split; [|done]]]].
  - unfold s1 in Hxb. simpl in Hxb. by rewrite lookup_insert_ne in Hxb.
  - intros id Hiz Hix. unfold s2, s1. simpl. by rewrite !lookup_insert_ne.
  - intros i j Hi Hj. unfold pix_at, s2, s1. simpl.
    rewrite lookup_insert_ne, !lookup_insert_eq by done. simpl. split.
    + apply (pix_child b 0 0 SX SY i j Hi Hj).
    + apply (pix_child b SX 0 SX SY i j Hi Hj).
Qed.

(** ** The conversion of the digitizer data *)






(** ** The points of a frame *)

Lemma host_floats_row id n b s :
  bufs s !! id = Some b → buf_type b = F32 → length (buf_rows b) = 1 →
  (∀ r, buf_rows b !! 0 = Some r → n ≤ length r) →
  ∃ r, buf_rows b = [r] ∧ host_floats id n s = Some (pixel_val <$> take n r, s).
Proof.
  intros Hb Ht Hl Hn. destruct (buf_rows b) as [|r [|? ?]] eqn:Er; try done.
  exists r. split; [done|]. unfold host_floats. rewrite Hb, Er. simpl.
  rewrite app_nil_r. rewrite decide_True; [done|]. split; [done|]. by apply Hn.
Qed.





(** ** Order and repetition of the in-place stages *)

Lemma zip_over_idem {A B} (g : A → B → B) (src : list A) (dst : list B) :
  (∀ a d, g a (g a d) = g a d) →
  zip_over g src (zip_over g src dst) = zip_over g src dst.
Proof.
  intros Hg. revert dst. induction src as [|a src IH]; intros [|d dst]; simpl; try done.
  by rewrite Hg, IH.
Qed.

Lemma clear_cond_buf_idem v cond img :
  clear_cond_buf v cond (clear_cond_buf v cond img) = clear_cond_buf v cond img.
Proof.
  unfold clear_cond_buf. simpl. f_equal. apply zip_over_idem. intros r d.
  apply zip_over_idem. intros m p. by destruct (decide (pixel_val m = D_of_Z 0)).
Qed.

Lemma ApplyInvalidMask_eq img mask s :
  ApplyInvalidMask img mask s = Some (tt, set_bufs (mask_in img mask) s).
Proof.
  unfold ApplyInvalidMask, bindM, MbufInquire_MAX, MbufClearCond_EQUAL_0, modify, set_bufs,
    mask_in.
  destruct (bufs s !! img) as [b|] eqn:Eb; simpl; rewrite Eb;
    by destruct (bufs s !! mask).
Qed.

Lemma lookup_mask_in img mask h id :
  mask_in img mask h !! id =
    if decide (id = img) then masked (h !! mask) (h !! id) else h !! id.
Proof.
  unfold mask_in, masked. case_decide as Hid.
  - subst id. destruct (h !! mask), (h !! img) eqn:E; rewrite ?lookup_insert_eq, ?E; done.
  - destruct (h !! mask), (h !! img); rewrite ?lookup_insert_ne by done; done.
Qed.

Lemma masked_idem m o : masked m (masked m o) = masked m o.
Proof.
  unfold masked. destruct o as [b|], m as [bm|]; try done.
  simpl. by rewrite clear_cond_buf_idem.
Qed.

(** X9: masking the invalid points a second time changes nothing: after
    ConvertOp of CDataConversionApplyInvalid, the same ConvertOp on the same
    data leaves the store as it is. *)
Theorem invalid_masking_idempotent (d : SPData) s :
  MilValidMask d ≠ MilX d → MilValidMask d ≠ MilZ d →
  ∃ s', ConvertOp CDataConversionApplyInvalid d s = Some (tt, s') ∧
        ConvertOp CDataConversionApplyInvalid d s' = Some (tt, s').
Proof.
  intros Hx Hz.
  assert (E : ∀ s, ConvertOp CDataConversionApplyInvalid d s =
                   Some (tt, set_bufs (λ h, mask_in (MilZ d) (MilValidMask d)
                                              (mask_in (MilX d) (MilValidMask d) h)) s)).
  { intros s0. unfold ConvertOp, bindM. by rewrite !ApplyInvalidMask_eq. }
  eexists. split; [apply E|]. rewrite E. f_equal. f_equal.
  destruct s as [h c]. unfold set_bufs. simpl. f_equal.
  apply map_eq. intros id.
  rewrite !lookup_mask_in.
  rewrite !(decide_False (P := MilValidMask d = MilX d)) by done.
  rewrite !(decide_False (P := MilValidMask d = MilZ d)) by done.
  repeat case_decide; rewrite ?masked_idem; done.
Qed.

Lemma ConvertOp_flip op (channel : SPData → MIL_ID) d s :
  (op = CDataConversionFlipXVal ∧ channel = MilX) ∨
  (op = CDataConversionFlipZVal ∧ channel = MilZ) →
  ConvertOp op d s = Some (tt, set_bufs (flip_in (channel d)) s).
Proof.
  intros [[-> ->]|[-> ->]]; unfold ConvertOp, MimArith, modify, set_bufs, flip_in; simpl;
    by destruct (bufs s !! _).
Qed.

Lemma lookup_flip_in i h id :
  flip_in i h !! id = if decide (id = i) then flip_buf <$> h !! id else h !! id.
Proof.
  unfold flip_in. case_decide as Hid.
  - subst id. destruct (h !! i) eqn:E; [by rewrite lookup_insert_eq|by rewrite E].
  - destruct (h !! i); [by rewrite lookup_insert_ne|done].
Qed.

Lemma Convert_Op_run prev op Data s :
  Convert (CDataConversionOp_ prev op) Data s =
    match ConvertPrev prev Data s with
    | Some ((prev', up), s1) =>
        match ConvertOp op up s1 with
        | Some (_, s2) => Some ((CDataConversionOp_ prev' op, up), s2)
        | None => None
        end
    | None => None
    end.
Proof.
  rewrite Convert_Op. unfold bindM. destruct (ConvertPrev prev Data s) as [[[p' up] s1]|]; [|done].
  by destruct (ConvertOp op up s1) as [[[] s2]|].
Qed.

(** X10: the two flips can be chained in either order: a flip of X followed
    by a flip of Z and a flip of Z followed by a flip of X return the same data
    and leave the same store, also when X and Z are one buffer. *)
Theorem flips_commute prev Data s :
  (λ r, (r.1.2, r.2)) <$>
    Convert (CDataConversionOp_ (Some (CDataConversionOp_ prev CDataConversionFlipXVal))
               CDataConversionFlipZVal) Data s =
  (λ r, (r.1.2, r.2)) <$>
    Convert (CDataConversionOp_ (Some (CDataConversionOp_ prev CDataConversionFlipZVal))
               CDataConversionFlipXVal) Data s.
Proof.
  rewrite !Convert_Op_run, !ConvertPrev_Some. unfold bindM. rewrite !Convert_Op_run.
  destruct (ConvertPrev prev Data s) as [[[p' up] s1]|]; [|done].
  rewrite (ConvertOp_flip _ MilX up s1) by (left; done).
  rewrite (ConvertOp_flip _ MilZ up s1) by (right; done).
  unfold ret.
  rewrite (ConvertOp_flip _ MilZ up _) by (right; done).
  rewrite (ConvertOp_flip _ MilX up _) by (left; done).
  simpl. f_equal. f_equal. destruct s1 as [h c]. unfold set_bufs. simpl. f_equal.
  apply map_eq. intros id. rewrite !lookup_flip_in.
  by repeat case_decide.
Qed.

(** ** From the grabbed frame to the points *)




End MoreProperties.

(** * The checks before the acquisition *)

Section Checks.

Lemma check_range_bounds RangeName ranges : ∀ m idx,
  check_range RangeName ranges m idx = idx ∨
  (m ≤ check_range RangeName ranges m idx < m + Z.of_nat (length ranges))%Z.
Proof.
  induction ranges as [|r ranges IH]; intros m idx; simpl; [by left|].
  destruct (MIL_STRING.find RangeName r); [right; lia|].
  destruct (IH (m + 1)%Z idx) as [->|H]; [by left|right; lia].
Qed.

Lemma check_model_returns DeviceModelName models :
  ∃ idx, check_model DeviceModelName models (-1) = Some idx ∧
         (idx = -1 ∨ 0 ≤ idx < Z.of_nat NB_RANGE)%Z.
Proof.
  induction models as [|model models IH]; [by eexists; split; [|left]|].
  cbn [check_model].
  destruct (MIL_STRING.find DeviceModelName model) as [pos|]; [|exact IH].
  case_decide as Hlen; [|by eexists; split; [|left]].
  unfold MIL_STRING.substr. rewrite decide_True by exact Hlen.
  eexists. split; [reflexivity|].
  match goal with |- context [check_range ?R ?L ?m ?i] =>
    pose proof (check_range_bounds R L m i) as H; set (v := check_range R L m i) in * end.
  change (length EXPECTED_RANGE) with 4 in H. unfold NB_RANGE. lia.
Qed.

(** X11: VerifyDeviceCompatibility never throws: std::string::substr is only
    called with a position inside the name.  It returns true exactly when it
    leaves in *pCameraRangeIndex an index of the tables of NB_RANGE entries
    (EXPECTED_RANGE, CONVPCAL, PRANGE), and it leaves -1 when it returns
    false; a device of another vendor is refused whatever its model name. *)
Theorem VerifyDeviceCompatibility_index (DeviceVendorName DeviceModelName : string) :
  ∃ (compatible : bool) (CameraRangeIndex : Z),
    VerifyDeviceCompatibility DeviceVendorName DeviceModelName =
      Some (compatible, CameraRangeIndex) ∧
    (compatible = true → (0 ≤ CameraRangeIndex < Z.of_nat NB_RANGE)%Z) ∧
    (compatible = false → CameraRangeIndex = (-1)%Z) ∧
    (DeviceVendorName ≠ EXPECTED_DEVICE_VENDOR → compatible = false).
Proof.
  unfold VerifyDeviceCompatibility.
  destruct (decide (DeviceVendorName = EXPECTED_DEVICE_VENDOR)) as [Hv|Hv].
  - destruct (check_model_returns DeviceModelName EXPECTED_DEVICE_MODEL) as (idx & -> & Hi).
    simpl. eexists _, idx. split; [reflexivity|].
    split; [|split; [|done]].
    + intros Hb. apply bool_decide_eq_true in Hb. lia.
    + intros Hb. apply bool_decide_eq_false in Hb. lia.
  - simpl. eexists _, _. split; [reflexivity|]. by split_and!.
Qed.

Lemma prefix_short s1 : ∀ s2,
  String.length s2 < String.length s1 → String.prefix s1 s2 = false.
Proof.
  induction s1 as [|a s1 IH]; intros s2 H; [simpl in H; lia|].
  destruct s2 as [|b s2]; [done|]. simpl in *.
  destruct (ascii_dec a b); [|done]. apply IH. lia.
Qed.

Lemma index_short s1 s2 : ∀ n,
  String.length s2 < String.length s1 → String.index n s1 s2 = None.
Proof.
  induction s2 as [|b s2 IH]; intros n H.
  - destruct n, s1; simpl in *; (done || lia).
  - simpl in H. destruct n.
    + cbn [String.index]. rewrite prefix_short by (simpl; lia).
      by rewrite IH by lia.
    + cbn [String.index]. by rewrite IH by lia.
Qed.

Lemma check_model_next DeviceModelName model models idx :
  MIL_STRING.find DeviceModelName model = None →
  check_model DeviceModelName (model :: models) idx = check_model DeviceModelName models idx.
Proof. intros H. simpl. by rewrite H. Qed.

Lemma find_26_in_29 (tail : string) :
  String.length tail < 14 → MIL_STRING.find ("scanCONTROL 29" +:+ tail) "scanCONTROL 26" = None.
Proof.
  intros H. unfold MIL_STRING.find. simpl. rewrite index_short; [done|].
  change (String.length tail < 14). exact H.
Qed.

(** X12: the model names VerifyDeviceCompatibility accepts.  After an
    expected model name it skips three characters, whatever they are, and
    looks for a range in what follows: a name made of an expected model, three
    characters and the k-th expected range is accepted with index k; with
    fewer than three characters after the model the device is refused. *)
Theorem VerifyDeviceCompatibility_names (model skip : string) :
  model ∈ EXPECTED_DEVICE_MODEL →
  (String.length skip = 3 →
   ∀ k range, EXPECTED_RANGE !! k = Some range →
     VerifyDeviceCompatibility EXPECTED_DEVICE_VENDOR (model +:+ skip +:+ range) =
       Some (true, Z.of_nat k)) ∧
  (String.length skip < 3 →
   VerifyDeviceCompatibility EXPECTED_DEVICE_VENDOR (model +:+ skip) = Some (false, (-1)%Z)).
Proof.
  intros Hm. unfold EXPECTED_DEVICE_MODEL in Hm.
  apply elem_of_cons in Hm as [->|Hm]; [|apply list_elem_of_singleton in Hm as ->].
  - split.
    + intros Hs k range Hk.
      destruct skip as [|c1 [|c2 [|c3 [|? ?]]]]; try discriminate.
      destruct k as [|[|[|[|k]]]]; try discriminate; injection Hk as <-; reflexivity.
    + intros Hs. destruct skip as [|c1 [|c2 [|c3 ?]]]; simpl in Hs; try lia; reflexivity.
  - unfold VerifyDeviceCompatibility. rewrite decide_True by done. split.
    + intros Hs k range Hk.
      destruct skip as [|c1 [|c2 [|c3 [|? ?]]]]; try discriminate.
      unfold EXPECTED_DEVICE_MODEL. rewrite check_model_next.
      * destruct k as [|[|[|[|k]]]]; try discriminate; injection Hk as <-; reflexivity.
      * apply find_26_in_29.
        destruct k as [|[|[|[|k]]]]; try discriminate; injection Hk as <-; simpl; lia.
    + intros Hs. unfold EXPECTED_DEVICE_MODEL. rewrite check_model_next.
      * destruct skip as [|c1 [|c2 [|c3 ?]]]; simpl in Hs; try lia; reflexivity.
      * apply find_26_in_29. lia.
Qed.

Lemma ChooseProfileMode_skip (junk : list ascii) keys :
  Forall (λ key, key ∉ ["a"; "A"; "b"; "B"]%char) junk →
  ChooseProfileMode (junk ++ keys) = ChooseProfileMode keys.
Proof.
  induction 1 as [|key junk Hk _ IH]; [done|]. simpl.
  repeat rewrite not_elem_of_cons in Hk.
  rewrite !decide_False by tauto. exact IH.
Qed.

(** X13: ChooseProfileMode returns at the first of the keys a, A, b, B, and
    no other key counts: it returns 1 for a or A and NB_PROFILES_PER_GRAB for
    b or B, so the number of profiles is never anything else; as long as none
    of the four keys has come it has not returned. *)
Theorem ChooseProfileMode_first_choice (junk : list ascii) :
  Forall (λ key, key ∉ ["a"; "A"; "b"; "B"]%char) junk →
  ChooseProfileMode junk = None ∧
  ∀ key keys, key ∈ ["a"; "A"; "b"; "B"]%char →
    ChooseProfileMode (junk ++ key :: keys) =
      Some (if decide (key = "a"%char ∨ key = "A"%char) then 1%Z else NB_PROFILES_PER_GRAB,
            keys).
Proof.
  intros Hj. split.
  - rewrite <- (app_nil_r junk). by rewrite ChooseProfileMode_skip.
  - intros key keys Hk. rewrite ChooseProfileMode_skip by done. simpl.
    repeat rewrite elem_of_cons in Hk. rewrite elem_of_nil in Hk.
    destruct (decide (key = "a"%char ∨ key = "A"%char)); [done|].
    rewrite decide_True by tauto. done.
Qed.

End Checks.

(** * The properties on the concrete frames *)

#[local] Existing Instance ExactQ.

Ltac distinct_ids := simpl; intros ?; discriminate.


(** The scenario of one 4-point profile: the mask is false at the sample
    whose Z is the invalid value 0, the calibrated X are the raw X, and invalid
    masking puts the largest float at that sample only. *)
Lemma end_to_end_scenario :
  Sample.end_to_end =
    Some (PFlt <$> [FLT_MAX; 65535%Q; 100%Q; 200%Q],
          PFlt <$> [FLT_MAX; 65535%Q; 50%Q; 300%Q],
          PInt <$> [0; 255; 255; 255]%Z,
          PFlt <$> [0%Q; 65535%Q; 100%Q; 200%Q]).
Proof. vm_compute. reflexivity. Qed.

(** The three markers of a chain leave their tags in the order of the
    chain. *)
Lemma markers_in_order :
  let chain :=
    CDataConversionOp_
      (Some (CDataConversionOp_ (Some (CDataConversionOp_ None (Sample.marker 1)))
               (Sample.marker 2)))
      (Sample.marker 3) in
  (λ r, Sample.tags r.2) <$>
    Convert chain Sample.frame (set_clouds (insert 1%Z []) Sample.s1) =
  Some (Some [1; 2; 3]%Z).
Proof. vm_compute. reflexivity. Qed.


Lemma to_world_preserves_upstream_witness :
  ConvertPrev None Sample.frame Sample.s1 = Some ((None, Sample.frame), Sample.s1) ∧
  10%Z ≠ 13%Z ∧ 10%Z ≠ 14%Z ∧ 11%Z ≠ 13%Z ∧ 11%Z ≠ 14%Z ∧
  ∃ r s2,
    Convert (CDataConversionToWorld None Sample.world Sample.cal) Sample.frame Sample.s1 =
      Some (r, s2) ∧
    bufs s2 !! 10%Z = Some Sample.rawX ∧ bufs s2 !! 11%Z = Some Sample.rawZ.
Proof.
  assert (H0 : ConvertPrev None Sample.frame Sample.s1 =
                 Some ((None, Sample.frame), Sample.s1)) by reflexivity.
  split; [exact H0|]. do 4 (split; [distinct_ids|]).
  destruct (to_world_preserves_upstream None Sample.world Sample.cal Sample.frame
              Sample.s1 None Sample.frame Sample.s1 H0
              ltac:(distinct_ids) ltac:(distinct_ids) ltac:(distinct_ids) ltac:(distinct_ids))
    as (r & s2 & E & HX & HZ & _).
  exists r, s2. split; [exact E|]. split; [exact HX|exact HZ].
Defined.

Lemma no_predecessor_is_identity_witness :
  let self := {| m_SizeX := 1; m_SizeY := 2; m_pDataConversion := None;
                 m_pProfileProcess := tt |} in
  m_pDataConversion self = None ∧
  ConvertPrev None Sample.masked_frame Sample.s1 =
    Some ((None, Sample.masked_frame), Sample.s1) ∧
  ∃ z x s2,
    MilInterface (λ (p : unit) (Data : SPData), ret p) self 10%Z Sample.s1 =
      Some ((self, 0%Z), s2) ∧
    bufs s2 !! z = None ∧ bufs s2 !! x = None ∧ ∀ id, id ≠ z → id ≠ x →
    bufs s2 !! id = bufs Sample.s1 !! id.
Proof.
  intros self. split; [reflexivity|].
  destruct no_predecessor_is_identity as (H1 & _ & _ & H4).
  split; [apply H1|].
  specialize (H4 unit (λ (p : unit) (Data : SPData), ret p) self 10%Z Sample.s1 eq_refl).
  unfold bindM in H4. unfold MbufChild2d at 1 in H4.
  change (bufs Sample.s1 !! 10%Z) with (Some Sample.rawX) in H4. cbv beta iota zeta in H4.
  unfold MbufChild2d at 1 in H4. cbn [bufs set_bufs] in H4.
  destruct (fresh_id_spec Sample.s1) as (Nz & Hz & _).
  set (z := fresh_id Sample.s1) in *.
  set (sz := set_bufs (insert z _) Sample.s1) in *.
  destruct (fresh_id_spec sz) as (Nx & Hx & _).
  set (x := fresh_id sz) in *.
  assert (Hxz : x ≠ z).
  { intros Exz. unfold sz in Hx. simpl in Hx. rewrite Exz, lookup_insert_eq in Hx. discriminate. }
  assert (H10 : z ≠ 10%Z) by (intros Ez; rewrite Ez in Hz; discriminate).
  rewrite lookup_insert_ne in H4 by exact H10.
  change (bufs Sample.s1 !! 10%Z) with (Some Sample.rawX) in H4. cbv beta iota zeta in H4.
  unfold ret, ReleaseData, bindM, MbufFree, modify in H4. cbn [MilX MilZ] in H4.
  rewrite !decide_False in H4 by assumption.
  exists z, x. eexists. split; [exact H4|]. simpl.
  split; [|split].
  - apply lookup_delete_eq.
  - rewrite lookup_delete_ne by done. apply lookup_delete_eq.
  - intros id Hiz Hix. rewrite !lookup_delete_ne, !lookup_insert_ne by done. reflexivity.
Defined.

Lemma mask_derivation_witness :
  ConvertPrev None Sample.frame Sample.s1 = Some ((None, Sample.frame), Sample.s1) ∧
  bufs Sample.s1 !! 11%Z = Some Sample.rawZ ∧
  bufs Sample.s1 !! 12%Z = Some Sample.maskZ ∧
  buf_type Sample.maskZ = U8 ∧ 12%Z ≠ 10%Z ∧ 12%Z ≠ 11%Z ∧
  ∃ out s2 k0 k1,
    Convert (CDataConversionAddMask None 12%Z INVALID_VALUE) Sample.frame Sample.s1 =
      Some ((CDataConversionAddMask None 12%Z INVALID_VALUE, out), s2) ∧
    MilX out = 10%Z ∧ MilZ out = 11%Z ∧ MilValidMask out = 12%Z ∧
    bufs s2 !! 11%Z = Some Sample.rawZ ∧
    pix_at s2 12%Z 0 0 = Some k0 ∧ ¬ mask_true k0 ∧
    pix_at s2 12%Z 1 0 = Some k1 ∧ mask_true k1.
Proof.
  assert (H0 : ConvertPrev None Sample.frame Sample.s1 =
                 Some ((None, Sample.frame), Sample.s1)) by reflexivity.
  assert (H1 : bufs Sample.s1 !! 11%Z = Some Sample.rawZ) by reflexivity.
  assert (H2 : bufs Sample.s1 !! 12%Z = Some Sample.maskZ) by reflexivity.
  split; [exact H0|]. split; [exact H1|]. split; [exact H2|]. split; [reflexivity|].
  do 2 (split; [distinct_ids|]).
  destruct (mask_derivation None 12%Z INVALID_VALUE Sample.frame Sample.s1 None
              Sample.frame Sample.s1 Sample.rawZ Sample.maskZ H0 H1 H2 eq_refl
              ltac:(distinct_ids) ltac:(distinct_ids))
    as (out & s2 & E & HX & HZ & HM & _ & HbZ & _ & Hpix).
  destruct (Hpix 0 0 (@PInt ExactQ 0) (@PInt ExactQ 0) eq_refl eq_refl) as (k0 & Hk0 & Ik0).
  destruct (Hpix 1 0 (@PInt ExactQ 65535) (@PInt ExactQ 255) eq_refl eq_refl) as (k1 & Hk1 & Ik1).
  exists out, s2, k0, k1. split; [exact E|]. split; [exact HX|]. split; [exact HZ|].
  split; [exact HM|]. split; [exact (eq_trans HbZ H1)|].
  split; [exact Hk0|]. split; [|split; [exact Hk1|]].
  - intros Ht. apply Ik0 in Ht. apply Ht. reflexivity.
  - apply Ik1. intros Heq. vm_compute in Heq. discriminate.
Defined.

Lemma invalid_masking_witness :
  ConvertPrev None Sample.masked_frame Sample.s1 =
    Some ((None, Sample.masked_frame), Sample.s1) ∧
  bufs Sample.s1 !! 10%Z = Some Sample.rawX ∧
  bufs Sample.s1 !! 11%Z = Some Sample.rawZ ∧
  bufs Sample.s1 !! 12%Z = Some Sample.maskZ ∧
  12%Z ≠ 10%Z ∧ 12%Z ≠ 11%Z ∧
  ∃ s2,
    Convert (CDataConversionOp_ None CDataConversionApplyInvalid) Sample.masked_frame
      Sample.s1 =
      Some ((CDataConversionOp_ None CDataConversionApplyInvalid, Sample.masked_frame), s2) ∧
    pix_at s2 10%Z 0 0 = Some (PInt 65535) ∧
    pix_at s2 11%Z 0 0 = Some (PInt 65535) ∧
    pix_at s2 10%Z 0 1 = Some (PInt 100) ∧
    pix_at s2 11%Z 1 1 = Some (PInt 300).
Proof.
  assert (H0 : ConvertPrev None Sample.masked_frame Sample.s1 =
                 Some ((None, Sample.masked_frame), Sample.s1)) by reflexivity.
  assert (H1 : bufs Sample.s1 !! 10%Z = Some Sample.rawX) by reflexivity.
  assert (H2 : bufs Sample.s1 !! 11%Z = Some Sample.rawZ) by reflexivity.
  assert (H3 : bufs Sample.s1 !! 12%Z = Some Sample.maskZ) by reflexivity.
  split; [exact H0|]. split; [exact H1|]. split; [exact H2|]. split; [exact H3|].
  do 2 (split; [distinct_ids|]).
  destruct (invalid_masking None Sample.masked_frame Sample.s1 None Sample.masked_frame
              Sample.s1 Sample.rawX Sample.rawZ Sample.maskZ H0 H1 H2 H3
              ltac:(distinct_ids) ltac:(distinct_ids))
    as (s2 & E & _ & PX & PZ).
  assert (Hfalse : ¬ mask_true (@PInt ExactQ 0)) by (intros Ht; apply Ht; reflexivity).
  assert (Htrue : mask_true (@PInt ExactQ 255))
    by (intros Heq; vm_compute in Heq; discriminate).
  exists s2. split; [exact E|].
  destruct (PX 0 0 (@PInt ExactQ 0) (@PInt ExactQ 0) eq_refl eq_refl) as (a & Ha & Fa & _).
  destruct (PZ 0 0 (@PInt ExactQ 0) (@PInt ExactQ 0) eq_refl eq_refl) as (b & Hb & Fb & _).
  destruct (PX 0 1 (@PInt ExactQ 100) (@PInt ExactQ 255) eq_refl eq_refl) as (c & Hc & _ & Tc).
  destruct (PZ 1 1 (@PInt ExactQ 300) (@PInt ExactQ 255) eq_refl eq_refl) as (d & Hd & _ & Td).
  rewrite (Fa Hfalse) in Ha. rewrite (Fb Hfalse) in Hb.
  rewrite (Tc Htrue) in Hc. rewrite (Td Htrue) in Hd.
  split; [exact Ha|]. split; [exact Hb|]. split; [exact Hc|exact Hd].
Defined.

Lemma flip_stage_witness :
  ((CDataConversionFlipXVal = CDataConversionFlipXVal ∧ MilX = MilX) ∨
   (@CDataConversionFlipXVal ExactQ = CDataConversionFlipZVal ∧ MilX = MilZ)) ∧
  ConvertPrev None Sample.frame Sample.s1 = Some ((None, Sample.frame), Sample.s1) ∧
  bufs Sample.s1 !! 10%Z = Some Sample.rawX ∧
  raw_u16 Sample.rawX ∧
  ∃ s2,
    Convert (CDataConversionOp_ None CDataConversionFlipXVal) Sample.frame Sample.s1 =
      Some ((CDataConversionOp_ None CDataConversionFlipXVal, Sample.frame), s2) ∧
    dom (bufs s2) = dom (bufs Sample.s1) ∧
    pix_at s2 10%Z 0 1 = Some (PInt 65435) ∧
    pix_at s2 10%Z 1 0 = Some (PInt 0) ∧
    bufs s2 !! 11%Z = Some Sample.rawZ ∧
    Convert (CDataConversionOp_ (Some (CDataConversionOp_ None CDataConversionFlipXVal))
               CDataConversionFlipXVal) Sample.frame Sample.s1 =
      Some ((CDataConversionOp_ (Some (CDataConversionOp_ None CDataConversionFlipXVal))
               CDataConversionFlipXVal, Sample.frame), Sample.s1).
Proof.
  assert (Hop : (CDataConversionFlipXVal = CDataConversionFlipXVal ∧ MilX = MilX) ∨
                (@CDataConversionFlipXVal ExactQ = CDataConversionFlipZVal ∧
                 MilX = MilZ)) by (left; split; reflexivity).
  assert (H0 : ConvertPrev None Sample.frame Sample.s1 =
                 Some ((None, Sample.frame), Sample.s1)) by reflexivity.
  assert (H1 : bufs Sample.s1 !! 10%Z = Some Sample.rawX) by reflexivity.
  assert (H2 : raw_u16 Sample.rawX).
  { split; [reflexivity|]. repeat constructor; simpl; lia. }
  split; [exact Hop|]. split; [exact H0|]. split; [exact H1|]. split; [exact H2|].
  destruct (flip_stage CDataConversionFlipXVal MilX None Sample.frame Sample.s1 None
              Sample.frame Sample.s1 Sample.rawX Hop H0 H1 H2)
    as (s2 & E & Hb & _ & Hdom & _ & Hpix & _ & Htwice).
  exists s2. split; [exact E|]. split; [exact Hdom|].
  split; [exact (proj2 (Hpix 0 1 100%Z eq_refl))|].
  split; [exact (proj2 (Hpix 1 0 65535%Z eq_refl))|].
  split; [rewrite Hb; reflexivity|exact Htwice].
Defined.


Lemma flatten_stage_witness :
  ConvertPrev None Sample.world_frame Sample.s1 =
    Some ((None, Sample.world_frame), Sample.s1) ∧
  bufs Sample.s1 !! 13%Z = Some (alloc_buf F32 2 2) ∧ is_image (alloc_buf F32 2 2) F32 2 2 ∧
  bufs Sample.s1 !! 12%Z = Some Sample.maskZ ∧ is_image Sample.maskZ U8 2 2 ∧
  bufs Sample.s1 !! 15%Z = Some (alloc_buf F32 4 1) ∧ is_image (alloc_buf F32 4 1) F32 (2 * 2) 1 ∧
  bufs Sample.s1 !! 17%Z = Some (alloc_buf U8 4 1) ∧ is_image (alloc_buf U8 4 1) U8 (2 * 2) 1 ∧
  ∃ s2,
    Convert (CDataConversionToFlat None Sample.flat) Sample.world_frame Sample.s1 =
      Some ((CDataConversionToFlat None Sample.flat, Sample.flat), s2) ∧
    sig s2 15%Z = Some (F32, [4]) ∧
    bufs s2 !! 17%Z =
      Some {| buf_type := U8; buf_rows := [PInt <$> [0; 255; 255; 255]%Z] |} ∧
    pix_at s2 17%Z 2 0 = pix Sample.maskZ 0 1 ∧
    bufs s2 !! 12%Z = Some Sample.maskZ.
Proof.
  assert (H0 : ConvertPrev None Sample.world_frame Sample.s1 =
                 Some ((None, Sample.world_frame), Sample.s1)) by reflexivity.
  assert (H1 : bufs Sample.s1 !! 13%Z = Some (alloc_buf F32 2 2)) by reflexivity.
  assert (H2 : bufs Sample.s1 !! 14%Z = Some (alloc_buf F32 2 2)) by reflexivity.
  assert (H3 : bufs Sample.s1 !! 12%Z = Some Sample.maskZ) by reflexivity.
  assert (H4 : bufs Sample.s1 !! 15%Z = Some (alloc_buf F32 4 1)) by reflexivity.
  assert (H5 : bufs Sample.s1 !! 16%Z = Some (alloc_buf F32 4 1)) by reflexivity.
  assert (H6 : bufs Sample.s1 !! 17%Z = Some (alloc_buf U8 4 1)) by reflexivity.
  assert (I1 : is_image (alloc_buf F32 2 2) F32 2 2) by reflexivity.
  assert (I3 : is_image Sample.maskZ U8 2 2) by reflexivity.
  assert (I4 : is_image (alloc_buf F32 4 1) F32 (2 * 2) 1) by reflexivity.
  assert (I6 : is_image (alloc_buf U8 4 1) U8 (2 * 2) 1) by reflexivity.
  split; [exact H0|]. split; [exact H1|]. split; [exact I1|]. split; [exact H3|].
  split; [exact I3|]. split; [exact H4|]. split; [exact I4|]. split; [exact H6|].
  split; [exact I6|].
  assert (Hum : ∀ um, bufs Sample.s1 !! MilValidMask Sample.world_frame = Some um →
                      is_image um U8 2 2).
  { intros um Hm. change (Some Sample.maskZ = Some um) in Hm. injection Hm as <-. exact I3. }
  destruct (proj2 flatten_stage None Sample.flat Sample.world_frame Sample.s1 None
              Sample.world_frame Sample.s1 F32 2 2 (alloc_buf F32 2 2) (alloc_buf F32 2 2)
              (alloc_buf F32 4 1) (alloc_buf F32 4 1) (alloc_buf U8 4 1)
              H0 H1 I1 H2 I1 Hum H4 I4 H5 I4 H6 I6
              ltac:(distinct_ids) ltac:(distinct_ids) ltac:(distinct_ids)
              ltac:(distinct_ids) ltac:(distinct_ids) ltac:(distinct_ids))
    as (s2 & E & _ & _ & HM & _ & Hframe & Hsig & Hpix).
  exists s2. split; [exact E|]. split; [rewrite Hsig; reflexivity|].
  split; [exact (HM Sample.maskZ H3)|].
  split; [exact (proj2 (proj2 (Hpix 0 1 ltac:(lia))) Sample.maskZ H3)|].
  rewrite Hframe by distinct_ids. exact H3.
Defined.

Lemma depth_map_accumulation_witness :
  ∃ proc s1 proc' s' pts,
    new_CProfileDepthMapProcess 0%Z Sample.cal Sample.range (5 # 1)%Q (1 # 20)%Q 2 2
      Sample.s1 = Some (proc, s1) ∧
    (∀ Data, Data ∈ [Sample.frame; Sample.masked_frame] → mask_fits (2 * 2) s1 Data) ∧
    ProcessAll Sample.depth_count proc [Sample.frame; Sample.masked_frame] s1 =
      Some (proc', s') ∧
    clouds s' !! m_MilPointCloudContainer proc = Some pts ∧
    length pts = 2 * (2 * 2) ∧
    m_NbFramesProcessed proc' = 2%Z.
Proof.
  destruct (depth_map_accumulation Sample.depth_count 0%Z Sample.cal Sample.range
              (5 # 1)%Q (1 # 20)%Q 2 2 Sample.s1 [Sample.frame; Sample.masked_frame])
    as (proc & s1 & E & Hc & H).
  assert (Hfits : ∀ Data, Data ∈ [Sample.frame; Sample.masked_frame] →
                          mask_fits (2 * 2) s1 Data).
  { intros Data HD.
    assert (G : match new_CProfileDepthMapProcess 0%Z Sample.cal Sample.range
                        (5 # 1)%Q (1 # 20)%Q 2 2 Sample.s1 with
                | Some (_, s) => mask_fits (2 * 2) s Data
                | None => True
                end).
    { apply elem_of_cons in HD as [->|HD].
      - vm_compute. exact I.
      - apply list_elem_of_singleton in HD as ->. vm_compute. split; [reflexivity|].
        repeat constructor. }
    rewrite E in G. exact G. }
  destruct (H Hfits) as (proc' & s' & pts & EA & Hpts & Lpts & Hn & _).
  exists proc, s1, proc', s', pts. repeat split; assumption.
Defined.

(** * The further properties on the concrete frames *)

Ltac by_decision := apply (bool_decide_unpack _); vm_compute; exact I.



Lemma depth_map_process_lifecycle_witness :
  ∃ proc s1 proc' s2 s3,
    new_CProfileDepthMapProcess 0%Z Sample.cal Sample.range (5 # 1)%Q (1 # 20)%Q 2 2
      Sample.s1 = Some (proc, s1) ∧
    (∀ Data, Data ∈ [Sample.frame; Sample.masked_frame] → mask_fits (2 * 2) s1 Data) ∧
    ProcessAll Sample.depth_count proc [Sample.frame; Sample.masked_frame] s1 =
      Some (proc', s2) ∧
    delete_CProfileDepthMapProcess proc' s2 = Some (tt, s3) ∧
    bufs s3 = bufs Sample.s1 ∧ clouds s3 = clouds Sample.s1.
Proof.
  destruct (depth_map_process_lifecycle Sample.depth_count 0%Z Sample.cal Sample.range
              (5 # 1)%Q (1 # 20)%Q 2 2 Sample.s1 [Sample.frame; Sample.masked_frame])
    as (proc & s1 & E & H).
  assert (Hfits : ∀ Data, Data ∈ [Sample.frame; Sample.masked_frame] →
                          mask_fits (2 * 2) s1 Data).
  { intros Data HD.
    assert (G : match new_CProfileDepthMapProcess 0%Z Sample.cal Sample.range
                        (5 # 1)%Q (1 # 20)%Q 2 2 Sample.s1 with
                | Some (_, s) => mask_fits (2 * 2) s Data
                | None => True
                end).
    { apply elem_of_cons in HD as [->|HD].
      - vm_compute. exact I.
      - apply list_elem_of_singleton in HD as ->. vm_compute. split; [reflexivity|].
        repeat constructor. }
    rewrite E in G. exact G. }
  destruct (H Hfits) as (proc' & s2 & s3 & EA & _ & ED & Hb & Hc).
  exists proc, s1, proc', s2, s3. repeat split; assumption.
Defined.

Lemma hook_bands_witness :
  let self := {| m_SizeX := 1; m_SizeY := 2; m_pDataConversion := None;
                 m_pProfileProcess := tt |} in
  bufs Sample.s1 !! 10%Z = Some Sample.rawX ∧
  ∃ z x s1,
    z ≠ x ∧
    pix_at s1 z 0 0 = Some (PInt 0) ∧ pix_at s1 z 0 1 = Some (PInt 100) ∧
    pix_at s1 x 0 0 = Some (PInt 65535) ∧ pix_at s1 x 0 1 = Some (PInt 200) ∧
    bufs s1 !! 10%Z = Some Sample.rawX.
Proof.
  intros self.
  assert (Hg : bufs Sample.s1 !! 10%Z = Some Sample.rawX) by reflexivity.
  split; [exact Hg|].
  destruct (hook_bands (λ (p : unit) (_ : SPData), ret p) self 10%Z Sample.s1 Sample.rawX Hg)
    as (z & x & s1 & _ & _ & Hzx & Hz & Hx & _ & Hkeep & Hpix & _).
  exists z, x, s1. split; [exact Hzx|].
  destruct (Hpix 0 0 ltac:(simpl; lia) ltac:(simpl; lia)) as [Hz0 Hx0].
  destruct (Hpix 0 1 ltac:(simpl; lia) ltac:(simpl; lia)) as [Hz1 Hx1].
  split; [exact Hz0|]. split; [exact Hz1|]. split; [exact Hx0|]. split; [exact Hx1|].
  refine (eq_trans (Hkeep 10%Z _ _) Hg).
  - intros <-. pose proof (eq_trans (eq_sym Hg) Hz) as C. discriminate C.
  - intros <-. pose proof (eq_trans (eq_sym Hg) Hx) as C. discriminate C.
Defined.



Lemma invalid_masking_idempotent_witness :
  MilValidMask Sample.masked_frame ≠ MilX Sample.masked_frame ∧
  MilValidMask Sample.masked_frame ≠ MilZ Sample.masked_frame ∧
  ∃ s', ConvertOp CDataConversionApplyInvalid Sample.masked_frame Sample.s1 = Some (tt, s') ∧
        ConvertOp CDataConversionApplyInvalid Sample.masked_frame s' = Some (tt, s').
Proof.
  assert (H1 : MilValidMask Sample.masked_frame ≠ MilX Sample.masked_frame) by discriminate.
  assert (H2 : MilValidMask Sample.masked_frame ≠ MilZ Sample.masked_frame) by discriminate.
  split; [exact H1|]. split; [exact H2|].
  exact (invalid_masking_idempotent Sample.masked_frame Sample.s1 H1 H2).
Defined.

Lemma VerifyDeviceCompatibility_names_witness :
  "scanCONTROL 29" ∈ EXPECTED_DEVICE_MODEL ∧ String.length "50-" = 3 ∧
  EXPECTED_RANGE !! 2 = Some "25" ∧
  VerifyDeviceCompatibility EXPECTED_DEVICE_VENDOR "scanCONTROL 2950-25" =
    Some (true, 2%Z).
Proof.
  assert (Hm : "scanCONTROL 29" ∈ EXPECTED_DEVICE_MODEL) by (right; left).
  split; [exact Hm|]. split; [reflexivity|]. split; [reflexivity|].
  exact (proj1 (VerifyDeviceCompatibility_names "scanCONTROL 29" "50-" Hm) eq_refl 2 "25"
           eq_refl).
Defined.

Lemma ChooseProfileMode_first_choice_witness :
  Forall (λ key, key ∉ ["a"; "A"; "b"; "B"]%char) ["x"; "1"]%char ∧
  ChooseProfileMode ["x"; "1"]%char = None ∧
  ChooseProfileMode ["x"; "1"; "B"; "a"]%char = Some (NB_PROFILES_PER_GRAB, ["a"%char]).
Proof.
  assert (Hj : Forall (λ key, key ∉ ["a"; "A"; "b"; "B"]%char) ["x"; "1"]%char).
  { repeat constructor; by_decision. }
  split; [exact Hj|].
  destruct (ChooseProfileMode_first_choice ["x"; "1"]%char Hj) as [Hn Hc].
  split; [exact Hn|].
  exact (Hc "B"%char ["a"%char] ltac:(by_decision)).
Defined.

